(** * PCP 360 dashboard: panel controllers of the React front end

    A shallow embedding of the client logic of the dashboard:
    the material-code validator, the demo provider of the pegging panel,
    the fetch handlers of the pegging, planning-board, capacity, insights
    and overview panels, and the parts of their render functions that decide
    which blocks are shown.

    JavaScript strings are sequences of UTF-16 code units, JSON payloads are
    a tree of values, React state is a record that the handlers thread
    through a small state monad, and an [async] handler is a task that is
    suspended at each [await] and resumed by an event of the event loop. *)

From Stdlib Require Import QArith String Ascii List Sorting.Sorted Sorting.Permutation DecimalString.
From stdpp Require Import base tactics option list gmap.

Local Open Scope N_scope.

(** ** JavaScript strings *)

Module JsString.

(** A string is the list of its UTF-16 code units. *)
Definition jsstring := list N.

(** Code units of an ASCII literal of the source. *)
Definition u (s : string) : jsstring :=
  map (fun c => N.of_nat (nat_of_ascii c)) (list_ascii_of_string s).

(** ECMAScript [WhiteSpace] and [LineTerminator] code points, the
    characters removed by [String.prototype.trim]. *)
Definition is_white_space (c : N) : bool :=
  (c =? 9) || (c =? 10) || (c =? 11) || (c =? 12) || (c =? 13) ||
  (c =? 32) || (c =? 160) || (c =? 5760) ||
  ((8192 <=? c) && (c <=? 8202)) ||
  (c =? 8232) || (c =? 8233) || (c =? 8239) || (c =? 8287) ||
  (c =? 12288) || (c =? 65279).

Fixpoint trim_start (s : jsstring) : jsstring :=
  match s with
  | c :: s' => if is_white_space c then trim_start s' else s
  | [] => []
  end.

Definition trim_end (s : jsstring) : jsstring := rev (trim_start (rev s)).

(** [s.trim()] *)
Definition trim (s : jsstring) : jsstring := trim_end (trim_start s).

(** Truthiness of a string: [!s] is true exactly for the empty string. *)
Definition truthy_str (s : jsstring) : bool :=
  match s with [] => false | _ => true end.

(** [a || b] on strings. *)
Definition or_str (a b : jsstring) : jsstring := if truthy_str a then a else b.

(** Decimal rendering of a non-negative integer, as in a template literal. *)
Definition of_N (n : N) : jsstring := u (NilEmpty.string_of_uint (N.to_uint n)).

End JsString.
Export JsString.

(** ** Regular expressions

    The fragment of the regular-expression language that the source uses:
    character classes, sequence, alternation and the iterations, matched by
    derivatives, and a pattern with optional [^] and [$] assertions around a
    body. [test] searches for a match at any start offset, as
    [RegExp.prototype.test] does for a pattern without flags. *)

Module Regex.

Inductive class_item :=
| CChar (c : N)
| CRange (lo hi : N).

Definition in_item (c : N) (i : class_item) : bool :=
  match i with
  | CChar d => c =? d
  | CRange lo hi => (lo <=? c) && (c <=? hi)
  end.

Definition in_class (cls : list class_item) (c : N) : bool :=
  existsb (in_item c) cls.

Inductive regex :=
| RNone
| REps
| RClass (cls : list class_item)
| RSeq (r1 r2 : regex)
| RAlt (r1 r2 : regex)
| RStar (r : regex)
| RPlus (r : regex).

Fixpoint nullable (r : regex) : bool :=
  match r with
  | RNone => false
  | REps => true
  | RClass _ => false
  | RSeq r1 r2 => nullable r1 && nullable r2
  | RAlt r1 r2 => nullable r1 || nullable r2
  | RStar _ => true
  | RPlus r => nullable r
  end.

Fixpoint deriv (c : N) (r : regex) : regex :=
  match r with
  | RNone => RNone
  | REps => RNone
  | RClass cls => if in_class cls c then REps else RNone
  | RSeq r1 r2 =>
      if nullable r1 then RAlt (RSeq (deriv c r1) r2) (deriv c r2)
      else RSeq (deriv c r1) r2
  | RAlt r1 r2 => RAlt (deriv c r1) (deriv c r2)
  | RStar r => RSeq (deriv c r) (RStar r)
  | RPlus r => RSeq (deriv c r) (RStar r)
  end.

(** The whole of [s] is matched by [r]. *)
Fixpoint matches (r : regex) (s : jsstring) : bool :=
  match s with
  | [] => nullable r
  | c :: s' => matches (deriv c r) s'
  end.

Record pattern := {
  at_start : bool;   (* the pattern begins with ^ *)
  body : regex;
  at_end : bool      (* the pattern ends with $ *)
}.

(** Some prefix of [s] is matched by [r]; with [to_end] the prefix has to
    be all of [s]. *)
Fixpoint matches_prefix (to_end : bool) (r : regex) (s : jsstring) : bool :=
  (nullable r && (negb to_end || negb (truthy_str s))) ||
  match s with
  | [] => false
  | c :: s' => matches_prefix to_end (deriv c r) s'
  end.

(** A match starts at some offset of [s]; [first] tells that the offset
    at hand is the start of the input, where [^] holds. *)
Fixpoint search (p : pattern) (first : bool) (s : jsstring) : bool :=
  ((negb (at_start p) || first) && matches_prefix (at_end p) (body p) s) ||
  match s with
  | [] => false
  | _ :: s' => search p false s'
  end.

Definition test (p : pattern) (s : jsstring) : bool := search p true s.

End Regex.

(** ** The validator *)

Module Validator.
Import Regex.

(** [/^[0-9A-Za-z-]+$/] *)
Definition material_class : list class_item :=
  [CRange 48 57; CRange 65 90; CRange 97 122; CChar 45].

Definition material_regex : pattern :=
  {| at_start := true; body := RPlus (RClass material_class); at_end := true |}.

(** [isValidMaterial], the same in both versions of the pegging panel. *)
Definition isValidMaterial (code : jsstring) : bool :=
  let trimmed := trim (or_str code []) in
  if negb (truthy_str trimmed) then false
  else test material_regex trimmed.

(** The characters the validator accepts, by their code units. *)
Definition is_digit (c : N) : Prop := 48 <= c <= 57.
Definition is_ascii_letter (c : N) : Prop := 65 <= c <= 90 \/ 97 <= c <= 122.
Definition is_hyphen (c : N) : Prop := c = 45.
Definition allowed_char (c : N) : Prop :=
  is_digit c \/ is_ascii_letter c \/ is_hyphen c.

End Validator.

(** ** JSON values *)

Module Json.

(** A parsed response body. An object is the list of its properties in
    insertion order; a property read returns the first binding of the key. *)
#[warnings="-register-all"]
Inductive json :=
| JNull
| JBool (b : bool)
| JNum (q : Q)
| JStr (s : jsstring)
| JArr (items : list json)
| JObj (fields : list (jsstring * json)).

(** ToBoolean *)
Definition truthy (v : json) : bool :=
  match v with
  | JNull => false
  | JBool b => b
  | JNum q => negb (Qeq_bool q 0)
  | JStr s => truthy_str s
  | JArr _ => true
  | JObj _ => true
  end.

Fixpoint assoc (k : jsstring) (fs : list (jsstring * json)) : option json :=
  match fs with
  | [] => None
  | (k', v) :: fs' => if decide (k = k') then Some v else assoc k fs'
  end.

(** [v.k] for a key that is not a built-in property of arrays or strings;
    [None] is [undefined]. Reading a property of [null] throws in
    JavaScript: callers guard the read as the source does. *)
Definition prop (k : jsstring) (v : json) : option json :=
  match v with
  | JObj fs => assoc k fs
  | _ => None
  end.

(** [v?.k] *)
Definition opt_prop (k : jsstring) (v : json) : option json := prop k v.

(** [x ?? d]: [d] replaces [undefined] and [null] only. *)
Definition nullish (x : option json) (d : json) : json :=
  match x with
  | None | Some JNull => d
  | Some v => v
  end.

(** Truthiness of a value that may be [undefined]. *)
Definition truthy_opt (x : option json) : bool :=
  match x with
  | None => false
  | Some v => truthy v
  end.

Definition isArray (x : option json) : bool :=
  match x with
  | Some (JArr _) => true
  | _ => false
  end.

Definition items_of (x : option json) : list json :=
  match x with
  | Some (JArr l) => l
  | _ => []
  end.

(** [{...o, k: v}] on an object: an existing key keeps its position and
    takes the new value, a new key is added last. *)
Fixpoint set_assoc (k : jsstring) (v : json) (fs : list (jsstring * json))
  : list (jsstring * json) :=
  match fs with
  | [] => [(k, v)]
  | (k', v') :: fs' =>
      if decide (k = k') then (k, v) :: fs' else (k', v') :: set_assoc k v fs'
  end.

Definition with_prop (k : jsstring) (v : json) (o : json) : json :=
  match o with
  | JObj fs => JObj (set_assoc k v fs)
  | _ => JObj [(k, v)]
  end.

End Json.
Export Json.

(** ** React state and the event loop *)

Module StateM.

(** A handler body: reads and writes of the component state. *)
Definition M (S A : Type) : Type := S -> A * S.

Definition ret {S A} (a : A) : M S A := fun s => (a, s).
Definition bind {S A B} (m : M S A) (k : A -> M S B) : M S B :=
  fun s => let (a, s') := m s in k a s'.
Definition read {S} : M S S := fun s => (s, s).
Definition modify {S} (f : S -> S) : M S unit := fun s => (tt, f s).
Definition exec {S A} (m : M S A) (s : S) : S := snd (m s).

End StateM.
Export StateM.

Declare Scope handler_scope.
Delimit Scope handler_scope with handler.
Notation "x <- m ;; k" := (bind m (fun x => k))
  (at level 100, m at next level, right associativity) : handler_scope.
Notation "m ;; k" := (bind m (fun _ => k))
  (at level 100, right associativity) : handler_scope.

Module Async.

(** An [async] handler runs to its first [await] when it is triggered, and
    each later stretch runs when the promise it waits for settles; between
    two stretches other events of the panel may run. The URL of a request is
    a function of what the closure holds and is left out. *)

(** How the promise of [fetch(url)] settles. *)
Inductive fetch_settled :=
| FetchRejected (message : jsstring)      (* network failure, CORS *)
| Responded (ok : bool) (status : N).

(** How the promise of [resp.json()] settles. *)
Inductive json_settled :=
| JsonRejected (message : jsstring)       (* the body is not JSON *)
| Parsed (j : json).

(** The [await] a task is suspended at. *)
Inductive suspended := AwaitFetch | AwaitJson.

Section Controller.
(** [S] component state, [E] what the closure of a running handler
    holds, [T] the triggers the component reacts to. *)
Context {S E T : Type}.

Record controller := {
  (** the user interface can deliver the trigger in this state *)
  enabled : T -> S -> bool;
  (** the handler up to its first [await]; [Some e] when a fetch was issued *)
  on_trigger : T -> M S (option E);
  (** the handler from [await fetch] on; [true] when it now awaits [resp.json()] *)
  on_fetch : E -> fetch_settled -> M S bool;
  (** the handler from [await resp.json()] to its end *)
  on_json : E -> json_settled -> M S unit
}.

Record task := { closure : E; waits : suspended }.

(** The panel: its state, the handlers in flight by request number, and
    the number of requests issued so far. *)
Record world := {
  ui : S;
  tasks : gmap nat task;
  issued : nat
}.

Inductive event :=
| Trigger (t : T)
| FetchSettles (id : nat) (r : fetch_settled)
| JsonSettles (id : nat) (r : json_settled).

Variable c : controller.

(** One turn of the event loop; [None] when the event cannot happen. *)
Definition step (w : world) (ev : event) : option world :=
  match ev with
  | Trigger t =>
      if enabled c t (ui w) then
        match on_trigger c t (ui w) with
        | (Some e, s') =>
            Some {| ui := s';
                    tasks := <[issued w := {| closure := e; waits := AwaitFetch |}]> (tasks w);
                    issued := Datatypes.S (issued w) |}
        | (None, s') => Some {| ui := s'; tasks := tasks w; issued := issued w |}
        end
      else None
  | FetchSettles id r =>
      match tasks w !! id with
      | Some {| closure := e; waits := AwaitFetch |} =>
          match on_fetch c e r (ui w) with
          | (true, s') =>
              Some {| ui := s';
                      tasks := <[id := {| closure := e; waits := AwaitJson |}]> (tasks w);
                      issued := issued w |}
          | (false, s') =>
              Some {| ui := s'; tasks := delete id (tasks w); issued := issued w |}
          end
      | _ => None
      end
  | JsonSettles id r =>
      match tasks w !! id with
      | Some {| closure := e; waits := AwaitJson |} =>
          Some {| ui := exec (on_json c e r) (ui w);
                  tasks := delete id (tasks w);
                  issued := issued w |}
      | _ => None
      end
  end.

Fixpoint run (w : world) (evs : list event) : option world :=
  match evs with
  | [] => Some w
  | ev :: evs' =>
      match step w ev with
      | Some w' => run w' evs'
      | None => None
      end
  end.

Definition start (s : S) : world := {| ui := s; tasks := ∅; issued := 0 |}.

(** States the panel can be in after some sequence of events. *)
Inductive reachable (s0 : S) : world -> Prop :=
| reach_start : reachable s0 (start s0)
| reach_step w ev w' :
    reachable s0 w -> step w ev = Some w' -> reachable s0 w'.

Definition in_flight (w : world) : nat := size (tasks w).

End Controller.
Arguments controller : clear implicits.
Arguments task : clear implicits.
Arguments world : clear implicits.
Arguments event : clear implicits.

End Async.
Export Async.

(** ** What a render puts on the page *)

Module View.

(** The blocks of a panel: a block stands for a JSX element that the
    render selects, with the data it is given. Evaluating what is inside an
    element (formatting a field, mapping the rows of a list) can throw on a
    payload that has not the shape the backend gives it; this is modelled
    for the rows of the capacity page, which a statement is about, and is
    outside the model elsewhere, as is what React does when it mounts the
    elements. *)
Inductive block :=
| SubmitButton (disabled : bool)
| ErrorBox (message : jsstring)          (* [status-box error] *)
| LoadingBox                             (* [status-box] shown while loading *)
| EmptyBox                               (* informational empty-state message *)
| EmptyMsg                               (* [empty-msg] inside a card *)
| PanelTab (name : jsstring)             (* a child panel mounted by the tab *)
| SummaryCards (payload : json)
| OrdersGrid (ordens : list json)
| BoardView (payload : json)
| KpiCards (payload : json)
| BarChart (bars : list (option json * json))
| InsightCards (cards : list (json * Q))  (* each resource with the number in its title *)
| InsightList (items : json)
| DataTab (name : jsstring) (payload : json)   (* a tab of the overview drawn from its data *)
| TextNode (value : json).

(** [{v && <block/>}]: React draws the block when [v] is truthy, draws a
    falsy number as text, and draws nothing for [false], [null],
    [undefined] and the empty string. *)
Definition guarded (v : option json) (b : block) : list block :=
  if truthy_opt v then [b]
  else match v with
       | Some (JNum q) => [TextNode (JNum q)]
       | _ => []
       end.

(** [a && b] on values, [b] evaluated only when [a] is truthy. *)
Definition js_and (a b : option json) : option json :=
  if truthy_opt a then b else a.

(** [a || b] on values. *)
Definition js_or (a b : option json) : option json :=
  if truthy_opt a then a else b.

Definition is_error_box (b : block) : bool :=
  match b with ErrorBox _ => true | _ => false end.

(** The page shows an error banner. *)
Definition shows_error (page : list block) : bool := existsb is_error_box page.



End View.
Export View.

(** ** Pegging panel: state and render, shared by its two versions *)

Module PeggingPanel.

Record state := {
  materialInput : jsstring;
  loading : bool;
  error : jsstring;
  result : json
}.

Definition DEFAULT_MATERIAL : jsstring := u "4011835-AA".

Definition initial : state :=
  {| materialInput := DEFAULT_MATERIAL; loading := false; error := []; result := JNull |}.

Definition setMaterialInput (v : jsstring) : M state unit :=
  modify (fun s => {| materialInput := v; loading := loading s; error := error s; result := result s |}).
Definition setLoading (b : bool) : M state unit :=
  modify (fun s => {| materialInput := materialInput s; loading := b; error := error s; result := result s |}).
Definition setError (e : jsstring) : M state unit :=
  modify (fun s => {| materialInput := materialInput s; loading := loading s; error := e; result := result s |}).
Definition setResult (r : json) : M state unit :=
  modify (fun s => {| materialInput := materialInput s; loading := loading s; error := error s; result := r |}).

(** ['Informe um código de material válido. Ex: "4011835-AA".'] *)
Definition msg_invalid : jsstring :=
  u "Informe um c" ++ [243] ++ u "digo de material v" ++ [225] ++ u "lido. Ex: "
    ++ [34] ++ u "4011835-AA" ++ [34] ++ u ".".

(** ["Não foi possível carregar o Pegging IA para este material. Tente novamente."] *)
Definition msg_failed : jsstring :=
  u "N" ++ [227] ++ u "o foi poss" ++ [237]
    ++ u "vel carregar o Pegging IA para este material. Tente novamente.".

(** [const ordens = Array.isArray(result?.ordens) ? result.ordens : []] *)
Definition ordens (s : state) : list json :=
  if isArray (opt_prop (u "ordens") (result s)) then
    items_of (prop (u "ordens") (result s))
  else [].

(** [!loading && !error && result && (ordens.length === 0 || result.sem_ordens)] *)
Definition nenhumaOrdem (s : state) : option json :=
  js_and
    (js_and
       (js_and (Some (JBool (negb (loading s))))
               (Some (JBool (negb (truthy_str (error s))))))
       (Some (result s)))
    (js_or (Some (JBool (Nat.eqb (length (ordens s)) 0)))
           (prop (u "sem_ordens") (result s))).

Definition render (s : state) : list block :=
  [SubmitButton (loading s)]
  ++ guarded (Some (JStr (error s))) (ErrorBox (error s))
  ++ guarded (js_and (Some (JBool (loading s)))
                     (Some (JBool (negb (truthy_str (error s))))))
             LoadingBox
  ++ guarded (js_and (js_and (Some (result s)) (Some (JBool (negb (loading s)))))
                     (Some (JBool (negb (truthy_str (error s))))))
             (SummaryCards (result s))
  ++ guarded (nenhumaOrdem s) EmptyBox
  ++ guarded (Some (JBool (negb (Nat.eqb (length (ordens s)) 0))))
             (OrdersGrid (ordens s)).

(** What the panel reacts to: a click on the button, typing in the field. *)
Inductive trigger :=
| Click
| Input (v : jsstring).

(** The button carries [disabled={loading}]: a disabled button delivers no
    click. The text field is always live. *)
Definition enabled (t : trigger) (s : state) : bool :=
  match t with
  | Click => negb (loading s)
  | Input _ => true
  end.

End PeggingPanel.

(** ** Pegging panel, [frontend/src/PeggingIaLite.js] *)

Module PeggingIaLite.
Import Validator PeggingPanel.
Local Open Scope handler_scope.

(** [handleLoadPegging] up to [await fetch(...)]. The request carries the
    validated code. *)
Definition handleLoadPegging : M state (option jsstring) :=
  s <- read ;;
  let code := trim (materialInput s) in
  if negb (isValidMaterial code) then
    setError msg_invalid ;;
    setResult JNull ;;
    ret None
  else
    setLoading true ;;
    setError [] ;;
    setResult JNull ;;
    ret (Some code).

Definition catch_block : M state unit := setError msg_failed.

Definition finally_block : M state unit := setLoading false.

(** From [await fetch(...)] to [await resp.json()]; a response that is not
    ok throws into the [catch]. *)
Definition after_fetch (code : jsstring) (r : fetch_settled) : M state bool :=
  match r with
  | FetchRejected _ => catch_block ;; finally_block ;; ret false
  | Responded ok _ =>
      if negb ok then catch_block ;; finally_block ;; ret false
      else ret true
  end.

Definition after_json (code : jsstring) (r : json_settled) : M state unit :=
  match r with
  | Parsed j => setResult j ;; finally_block
  | JsonRejected _ => catch_block ;; finally_block
  end.

Definition panel : controller state jsstring trigger :=
  {| Async.enabled := PeggingPanel.enabled;
     on_trigger := fun t =>
       match t with
       | Click => handleLoadPegging
       | Input v => setMaterialInput v ;; ret None
       end;
     on_fetch := after_fetch;
     on_json := after_json |}.

End PeggingIaLite.

(** ** Pegging panel with demo data, [unnamed/part_001] *)

Module PeggingIaLiteDemo.
Import Validator PeggingPanel.
Local Open Scope handler_scope.

Definition demo_order (ordem data_fim : string) (atraso_dias backlog_qtd criticidade_score : Q) : json :=
  JObj [ (u "ordem", JStr (u ordem));
         (u "material", JStr (u "4011835-AA"));
         (u "data_fim", JStr (u data_fim));
         (u "atraso_dias", JNum atraso_dias);
         (u "backlog_qtd", JNum backlog_qtd);
         (u "criticidade_score", JNum criticidade_score) ].

Definition DEMO_ordens : list json :=
  [ demo_order "00000045" "2025-12-10" 3 450 91.3;
    demo_order "00000048" "2025-12-12" 1 220 84.7;
    demo_order "00000052" "2025-12-18" 0 0 72.1;
    demo_order "00000057" "2025-12-22" 0 0 65.3;
    demo_order "00000060" "2025-12-29" 0 0 58.9 ].

Definition DEMO_PEGGING_4011835 : json :=
  JObj [ (u "material", JStr (u "4011835-AA"));
         (u "descricao", JStr (u "Conjunto Airbag " ++ [8211] ++ u " Volante"));
         (u "cobertura_atual_dias", JNum 5.2);
         (u "total_ordens_vinculadas", JNum 5);
         (u "ordens_atrasadas", JNum 2);
         (u "maior_atraso_dias", JNum 3);
         (u "ordens", JArr DEMO_ordens) ].

(** [buildDemoResult]; [JNull] is [null]. *)
Definition buildDemoResult (code : jsstring) : json :=
  let clean := trim (or_str code []) in
  if negb (truthy_str clean) then JNull
  else if decide (clean = DEFAULT_MATERIAL) then DEMO_PEGGING_4011835
  else
    with_prop (u "ordens")
      (JArr (map (fun op => with_prop (u "material") (JStr clean) op)
                 (items_of (prop (u "ordens") DEMO_PEGGING_4011835))))
      (with_prop (u "material") (JStr clean) DEMO_PEGGING_4011835).

Definition handleLoadPegging : M state (option jsstring) :=
  s <- read ;;
  let code := trim (materialInput s) in
  if negb (isValidMaterial code) then
    setError msg_invalid ;;
    setResult JNull ;;
    ret None
  else
    setLoading true ;;
    setError [] ;;
    setResult JNull ;;
    ret (Some code).

(** The [catch]: any failure falls back to the demo data when there is some. *)
Definition catch_block (code : jsstring) : M state unit :=
  let demo := buildDemoResult code in
  if truthy demo then
    setResult demo ;;
    setError []
  else
    setError msg_failed.

Definition finally_block : M state unit := setLoading false.

Definition after_fetch (code : jsstring) (r : fetch_settled) : M state bool :=
  match r with
  | FetchRejected _ => catch_block code ;; finally_block ;; ret false
  | Responded ok _ =>
      if negb ok then
        let demo := buildDemoResult code in
        if truthy demo then
          setResult demo ;; finally_block ;; ret false
        else
          catch_block code ;; finally_block ;; ret false
      else ret true
  end.

Definition after_json (code : jsstring) (r : json_settled) : M state unit :=
  match r with
  | Parsed j => setResult j ;; finally_block
  | JsonRejected _ => catch_block code ;; finally_block
  end.

Definition panel : controller state jsstring trigger :=
  {| Async.enabled := PeggingPanel.enabled;
     on_trigger := fun t =>
       match t with
       | Click => handleLoadPegging
       | Input v => setMaterialInput v ;; ret None
       end;
     on_fetch := after_fetch;
     on_json := after_json |}.

End PeggingIaLiteDemo.

(** ** Planning board, [frontend/src/PlanningBoardIa.js] *)

Module PlanningBoardIa.
Local Open Scope handler_scope.

Record state := {
  materialCode : jsstring;
  board : json;
  loadingBoard : bool;
  error : jsstring
}.

Definition DEFAULT_MATERIAL : jsstring := u "4011835-AA".

Definition initial : state :=
  {| materialCode := DEFAULT_MATERIAL; board := JNull; loadingBoard := false; error := [] |}.

Definition setMaterialCode (v : jsstring) : M state unit :=
  modify (fun s => {| materialCode := v; board := board s; loadingBoard := loadingBoard s; error := error s |}).
Definition setBoard (b : json) : M state unit :=
  modify (fun s => {| materialCode := materialCode s; board := b; loadingBoard := loadingBoard s; error := error s |}).
Definition setLoadingBoard (b : bool) : M state unit :=
  modify (fun s => {| materialCode := materialCode s; board := board s; loadingBoard := b; error := error s |}).
Definition setError (e : jsstring) : M state unit :=
  modify (fun s => {| materialCode := materialCode s; board := board s; loadingBoard := loadingBoard s; error := e |}).

(** ["Não foi possível carregar o Planning Board IA."] *)
Definition msg_failed : jsstring :=
  u "N" ++ [227] ++ u "o foi poss" ++ [237] ++ u "vel carregar o Planning Board IA.".

(** [loadBoard] up to [await fetch(...)] *)
Definition loadBoard (code : jsstring) : M state (option jsstring) :=
  if negb (truthy_str code) then ret None
  else
    setLoadingBoard true ;;
    setError [] ;;
    ret (Some code).

Definition catch_block : M state unit :=
  setError msg_failed ;;
  setBoard JNull.

Definition finally_block : M state unit := setLoadingBoard false.

Definition after_fetch (code : jsstring) (r : fetch_settled) : M state bool :=
  match r with
  | FetchRejected _ => catch_block ;; finally_block ;; ret false
  | Responded ok _ =>
      if negb ok then catch_block ;; finally_block ;; ret false
      else ret true
  end.

Definition after_json (code : jsstring) (r : json_settled) : M state unit :=
  match r with
  | Parsed j => setBoard j ;; finally_block
  | JsonRejected _ => catch_block ;; finally_block
  end.

(** [handleSubmit] *)
Definition handleSubmit : M state (option jsstring) :=
  s <- read ;;
  if negb (truthy_str (materialCode s)) then ret None
  else loadBoard (trim (materialCode s)).

(** The effect run on mount: [loadBoard(materialCode)] *)
Definition mount_effect : M state (option jsstring) :=
  s <- read ;;
  loadBoard (materialCode s).

Inductive trigger :=
| Mount
| Submit
| Input (v : jsstring).

Definition panel : controller state jsstring trigger :=
  {| Async.enabled := fun _ _ => true;
     on_trigger := fun t =>
       match t with
       | Mount => mount_effect
       | Submit => handleSubmit
       | Input v => setMaterialCode v ;; ret None
       end;
     on_fetch := after_fetch;
     on_json := after_json |}.

Definition render (s : state) : list block :=
  [SubmitButton false]
  ++ guarded (Some (JBool (loadingBoard s))) LoadingBox
  ++ guarded (Some (JStr (error s))) (ErrorBox (error s))
  ++ guarded (js_and (Some (board s)) (Some (JBool (negb (loadingBoard s)))))
             (BoardView (board s)).

End PlanningBoardIa.

(** ** Capacity panel, [CapacityIa.js] in [unnamed/part_000] *)

Module CapacityIa.
Local Open Scope handler_scope.

Record state := {
  data : json;
  loading : bool;
  error : jsstring
}.

Definition initial : state := {| data := JNull; loading := true; error := [] |}.

Definition setData (d : json) : M state unit :=
  modify (fun s => {| data := d; loading := loading s; error := error s |}).
Definition setLoading (b : bool) : M state unit :=
  modify (fun s => {| data := data s; loading := b; error := error s |}).
Definition setError (e : jsstring) : M state unit :=
  modify (fun s => {| data := data s; loading := loading s; error := e |}).

(** ["Não foi possível carregar os dados de capacidade da IA."] *)
Definition msg_failed : jsstring :=
  u "N" ++ [227] ++ u "o foi poss" ++ [237] ++ u "vel carregar os dados de capacidade da IA.".

(** [fetchCapacity] up to [await fetch(...)] *)
Definition fetchCapacity : M state (option unit) :=
  setLoading true ;;
  setError [] ;;
  ret (Some tt).

Definition catch_block : M state unit :=
  setError msg_failed ;;
  setData JNull.

Definition finally_block : M state unit := setLoading false.

Definition after_fetch (_ : unit) (r : fetch_settled) : M state bool :=
  match r with
  | FetchRejected _ => catch_block ;; finally_block ;; ret false
  | Responded ok _ =>
      if negb ok then catch_block ;; finally_block ;; ret false
      else ret true
  end.

(** [setData(json || null)] *)
Definition after_json (_ : unit) (r : json_settled) : M state unit :=
  match r with
  | Parsed j => setData (if truthy j then j else JNull) ;; finally_block
  | JsonRejected _ => catch_block ;; finally_block
  end.

Inductive trigger := Mount.

Definition panel : controller state unit trigger :=
  {| Async.enabled := fun _ _ => true;
     on_trigger := fun _ => fetchCapacity;
     on_fetch := after_fetch;
     on_json := after_json |}.

(** [Array.prototype.sort(cmp)]: the comparator says that [a] goes after
    [b] when it returns a positive number; every other answer, zero and NaN
    ([None]) included, leaves the two in their order. The sort is stable. *)
Definition goes_after {A} (cmp : A -> A -> option Q) (a b : A) : bool :=
  match cmp a b with
  | Some v => negb (Qle_bool v 0)
  | None => false
  end.

Fixpoint sort_insert {A} (cmp : A -> A -> option Q) (x : A) (l : list A) : list A :=
  match l with
  | [] => [x]
  | y :: l' => if goes_after cmp x y then y :: sort_insert cmp x l' else x :: l
  end.

Fixpoint js_sort {A} (cmp : A -> A -> option Q) (l : list A) : list A :=
  match l with
  | [] => []
  | x :: l' => sort_insert cmp x (js_sort cmp l')
  end.

(** Arrays are objects of the heap: the spread [[...a]] allocates a new
    array, [sort] reorders the array it is called on and returns it. A
    reference is the index of the array in the heap. *)
Abbreviation heap := (list (list json)).

Section Render.

(** ToNumber of a string, an array or an object is the conversion of the
    runtime; [None] is NaN. *)
Variable coerce : json -> option Q.

Definition to_number (v : json) : option Q :=
  match v with
  | JNull => Some 0%Q
  | JBool b => Some (if b then 1%Q else 0%Q)
  | JNum q => Some q
  | _ => coerce v
  end.

(** [x - y] *)
Definition js_minus (x y : json) : option Q :=
  match to_number x, to_number y with
  | Some a, Some b => Some (a - b)%Q
  | _, _ => None
  end.

(** [r?.utilizacao_pct ?? 0] *)
Definition utilizacao (r : json) : json :=
  nullish (opt_prop (u "utilizacao_pct") r) (JNum 0).

(** [(a, b) => (b?.utilizacao_pct ?? 0) - (a?.utilizacao_pct ?? 0)] *)
Definition by_utilizacao (a b : json) : option Q :=
  js_minus (utilizacao b) (utilizacao a).

(** [const { insights = [] } = data] then
    [Array.isArray(insights) ? insights : []] *)
Definition safeInsights (d : json) : list json :=
  let insights := match prop (u "insights") d with
                  | None => JArr []
                  | Some v => v
                  end in
  if isArray (Some insights) then items_of (Some insights) else [].

(** [[...safeInsights].sort(...)] *)
Definition sortedResources (d : json) : list json :=
  js_sort by_utilizacao (safeInsights d).

(** [sortedResources.map((r) => ({recurso: r.recurso, utilizacao:
    r.utilizacao_pct ?? 0}))]; reading a property of [null] throws. *)
Definition chart_row (r : json) : option (option json * json) :=
  match r with
  | JNull => None
  | _ => Some (prop (u "recurso") r, utilizacao r)
  end.

Definition chartData (d : json) : option (list (option json * json)) :=
  mapM chart_row (sortedResources d).

(** A card of [sortedResources.map((r, idx) => ...)]: it takes
    [r.utilizacao_pct ?? 0] and calls [toFixed(1)] on it for the title, which
    only a number has; reading a property of [null] throws. *)
Definition card_row (r : json) : option (json * Q) :=
  match r with
  | JNull => None
  | _ => match utilizacao r with
         | JNum q => Some (r, q)
         | _ => None
         end
  end.

Definition cards (d : json) : option (list (json * Q)) :=
  mapM card_row (sortedResources d).

(** The render; [None] when it throws. *)
Definition render (s : state) : option (list block) :=
  if loading s then Some [LoadingBox]
  else if truthy_str (error s) then Some [ErrorBox (error s)]
  else if negb (truthy (data s)) then Some [EmptyBox]
  else
    match chartData (data s), cards (data s) with
    | Some bars, Some cs =>
        Some ([KpiCards (data s)]
              ++ (if Nat.eqb (length bars) 0 then [EmptyMsg] else [BarChart bars])
              ++ (if Nat.eqb (length (sortedResources (data s))) 0 then [EmptyBox]
                  else [InsightCards cs]))
    | _, _ => None
    end.

Definition alloc (h : heap) (a : list json) : heap * nat := (h ++ [a], length h).

Definition array_at (h : heap) (r : nat) : list json := default [] (h !! r).

Definition sort_in_place (h : heap) (r : nat) : heap :=
  <[r := js_sort by_utilizacao (array_at h r)]> h.

(** The statements that compute [sortedResources], on the heap;
    [insights] is the reference held by [data.insights] when that is an
    array. The result is the heap and the reference of [sortedResources]. *)
Definition sortedResources_on_heap (h : heap) (insights : option nat) : heap * nat :=
  let (h1, safe) := match insights with
                    | Some r => (h, r)
                    | None => alloc h []
                    end in
  let (h2, copy) := alloc h1 (array_at h1 safe) in
  (sort_in_place h2 copy, copy).

End Render.

End CapacityIa.

(** ** Insights panel, [IaInsightsPanel] in [unnamed/part_000] *)

Module IaInsightsPanel.
Local Open Scope handler_scope.

Record state := {
  insights : json;
  loading : bool;
  error : option jsstring     (* [null] or a message *)
}.

Definition initial : state := {| insights := JArr []; loading := true; error := None |}.

Definition setInsights (i : json) : M state unit :=
  modify (fun s => {| insights := i; loading := loading s; error := error s |}).
Definition setLoading (b : bool) : M state unit :=
  modify (fun s => {| insights := insights s; loading := b; error := error s |}).
Definition setError (e : option jsstring) : M state unit :=
  modify (fun s => {| insights := insights s; loading := loading s; error := e |}).

Definition msg_default : jsstring := u "Erro inesperado ao carregar insights.".

(** [`Erro ao buscar insights: ${res.status}`] *)
Definition msg_status (status : N) : jsstring :=
  u "Erro ao buscar insights: " ++ of_N status.

(** The effect, run on mount and when the [filterTipo] prop changes, up to
    [await fetch(...)]. The closure keeps [filterTipo] ([None]: not given). *)
Definition fetchInsights (filterTipo : option jsstring) : M state (option (option jsstring)) :=
  setLoading true ;;
  setError None ;;
  ret (Some filterTipo).

(** [setError(err.message || "Erro inesperado ao carregar insights.")] *)
Definition catch_block (message : jsstring) : M state unit :=
  setError (Some (or_str message msg_default)).

Definition finally_block : M state unit := setLoading false.

Definition after_fetch (filterTipo : option jsstring) (r : fetch_settled) : M state bool :=
  match r with
  | FetchRejected m => catch_block m ;; finally_block ;; ret false
  | Responded ok status =>
      if negb ok then catch_block (msg_status status) ;; finally_block ;; ret false
      else ret true
  end.

Section Runtime.

(** The message of a TypeError raised by the runtime. *)
Variable type_error_message : jsstring.

(** [i.tipo === filterTipo]; [None] when [i] is [null] and the read throws. *)
Definition tipo_is (ft : jsstring) (i : json) : option bool :=
  match i with
  | JNull => None
  | _ => Some (match prop (u "tipo") i with
               | Some (JStr t) => bool_decide (t = ft)
               | _ => false
               end)
  end.

Definition after_json (filterTipo : option jsstring) (r : json_settled) : M state unit :=
  match r with
  | JsonRejected m => catch_block m ;; finally_block
  | Parsed d =>
      match d with
      | JNull => catch_block type_error_message ;; finally_block
      | _ =>
          let items := default (JArr []) (js_or (prop (u "insights") d) (Some (JArr []))) in
          if truthy_str (default [] filterTipo) then
            match items with
            | JArr l =>
                match mapM (tipo_is (default [] filterTipo)) l with
                | Some keep =>
                    setInsights (JArr (map snd (List.filter (fun p : bool * json => fst p) (zip keep l)))) ;;
                    finally_block
                | None => catch_block type_error_message ;; finally_block
                end
            | _ => catch_block type_error_message ;; finally_block
            end
          else
            setInsights items ;; finally_block
      end
  end.

Inductive trigger := Effect (filterTipo : option jsstring).

Definition panel : controller state (option jsstring) trigger :=
  {| Async.enabled := fun _ _ => true;
     on_trigger := fun t => match t with Effect ft => fetchInsights ft end;
     on_fetch := after_fetch;
     on_json := after_json |}.

End Runtime.

(** [insights.length === 0] *)
Definition no_insights (v : json) : bool :=
  match v with
  | JArr l => Nat.eqb (length l) 0
  | JStr t => Nat.eqb (length t) 0
  | JObj _ => match prop (u "length") v with
              | Some (JNum q) => Qeq_bool q 0
              | _ => false
              end
  | _ => false
  end.

Definition render (s : state) : list block :=
  guarded (Some (JBool (loading s))) LoadingBox
  ++ match error s with
     | Some e => guarded (Some (JStr e)) (ErrorBox e)
     | None => []
     end
  ++ guarded (Some (JBool (negb (loading s) &&
                          negb (truthy_str (default [] (error s))) &&
                          no_insights (insights s))))
             EmptyBox
  ++ guarded (Some (JBool (negb (loading s) && negb (truthy_str (default [] (error s))))))
             (InsightList (insights s)).

End IaInsightsPanel.

(** ** Overview, [App] in [unnamed/part_000] *)

Module App.
Local Open Scope handler_scope.

Record state := {
  data : json;
  loading : bool;
  error : jsstring;
  activeTab : jsstring
}.

Definition initial : state :=
  {| data := JNull; loading := true; error := []; activeTab := u "overview" |}.

Definition setData (d : json) : M state unit :=
  modify (fun s => {| data := d; loading := loading s; error := error s; activeTab := activeTab s |}).
Definition setLoading (b : bool) : M state unit :=
  modify (fun s => {| data := data s; loading := b; error := error s; activeTab := activeTab s |}).
Definition setError (e : jsstring) : M state unit :=
  modify (fun s => {| data := data s; loading := loading s; error := e; activeTab := activeTab s |}).
Definition setActiveTab (t : jsstring) : M state unit :=
  modify (fun s => {| data := data s; loading := loading s; error := error s; activeTab := t |}).

(** ["Não foi possível carregar os dados do backend."] *)
Definition msg_failed : jsstring :=
  u "N" ++ [227] ++ u "o foi poss" ++ [237] ++ u "vel carregar os dados do backend.".

(** [fetchData] up to [await fetch(...)]: it sets nothing first. *)
Definition fetchData : M state (option unit) := ret (Some tt).

Definition catch_block : M state unit := setError msg_failed.

Definition finally_block : M state unit := setLoading false.

Definition after_fetch (_ : unit) (r : fetch_settled) : M state bool :=
  match r with
  | FetchRejected _ => catch_block ;; finally_block ;; ret false
  | Responded ok _ =>
      if negb ok then catch_block ;; finally_block ;; ret false
      else ret true
  end.

Definition after_json (_ : unit) (r : json_settled) : M state unit :=
  match r with
  | Parsed j => setData j ;; setError [] ;; finally_block
  | JsonRejected _ => catch_block ;; finally_block
  end.

Inductive trigger :=
| Mount
| Tab (name : jsstring).

Definition panel : controller state unit trigger :=
  {| Async.enabled := fun _ _ => true;
     on_trigger := fun t =>
       match t with
       | Mount => fetchData
       | Tab name => setActiveTab name ;; ret None
       end;
     on_fetch := after_fetch;
     on_json := after_json |}.

(** [{!loading && !error && data && activeTab === name && (...)}] *)
Definition data_tab (s : state) (name : jsstring) : list block :=
  guarded (js_and (js_and (Some (JBool (negb (loading s) && negb (truthy_str (error s)))))
                          (Some (data s)))
                  (Some (JBool (bool_decide (activeTab s = name)))))
          (DataTab name (data s)).

(** [{!loading && !error && activeTab === name && (...)}] *)
Definition panel_tab (s : state) (name : jsstring) : list block :=
  guarded (Some (JBool (negb (loading s) && negb (truthy_str (error s)) &&
                        bool_decide (activeTab s = name))))
          (PanelTab name).

Definition render (s : state) : list block :=
  guarded (Some (JBool (loading s))) LoadingBox
  ++ guarded (Some (JStr (error s))) (ErrorBox (error s))
  ++ data_tab s (u "overview")
  ++ data_tab s (u "materials")
  ++ data_tab s (u "orders")
  ++ panel_tab s (u "resources")
  ++ panel_tab s (u "planning")
  ++ panel_tab s (u "pegging").

End App.

(** ** Vocabulary of the statements *)

Module Spec.

(** [r] is [seed] with the material code [x] put in the top-level
    [material] field and in the [material] field of each order; every
    other field of the record and of each order is the seed's. *)
Definition cloned_with (x : jsstring) (seed r : json) : Prop :=
  prop (u "material") r = Some (JStr x) /\
  (forall k, k <> u "material" -> k <> u "ordens" -> prop k r = prop k seed) /\
  exists ops seed_ops,
    prop (u "ordens") r = Some (JArr ops) /\
    prop (u "ordens") seed = Some (JArr seed_ops) /\
    Forall2 (fun op seed_op =>
               prop (u "material") op = Some (JStr x) /\
               forall k, k <> u "material" -> prop k op = prop k seed_op)
            ops seed_ops.

Definition is_object (v : json) : Prop :=
  match v with JObj _ => True | _ => False end.

(** The ways a request fails: the [fetch] promise rejects, the response
    status is not ok, or the response is ok and its body does not parse. *)
Inductive failure :=
| NetworkFailure (message : jsstring)
| BadStatus (status : N)
| BadBody (status : N) (message : jsstring).

(** The events by which request [id] fails with [f]. *)
Definition fails {T} (id : nat) (f : failure) : list (event T) :=
  match f with
  | NetworkFailure m => [FetchSettles id (FetchRejected m)]
  | BadStatus st => [FetchSettles id (Responded false st)]
  | BadBody st m => [FetchSettles id (Responded true st); JsonSettles id (JsonRejected m)]
  end.

(** The events by which request [id] succeeds with the body [j]. *)
Definition succeeds {T} (id : nat) (status : N) (j : json) : list (event T) :=
  [FetchSettles id (Responded true status); JsonSettles id (Parsed j)].

(** How a request ends. *)
Inductive outcome :=
| Succeeds (status : N) (body : json)
| Fails (f : failure).

Definition settles {T} (id : nat) (o : outcome) : list (event T) :=
  match o with
  | Succeeds st j => succeeds id st j
  | Fails f => fails id f
  end.

(** The orders of a pegging payload: its [ordens] when that is an array. *)
Definition ordens_of (p : json) : list json := items_of (prop (u "ordens") p).

(** The empty predicate of the pegging panel: a payload that is there and
    has no orders or says [sem_ordens]. *)
Definition pegging_empty (p : json) : bool :=
  truthy p &&
  (Nat.eqb (length (ordens_of p)) 0 || truthy_opt (prop (u "sem_ordens") p)).


(** A resource the capacity page can draw: not [null], with a
    [utilizacao_pct] that is a number, [null] or missing. *)
Definition resource (r : json) : Prop :=
  r <> JNull /\
  (prop (u "utilizacao_pct") r = None \/
   prop (u "utilizacao_pct") r = Some JNull \/
   exists q, prop (u "utilizacao_pct") r = Some (JNum q)).

(** The utilisation of a resource, a missing or [null] one counted as 0. *)
Definition utilizacao_of (r : json) : Q :=
  match prop (u "utilizacao_pct") r with
  | Some (JNum q) => q
  | _ => 0%Q
  end.

(** [a] may stand before [b] in a list in non-increasing order of
    utilisation. *)
Definition not_below (a b : json) : Prop := (utilizacao_of b <= utilizacao_of a)%Q.

(** The state a handler leaves when its request fails with [f], started
    in [s] with the closure [e]; [None] when the handler would not end
    there. *)
Definition after_failure {S E T} (c : controller S E T) (e : E) (f : failure) (s : S)
  : option S :=
  match f with
  | NetworkFailure m =>
      let (more, s') := on_fetch c e (FetchRejected m) s in
      if more then None else Some s'
  | BadStatus st =>
      let (more, s') := on_fetch c e (Responded false st) s in
      if more then None else Some s'
  | BadBody st m =>
      let (more, s') := on_fetch c e (Responded true st) s in
      if more then Some (exec (on_json c e (JsonRejected m)) s') else None
  end.

(** The state a handler leaves when its request succeeds with body [j]. *)
Definition after_success {S E T} (c : controller S E T) (e : E) (st : N) (j : json) (s : S)
  : option S :=
  let (more, s') := on_fetch c e (Responded true st) s in
  if more then Some (exec (on_json c e (Parsed j)) s') else None.

(** What the planning board writes when a request ends: the body and the
    loading flag on success, the message, an empty board and the loading
    flag on failure. *)
Definition planning_applies (o : outcome) (s : PlanningBoardIa.state) : PlanningBoardIa.state :=
  match o with
  | Succeeds _ j =>
      {| PlanningBoardIa.materialCode := PlanningBoardIa.materialCode s;
         PlanningBoardIa.board := j;
         PlanningBoardIa.loadingBoard := false;
         PlanningBoardIa.error := PlanningBoardIa.error s |}
  | Fails _ =>
      {| PlanningBoardIa.materialCode := PlanningBoardIa.materialCode s;
         PlanningBoardIa.board := JNull;
         PlanningBoardIa.loadingBoard := false;
         PlanningBoardIa.error := PlanningBoardIa.msg_failed |}
  end.

(** The loading flag of the pegging panel follows its handlers: set when a
    request is issued, cleared when a handler ends, untouched otherwise;
    typing issues no request, and the button is live as the render says. *)
Definition follows_loading (c : controller PeggingPanel.state jsstring PeggingPanel.trigger) : Prop :=
  (forall t s e s', on_trigger c t s = (Some e, s') -> PeggingPanel.loading s' = true) /\
  (forall t s s', on_trigger c t s = (None, s') ->
                  PeggingPanel.loading s' = PeggingPanel.loading s) /\
  (forall e r s s', on_fetch c e r s = (true, s') ->
                    PeggingPanel.loading s' = PeggingPanel.loading s) /\
  (forall e r s s', on_fetch c e r s = (false, s') -> PeggingPanel.loading s' = false) /\
  (forall e r s, PeggingPanel.loading (exec (on_json c e r) s) = false) /\
  (forall v s, fst (on_trigger c (PeggingPanel.Input v) s) = None) /\
  (forall t s, Async.enabled c t s = PeggingPanel.enabled t s).

(** The loading flag tells whether a request is in flight, and there is
    never more than one. *)
Definition one_at_a_time (w : world PeggingPanel.state jsstring) : Prop :=
  (PeggingPanel.loading (ui w) = true /\ size (tasks w) = 1%nat) \/
  (PeggingPanel.loading (ui w) = false /\ tasks w = ∅).

(** Empty, or starting with a character that is not white space. *)
Definition clean_head (s : jsstring) : Prop :=
  match s with
  | [] => True
  | c :: _ => is_white_space c = false
  end.

End Spec.

(** ** The URL of a request *)

Module Uri.

(** The characters [encodeURIComponent] leaves as they are: ASCII letters,
    digits and [-_.!~*'()]. *)
Definition unescaped (c : N) : bool :=
  ((48 <=? c) && (c <=? 57)) || ((65 <=? c) && (c <=? 90)) || ((97 <=? c) && (c <=? 122)) ||
  (c =? 45) || (c =? 95) || (c =? 46) || (c =? 33) || (c =? 126) || (c =? 42) ||
  (c =? 39) || (c =? 40) || (c =? 41).

Definition is_lead (c : N) : bool := (55296 <=? c) && (c <=? 56319).
Definition is_trail (c : N) : bool := (56320 <=? c) && (c <=? 57343).

(** The code point of a surrogate pair. *)
Definition pair_code_point (lead trail : N) : N :=
  (lead - 55296) * 1024 + (trail - 56320) + 65536.

(** The octets of a code point in UTF-8. *)
Definition utf8 (cp : N) : list N :=
  if cp <? 128 then [cp]
  else if cp <? 2048 then [192 + cp / 64; 128 + cp mod 64]
  else if cp <? 65536 then [224 + cp / 4096; 128 + (cp / 64) mod 64; 128 + cp mod 64]
  else [240 + cp / 262144; 128 + (cp / 4096) mod 64; 128 + (cp / 64) mod 64; 128 + cp mod 64].

Definition hex_digit (d : N) : N := if d <? 10 then 48 + d else 55 + d.

(** [%XX] for an octet, in upper-case hexadecimal. *)
Definition percent (octet : N) : jsstring :=
  [37; hex_digit (octet / 16); hex_digit (octet mod 16)].

Definition escape (cp : N) : jsstring := concat (map percent (utf8 cp)).

(** [encodeURIComponent(s)]; [None] is the URIError thrown for a surrogate
    that is not part of a pair. *)
Fixpoint encodeURIComponent (s : jsstring) : option jsstring :=
  match s with
  | [] => Some []
  | c :: s' =>
      if unescaped c then option_map (cons c) (encodeURIComponent s')
      else if is_lead c then
        match s' with
        | d :: s'' =>
            if is_trail d then
              option_map (app (escape (pair_code_point c d))) (encodeURIComponent s'')
            else None
        | [] => None
        end
      else if is_trail c then None
      else option_map (app (escape c)) (encodeURIComponent s')
  end.

(** [API_BASE_URL] of [config.js]: the environment's value when it is set
    and not empty, else the public address. *)
Definition API_BASE_URL (env : option jsstring) : jsstring :=
  or_str (default [] env) (u "https://jgm-smartplanning-api.onrender.com").

(** [API_BASE] of the components that hardcode the loopback address. *)
Definition API_BASE_LOCAL : jsstring := u "http://127.0.0.1:8000".

(** [`${API_BASE}/pegging/ia-lite?material=${encodeURIComponent(code)}`] *)
Definition pegging_url (base code : jsstring) : option jsstring :=
  option_map (fun q => base ++ u "/pegging/ia-lite?material=" ++ q)
             (encodeURIComponent code).

(** [`${API_BASE}/planning/board/${code}`], the code as it is. *)
Definition planning_url (base code : jsstring) : jsstring :=
  base ++ u "/planning/board/" ++ code.

End Uri.

(** ** The chart of the planning board, [frontend/src/PlanningBoardIa.js] *)

Module PlanningChart.

(** [a[idx]] on a value that is not [null]: an element of an array, a
    character of a string, the property of an object under the decimal
    index; [None] is [undefined]. *)
Definition js_index (a : json) (idx : nat) : option json :=
  match a with
  | JArr l => l !! idx
  | JStr t => option_map (fun c => JStr [c]) (t !! idx)
  | JObj fs => assoc (of_N (N.of_nat idx)) fs
  | _ => None
  end.

(** [x || []] *)
Definition or_empty (x : option json) : json :=
  if truthy_opt x then default JNull x else JArr [].

(** A point of the chart. *)
Record row := {
  semana : json;
  demanda : json;
  estoque_natural : json;
  estoque_pos_ia : json;
  producao_ia : json
}.

(** The callback of [labels.map((label, idx) => ...)]; the four series are
    read from [board.series] before the [map]. *)
Definition chart_row (series : json) (idx : nat) (label : json) : row :=
  let demanda := or_empty (prop (u "demanda") series) in
  let estoqueNatural := or_empty (prop (u "estoque_natural") series) in
  let estoquePosIa := or_empty (prop (u "estoque_pos_ia") series) in
  let producaoIa := or_empty (prop (u "producao_ia") series) in
  {| semana := label;
     demanda := nullish (js_index demanda idx) (JNum 0);
     estoque_natural := nullish (js_index estoqueNatural idx) (JNum 0);
     estoque_pos_ia := nullish (js_index estoquePosIa idx) (JNum 0);
     producao_ia := nullish (js_index producaoIa idx) (JNum 0) |}.

(** [chartData], computed by every render before anything is drawn: [[]]
    unless [board], [board.series] and [board.series.labels] are all truthy;
    [None] when [labels.map] is not a function and the render throws. *)
Definition chartData (board : json) : option (list row) :=
  if truthy board then
    let series := prop (u "series") board in
    if truthy_opt series then
      let labels := prop (u "labels") (default JNull series) in
      if truthy_opt labels then
        match or_empty labels with
        | JArr ls => Some (imap (chart_row (default JNull series)) ls)
        | _ => None
        end
      else Some []
    else Some []
  else Some [].

End PlanningChart.

(** ** The cards of the capacity page, [CapacityIa] in [unnamed/part_000] *)

Module CapacityCards.

Inductive card_class :=
| CapacityCritical      (* [capacity-insight-card capacity-critical] *)
| CapacityNormal        (* [capacity-insight-card capacity-normal] *)
| CapacityLow.          (* [capacity-insight-card capacity-low] *)

Section Cards.

(** ToNumber of a string, an array or an object, as the capacity render
    takes it. *)
Variable coerce : json -> option Q.

(** [String.prototype.toLowerCase] of the runtime. *)
Variable toLowerCase : jsstring -> jsstring.

(** [x > n] and [x < n] for a number [n]: [false] when [x] converts to NaN. *)
Definition js_gt (x : json) (n : Q) : bool :=
  match CapacityIa.to_number coerce x with
  | Some a => negb (Qle_bool a n)
  | None => false
  end.

Definition js_lt (x : json) (n : Q) : bool :=
  match CapacityIa.to_number coerce x with
  | Some a => negb (Qle_bool n a)
  | None => false
  end.

(** [(r.categoria && r.categoria.toLowerCase() === "gargalo") ||
    utilizacao > 100]; [None] when [categoria] is truthy and has no
    [toLowerCase] to call. *)
Definition isGargalo (r utilizacao : json) : option bool :=
  match prop (u "categoria") r with
  | Some (JStr c) =>
      if truthy_str c then Some (bool_decide (toLowerCase c = u "gargalo") || js_gt utilizacao 100)
      else Some (js_gt utilizacao 100)
  | Some v => if truthy v then None else Some (js_gt utilizacao 100)
  | None => Some (js_gt utilizacao 100)
  end.

(** [cardClass] *)
Definition cardClass (gargalo : bool) (utilizacao : json) : card_class :=
  if gargalo then CapacityCritical
  else if js_lt utilizacao 90 then CapacityLow
  else CapacityNormal.

(** The callback of [sortedResources.map((r, idx) => ...)] of the cards:
    the class of the card and whether it carries the badge; [None] when it
    throws, on a [null] resource, on a category it cannot lower-case and on
    a utilisation that has no [toFixed]. *)
Definition card (r : json) : option (card_class * bool) :=
  match r with
  | JNull => None
  | _ =>
      let utilizacao := CapacityIa.utilizacao r in
      match isGargalo r utilizacao with
      | None => None
      | Some gargalo =>
          match utilizacao with
          | JNum _ => Some (cardClass gargalo utilizacao, gargalo)
          | _ => None
          end
      end
  end.

Definition cards (d : json) : option (list (card_class * bool)) :=
  mapM card (CapacityIa.sortedResources coerce d).

End Cards.

End CapacityCards.

(** ** The first pegging panel, [frontend/src/PeggingIaLite - OLD.js] *)

Module PeggingIaLiteOld.
Local Open Scope handler_scope.

(** The component state and, with it, the [materialCode] prop of the last
    render ([None]: not given). *)
Record state := {
  materialCode : option jsstring;
  material : jsstring;
  effectiveMaterial : jsstring;
  data : json;
  loading : bool;
  error : jsstring
}.

(** The state on mount: [useState(materialCode || "")] twice. *)
Definition initial (mc : option jsstring) : state :=
  {| materialCode := mc;
     material := or_str (default [] mc) [];
     effectiveMaterial := or_str (default [] mc) [];
     data := JNull; loading := false; error := [] |}.

Definition setProp (mc : option jsstring) : M state unit :=
  modify (fun s => {| materialCode := mc; material := material s;
                      effectiveMaterial := effectiveMaterial s; data := data s;
                      loading := loading s; error := error s |}).
Definition setMaterial (v : jsstring) : M state unit :=
  modify (fun s => {| materialCode := materialCode s; material := v;
                      effectiveMaterial := effectiveMaterial s; data := data s;
                      loading := loading s; error := error s |}).
Definition setEffectiveMaterial (v : jsstring) : M state unit :=
  modify (fun s => {| materialCode := materialCode s; material := material s;
                      effectiveMaterial := v; data := data s;
                      loading := loading s; error := error s |}).
Definition setData (d : json) : M state unit :=
  modify (fun s => {| materialCode := materialCode s; material := material s;
                      effectiveMaterial := effectiveMaterial s; data := d;
                      loading := loading s; error := error s |}).
Definition setLoading (b : bool) : M state unit :=
  modify (fun s => {| materialCode := materialCode s; material := material s;
                      effectiveMaterial := effectiveMaterial s; data := data s;
                      loading := b; error := error s |}).
Definition setError (e : jsstring) : M state unit :=
  modify (fun s => {| materialCode := materialCode s; material := material s;
                      effectiveMaterial := effectiveMaterial s; data := data s;
                      loading := loading s; error := e |}).

Definition msg_failed : jsstring :=
  u "Falha ao carregar Pegging IA para o material informado.".

Definition catch_block : M state unit := setError msg_failed.

Definition finally_block : M state unit := setLoading false.

(** [`${API_BASE}/planning/board/${encodeURIComponent(mat)}`]; [None] when
    [encodeURIComponent] throws. *)
Definition url (mat : jsstring) : option jsstring :=
  option_map (fun q => Uri.API_BASE_LOCAL ++ u "/planning/board/" ++ q)
             (Uri.encodeURIComponent mat).

(** [fetchPegging] up to [await fetch(...)]. The URL is built inside the
    [try]: when [encodeURIComponent] throws, the [catch] and the [finally]
    run and no request is made. *)
Definition fetchPegging (mat : jsstring) : M state (option jsstring) :=
  if negb (truthy_str mat) then ret None
  else
    setLoading true ;;
    setError [] ;;
    match url mat with
    | Some _ => ret (Some mat)
    | None => catch_block ;; finally_block ;; ret None
    end.

Definition after_fetch (mat : jsstring) (r : fetch_settled) : M state bool :=
  match r with
  | FetchRejected _ => catch_block ;; finally_block ;; ret false
  | Responded ok _ =>
      if negb ok then catch_block ;; finally_block ;; ret false
      else ret true
  end.

Definition after_json (mat : jsstring) (r : json_settled) : M state unit :=
  match r with
  | Parsed j => setData j ;; finally_block
  | JsonRejected _ => catch_block ;; finally_block
  end.

(** The effect on [materialCode], run with the prop of the render. *)
Definition prop_effect (mc : option jsstring) : M state (option jsstring) :=
  setProp mc ;;
  if truthy_str (default [] mc) then
    setMaterial (default [] mc) ;;
    setEffectiveMaterial (default [] mc) ;;
    fetchPegging (default [] mc)
  else ret None.

(** [handleLoadClick] *)
Definition handleLoadClick : M state (option jsstring) :=
  s <- read ;;
  setEffectiveMaterial (material s) ;;
  fetchPegging (material s).

(** What the panel reacts to: a render with a [materialCode] prop, after
    which the effect runs (React runs it on mount and when the prop has
    changed; here it may run after any render), a click on the button,
    typing in the field. *)
Inductive trigger :=
| Props (mc : option jsstring)
| Click
| Input (v : jsstring).

(** The field and the button are drawn only when no [materialCode] is
    given. *)
Definition enabled (t : trigger) (s : state) : bool :=
  match t with
  | Props _ => true
  | Click | Input _ => negb (truthy_str (default [] (materialCode s)))
  end.

Definition panel : controller state jsstring trigger :=
  {| Async.enabled := enabled;
     on_trigger := fun t =>
       match t with
       | Props mc => prop_effect mc
       | Click => handleLoadClick
       | Input v => setMaterial v ;; ret None
       end;
     on_fetch := after_fetch;
     on_json := after_json |}.

Section Render.

(** ToNumber of a string, an array or an object. *)
Variable coerce : json -> option Q.

(** [const ordens = data?.pegging_ordens || []] *)
Definition ordens (data : json) : json :=
  PlanningChart.or_empty (opt_prop (u "pegging_ordens") data).

(** [o.dias_atraso || 0] *)
Definition dias_atraso (o : json) : json :=
  default (JNum 0) (js_or (prop (u "dias_atraso") o) (Some (JNum 0))).

(** The callback of the filter, [(o) => (o.dias_atraso || 0) > 0]; [None]
    when [o] is [null] and the read throws. *)
Definition is_critica (o : json) : option bool :=
  match o with
  | JNull => None
  | _ => Some (CapacityCards.js_gt coerce (dias_atraso o) 0)
  end.

(** [ordens.filter(...)]; [None] when [ordens] has no [filter] or the
    callback throws. *)
Definition ordensCriticas (data : json) : option (list json) :=
  match ordens data with
  | JArr l =>
      option_map (fun keep => map snd (List.filter (fun p : bool * json => fst p) (zip keep l)))
                 (mapM is_critica l)
  | _ => None
  end.

(** [Math.max(m, ...xs)] for a number [m]; [None] is NaN. *)
Fixpoint math_max (m : Q) (xs : list json) : option Q :=
  match xs with
  | [] => Some m
  | x :: xs' =>
      match CapacityIa.to_number coerce x with
      | Some a => math_max (if Qle_bool m a then a else m) xs'
      | None => None
      end
  end.

(** [atrasoMax]: the outer [None] when the render throws, the inner one
    when the value is NaN. The number of arguments an engine lets a call
    spread is outside the model. *)
Definition atrasoMax (data : json) : option (option Q) :=
  match ordensCriticas data with
  | None => None
  | Some [] => Some (Some 0%Q)
  | Some (o :: os) =>
      Some (match CapacityIa.to_number coerce (dias_atraso o) with
            | Some a => math_max a (map dias_atraso os)
            | None => None
            end)
  end.

End Render.

End PeggingIaLiteOld.

(** ** The cards and counters of the pegging page *)

Module PeggingCards.

Section Cards.

Variable coerce : json -> option Q.

(** [const atraso = op.atraso_dias ?? 0] *)
Definition atraso (op : json) : json := nullish (prop (u "atraso_dias") op) (JNum 0).

(** [atraso > 0]: the card says how many days, else [No prazo]; [None] when
    [op] is [null] and the read throws. *)
Definition late (op : json) : option bool :=
  match op with
  | JNull => None
  | _ => Some (CapacityCards.js_gt coerce (atraso op) 0)
  end.

(** [op.material ?? result.material ?? materialInput] *)
Definition card_material (s : PeggingPanel.state) (op : json) : json :=
  nullish (prop (u "material") op)
    (nullish (prop (u "material") (PeggingPanel.result s))
             (JStr (PeggingPanel.materialInput s))).

End Cards.

(** [result.total_ordens_vinculadas ?? ordens.length ?? 0] *)
Definition kpi_total (s : PeggingPanel.state) : json :=
  nullish (prop (u "total_ordens_vinculadas") (PeggingPanel.result s))
          (JNum (inject_Z (Z.of_nat (length (PeggingPanel.ordens s))))).

(** [result.ordens_atrasadas ?? 0] *)
Definition kpi_atrasadas (s : PeggingPanel.state) : json :=
  nullish (prop (u "ordens_atrasadas") (PeggingPanel.result s)) (JNum 0).

(** The number in [Maior atraso: ... dia(s)]: [result.maior_atraso_dias],
    and 0 when that is [null] or missing. *)
Definition kpi_maior_atraso (s : PeggingPanel.state) : json :=
  nullish (prop (u "maior_atraso_dias") (PeggingPanel.result s)) (JNum 0).

End PeggingCards.

(** ** Vocabulary of the further properties *)

Module Cover.

(** Every handler in flight holds a closure that meets [P]. *)
Definition closures {S E : Type} (P : E -> Prop) (w : world S E) : Prop :=
  forall id t, tasks w !! id = Some t -> P (closure t).

(** The states of the pegging panel that are one of idle, loading, loaded
    and failed: while loading there is neither message nor result, and a
    message comes with no result. *)
Definition one_view (s : PeggingPanel.state) : Prop :=
  (PeggingPanel.loading s = true ->
     PeggingPanel.error s = [] /\ PeggingPanel.result s = JNull) /\
  (PeggingPanel.error s <> [] -> PeggingPanel.result s = JNull).

(** The handlers of a pegging panel keep [one_view]: a trigger that the
    page can deliver does, and so does a handler that resumes while the
    loading flag is up. *)
Definition keeps_one_view (c : controller PeggingPanel.state jsstring PeggingPanel.trigger) : Prop :=
  (forall t s o s', PeggingPanel.enabled t s = true -> one_view s ->
                    on_trigger c t s = (o, s') -> one_view s') /\
  (forall e r s b s', PeggingPanel.loading s = true -> one_view s ->
                      on_fetch c e r s = (b, s') -> one_view s') /\
  (forall e r s, PeggingPanel.loading s = true -> one_view s ->
                 one_view (exec (on_json c e r) s)).

(** The loading flag [ld] of a panel is left alone, or cleared, by a
    trigger that issues no request and is cleared by every handler that
    ends. *)
Definition clears_loading {S E T : Type} (c : controller S E T) (ld : S -> bool) : Prop :=
  (forall t s s', on_trigger c t s = (None, s') -> ld s' = ld s \/ ld s' = false) /\
  (forall e r s s', on_fetch c e r s = (false, s') -> ld s' = false) /\
  (forall e r s, ld (exec (on_json c e r) s) = false).

(** Nothing is in flight only before the first request or with the loading
    flag down. *)
Definition settled_means_idle {S E : Type} (ld : S -> bool) (s0 : S) (w : world S E) : Prop :=
  tasks w = ∅ -> (issued w = 0%nat /\ ld (ui w) = ld s0) \/ ld (ui w) = false.

(** The value [v] drawn at index [i] for a series of the planning board:
    the entry of the array, 0 where the array has none or has [null], and 0
    when the series is missing or falsy. *)
Definition padded (series : option json) (i : nat) (v : json) : Prop :=
  match series with
  | Some (JArr xs) => v = nullish (xs !! i) (JNum 0)
  | _ => truthy_opt series = false -> v = JNum 0
  end.

(** [v] is an array. *)
Definition is_array (v : json) : Prop :=
  match v with JArr _ => True | _ => False end.

(** The insight [i] is of type [ft]: its [tipo] is that string. *)
Definition has_tipo (ft : jsstring) (i : json) : bool :=
  match prop (u "tipo") i with
  | Some (JStr t) => bool_decide (t = ft)
  | _ => false
  end.

(** How urgent a card of the capacity page looks. *)
Definition severity (c : CapacityCards.card_class) : nat :=
  match c with
  | CapacityCards.CapacityCritical => 2
  | CapacityCards.CapacityNormal => 1
  | CapacityCards.CapacityLow => 0
  end.

(** The class the utilisation [q] alone gives a card. *)
Definition class_of_utilizacao (q : Q) : CapacityCards.card_class :=
  if Qle_bool q 100 then
    if Qle_bool 90 q then CapacityCards.CapacityNormal else CapacityCards.CapacityLow
  else CapacityCards.CapacityCritical.

(** The resource carries no category: [categoria] is missing or falsy. *)
Definition uncategorised (r : json) : Prop := truthy_opt (prop (u "categoria") r) = false.

(** An order the first pegging panel can read a delay from: not [null],
    with a [dias_atraso] that is a number, [null] or missing. *)
Definition order_with_delay (o : json) : Prop :=
  o <> JNull /\
  (prop (u "dias_atraso") o = None \/
   prop (u "dias_atraso") o = Some JNull \/
   exists q, prop (u "dias_atraso") o = Some (JNum q)).

(** The delay of an order in days, a missing or [null] one counted as 0. *)
Definition delay_of (o : json) : Q :=
  match prop (u "dias_atraso") o with
  | Some (JNum q) => q
  | _ => 0%Q
  end.

(** The order is late. *)
Definition is_late (o : json) : bool := negb (Qle_bool (delay_of o) 0).

(** The resource has the utilisation [q]. *)
Definition utilizacao_is (q : Q) (r : json) : bool := Qeq_bool (Spec.utilizacao_of r) q.

End Cover.

(** Peels the conjuncts that hold by computation off the goal. *)
Ltac fields := repeat (split; [reflexivity|]).

(** * Properties *)

(** ** Strings and the regular expression of the validator *)

Section RegexFacts.
Import Regex.

Lemma or_str_empty (s : jsstring) : or_str s [] = s.
Proof. by destruct s. Qed.

Lemma matches_none (s : jsstring) : matches RNone s = false.
Proof. induction s; simpl; auto. Qed.

Lemma matches_seq_none (r : regex) (s : jsstring) : matches (RSeq RNone r) s = false.
Proof. induction s; simpl; auto. Qed.

Lemma matches_alt (r1 r2 : regex) (s : jsstring) :
  matches (RAlt r1 r2) s = matches r1 s || matches r2 s.
Proof. revert r1 r2; induction s as [|c s IH]; intros; simpl; auto. Qed.

Lemma matches_seq_eps (r : regex) (s : jsstring) :
  matches (RSeq REps r) s = matches r s.
Proof.
  destruct s as [|c s]; simpl; [done|].
  by rewrite matches_alt, matches_seq_none.
Qed.

Lemma matches_class_then (cls : list class_item) (r : regex) (c : N) (s : jsstring) :
  matches (RSeq (deriv c (RClass cls)) r) s = in_class cls c && matches r s.
Proof.
  simpl. destruct (in_class cls c); simpl.
  - apply matches_seq_eps.
  - apply matches_seq_none.
Qed.

Lemma matches_star_class (cls : list class_item) (s : jsstring) :
  matches (RStar (RClass cls)) s = forallb (in_class cls) s.
Proof.
  induction s as [|c s IH]; [done|].
  change (matches (RStar (RClass cls)) (c :: s))
    with (matches (RSeq (deriv c (RClass cls)) (RStar (RClass cls))) s).
  by rewrite matches_class_then, IH.
Qed.

Lemma matches_plus_class (cls : list class_item) (s : jsstring) :
  matches (RPlus (RClass cls)) s = truthy_str s && forallb (in_class cls) s.
Proof.
  destruct s as [|c s]; [done|].
  change (matches (RPlus (RClass cls)) (c :: s))
    with (matches (RSeq (deriv c (RClass cls)) (RStar (RClass cls))) s).
  by rewrite matches_class_then, matches_star_class.
Qed.

Lemma matches_prefix_to_end (r : regex) (s : jsstring) :
  matches_prefix true r s = matches r s.
Proof.
  revert r; induction s as [|c s IH]; intros r; simpl.
  - by rewrite andb_true_r, orb_false_r.
  - by rewrite andb_false_r, IH.
Qed.

Lemma search_anchored_later (p : pattern) (s : jsstring) :
  at_start p = true -> search p false s = false.
Proof. intros Hp; induction s as [|c s IH]; simpl; rewrite Hp; simpl; auto. Qed.

Lemma test_anchored (p : pattern) (s : jsstring) :
  at_start p = true -> at_end p = true -> test p s = matches (body p) s.
Proof.
  intros Hs He. unfold test.
  destruct s as [|c s]; simpl; rewrite Hs, He; simpl.
  - by rewrite andb_true_r, !orb_false_r.
  - rewrite (search_anchored_later p s Hs), orb_false_r, andb_false_r.
    apply (matches_prefix_to_end (deriv c (body p)) s).
Qed.

Lemma material_class_allowed (c : N) :
  in_class Validator.material_class c = true <-> Validator.allowed_char c.
Proof.
  unfold Validator.allowed_char, Validator.is_digit, Validator.is_ascii_letter,
    Validator.is_hyphen; simpl.
  rewrite !orb_true_iff, !andb_true_iff, !N.leb_le, N.eqb_eq.
  intuition lia.
Qed.

Lemma forallb_material_class (s : jsstring) :
  forallb (in_class Validator.material_class) s = true
  <-> Forall Validator.allowed_char s.
Proof.
  rewrite forallb_forall, Forall_forall.
  split; intros H c Hc.
  - apply material_class_allowed, H. by apply list_elem_of_In.
  - apply material_class_allowed, H. by apply list_elem_of_In.
Qed.

Lemma truthy_str_nonempty (s : jsstring) : truthy_str s = true <-> s <> [].
Proof. destruct s; simpl; split; congruence. Qed.

End RegexFacts.

(** ** C3: the validator *)

(** C3. For every string [s], [isValidMaterial s] is true exactly when [s]
    trimmed of surrounding white space is not empty and each of its
    characters is a digit, an ASCII letter or a hyphen. The validator is a
    function of its argument alone: it reads no state and has no effect. *)
Theorem isValidMaterial_spec (s : jsstring) :
  Validator.isValidMaterial s = true
  <-> trim s <> [] /\ Forall Validator.allowed_char (trim s).
Proof.
  unfold Validator.isValidMaterial. rewrite or_str_empty.
  rewrite <- truthy_str_nonempty, <- forallb_material_class.
  destruct (truthy_str (trim s)) eqn:Ht; simpl.
  - rewrite test_anchored by reflexivity.
    change (Regex.body Validator.material_regex)
      with (Regex.RPlus (Regex.RClass Validator.material_class)).
    rewrite matches_plus_class, Ht. simpl. intuition.
  - intuition congruence.
Qed.

Example isValidMaterial_default : Validator.isValidMaterial (u "4011835-AA") = true.
Proof. reflexivity. Qed.

Example isValidMaterial_blank : Validator.isValidMaterial (u "  ") = false.
Proof. reflexivity. Qed.

Example isValidMaterial_underscore : Validator.isValidMaterial (u "abc_123") = false.
Proof. reflexivity. Qed.

Example isValidMaterial_padded : Validator.isValidMaterial (u "  4011835-AA  ") = true.
Proof. reflexivity. Qed.

(** ** Trimming *)

Section TrimFacts.
Import Spec.

Lemma trim_start_clean (s : jsstring) : clean_head (trim_start s).
Proof.
  induction s as [|c s IH]; simpl; [done|].
  destruct (is_white_space c) eqn:Hc; [done|]. simpl. done.
Qed.

Lemma trim_start_fixed (s : jsstring) : clean_head s -> trim_start s = s.
Proof. destruct s as [|c s]; simpl; [done|]. by intros ->. Qed.

Lemma trim_start_suffix (s : jsstring) : exists pre, s = pre ++ trim_start s.
Proof.
  induction s as [|c s [pre IH]]; simpl.
  - by exists [].
  - destruct (is_white_space c).
    + exists (c :: pre). simpl. by f_equal.
    + by exists [].
Qed.

Lemma clean_head_app (s t : jsstring) : clean_head (s ++ t) -> clean_head s.
Proof. by destruct s. Qed.

(** Dropping white space at the start keeps a clean end. *)
Lemma trim_start_keeps_end (s : jsstring) :
  clean_head (rev s) -> clean_head (rev (trim_start s)).
Proof.
  destruct (trim_start_suffix s) as [pre Hs]. intros H.
  rewrite Hs, rev_app_distr in H. by apply clean_head_app in H.
Qed.

Lemma trim_clean (s : jsstring) : clean_head (trim s) /\ clean_head (rev (trim s)).
Proof.
  unfold trim, trim_end. rewrite rev_involutive. split.
  - apply trim_start_keeps_end. rewrite rev_involutive. apply trim_start_clean.
  - apply trim_start_clean.
Qed.

Lemma trim_fixed (s : jsstring) :
  clean_head s -> clean_head (rev s) -> trim s = s.
Proof.
  intros H1 H2. unfold trim, trim_end.
  by rewrite (trim_start_fixed s H1), (trim_start_fixed _ H2), rev_involutive.
Qed.

(** Trimming twice is trimming once. *)
Lemma trim_idempotent (s : jsstring) : trim (trim s) = trim s.
Proof. destruct (trim_clean s). by apply trim_fixed. Qed.

Lemma isValidMaterial_trim (s : jsstring) :
  Validator.isValidMaterial (trim s) = Validator.isValidMaterial s.
Proof.
  unfold Validator.isValidMaterial. by rewrite !or_str_empty, trim_idempotent.
Qed.

Lemma valid_code_not_blank (s : jsstring) :
  Validator.isValidMaterial s = true -> truthy_str (trim s) = true.
Proof.
  unfold Validator.isValidMaterial. rewrite or_str_empty.
  by destruct (truthy_str (trim s)).
Qed.

Lemma allowed_not_white_space (c : N) :
  Validator.allowed_char c -> is_white_space c = false.
Proof.
  unfold Validator.allowed_char, Validator.is_digit, Validator.is_ascii_letter,
    Validator.is_hyphen, is_white_space.
  intros H.
  repeat (apply orb_false_intro);
    try (apply N.eqb_neq; lia);
    apply andb_false_iff; left; apply N.leb_gt; lia.
Qed.

Lemma allowed_clean_head (s : jsstring) : Forall Validator.allowed_char s -> clean_head s.
Proof. destruct 1; simpl; [done|]. by apply allowed_not_white_space. Qed.

(** A string of allowed characters has nothing to trim. *)
Lemma trim_allowed (s : jsstring) : Forall Validator.allowed_char s -> trim s = s.
Proof.
  intros H. apply trim_fixed; apply allowed_clean_head; [done|].
  by apply Forall_rev.
Qed.

End TrimFacts.

(** ** C4: the demo provider *)

Section DemoFacts.
Import PeggingPanel PeggingIaLiteDemo Spec.

Lemma assoc_set_assoc_eq (k : jsstring) (v : json) (fs : list (jsstring * json)) :
  assoc k (set_assoc k v fs) = Some v.
Proof.
  induction fs as [|[k' v'] fs IH]; simpl.
  - by rewrite decide_True.
  - destruct (decide (k = k')) as [->|Hne]; simpl.
    + by rewrite decide_True.
    + by rewrite decide_False.
Qed.

Lemma assoc_set_assoc_ne (k k' : jsstring) (v : json) (fs : list (jsstring * json)) :
  k <> k' -> assoc k (set_assoc k' v fs) = assoc k fs.
Proof.
  intros Hne. induction fs as [|[k2 v2] fs IH]; simpl.
  - by rewrite decide_False.
  - destruct (decide (k' = k2)) as [->|Hne2]; simpl.
    + by rewrite !decide_False.
    + destruct (decide (k = k2)); auto.
Qed.

Lemma prop_with_prop_eq (k : jsstring) (v o : json) :
  prop k (with_prop k v o) = Some v.
Proof.
  destruct o; simpl; try by rewrite decide_True.
  apply assoc_set_assoc_eq.
Qed.

Lemma prop_with_prop_ne (k k' : jsstring) (v o : json) :
  is_object o -> k <> k' -> prop k (with_prop k' v o) = prop k o.
Proof.
  destruct o; simpl; try done.
  intros _. apply assoc_set_assoc_ne.
Qed.

Lemma with_prop_is_object (k : jsstring) (v o : json) : is_object (with_prop k v o).
Proof. by destruct o. Qed.

Lemma DEMO_ordens_objects : Forall is_object DEMO_ordens.
Proof. repeat constructor. Qed.

Lemma DEMO_ordens_prop :
  prop (u "ordens") DEMO_PEGGING_4011835 = Some (JArr DEMO_ordens).
Proof. reflexivity. Qed.

(** Putting the code into each order changes the [material] field alone. *)
Lemma orders_cloned (x : jsstring) (seed_ops : list json) :
  Forall is_object seed_ops ->
  Forall2 (fun op seed_op =>
             prop (u "material") op = Some (JStr x) /\
             forall k, k <> u "material" -> prop k op = prop k seed_op)
          (map (fun op => with_prop (u "material") (JStr x) op) seed_ops) seed_ops.
Proof.
  induction 1 as [|o os Ho _ IH]; simpl; constructor; auto.
  split.
  - apply prop_with_prop_eq.
  - intros k Hk. by apply prop_with_prop_ne.
Qed.

Lemma buildDemoResult_other (code : jsstring) :
  trim code <> [] -> trim code <> DEFAULT_MATERIAL ->
  buildDemoResult code =
    with_prop (u "ordens")
      (JArr (map (fun op => with_prop (u "material") (JStr (trim code)) op) DEMO_ordens))
      (with_prop (u "material") (JStr (trim code)) DEMO_PEGGING_4011835).
Proof.
  intros Hne Hdef. unfold buildDemoResult. rewrite or_str_empty.
  apply truthy_str_nonempty in Hne. rewrite Hne. simpl negb. cbv iota.
  by rewrite decide_False.
Qed.

End DemoFacts.

Section DemoCloneFacts.
Import PeggingPanel PeggingIaLiteDemo Spec.

Lemma buildDemoResult_cloned (code : jsstring) :
  trim code <> [] -> trim code <> DEFAULT_MATERIAL ->
  cloned_with (trim code) DEMO_PEGGING_4011835 (buildDemoResult code).
Proof.
  intros Hne Hdef. rewrite buildDemoResult_other by done. split_and!.
  - rewrite prop_with_prop_ne; [apply prop_with_prop_eq|apply with_prop_is_object|done].
  - intros k Hm Ho. rewrite !prop_with_prop_ne; done.
  - eexists _, DEMO_ordens. split; [apply prop_with_prop_eq|].
    split; [reflexivity|].
    apply orders_cloned, DEMO_ordens_objects.
Qed.

End DemoCloneFacts.

(** C4. With [x] the identifier trimmed: the demo provider returns [null]
    when [x] is empty; the seed dataset itself when [x] is "4011835-AA";
    and otherwise a record whose [material] and the [material] of each of
    its orders are [x], every other field being the seed's. In particular,
    for an identifier [x] made of allowed characters the record carries [x]
    as it was given. The result depends on the trimmed identifier alone, so
    two calls with the same identifier give equal records. *)
Theorem buildDemoResult_spec (code : jsstring) :
  let x := trim code in
  (x = [] -> PeggingIaLiteDemo.buildDemoResult code = JNull) /\
  (x = PeggingPanel.DEFAULT_MATERIAL ->
     PeggingIaLiteDemo.buildDemoResult code = PeggingIaLiteDemo.DEMO_PEGGING_4011835) /\
  (x <> [] -> x <> PeggingPanel.DEFAULT_MATERIAL ->
     Spec.cloned_with x PeggingIaLiteDemo.DEMO_PEGGING_4011835
       (PeggingIaLiteDemo.buildDemoResult code)) /\
  (code <> [] -> Forall Validator.allowed_char code ->
     code <> PeggingPanel.DEFAULT_MATERIAL ->
     Spec.cloned_with code PeggingIaLiteDemo.DEMO_PEGGING_4011835
       (PeggingIaLiteDemo.buildDemoResult code)) /\
  (forall code', trim code' = x ->
     PeggingIaLiteDemo.buildDemoResult code' = PeggingIaLiteDemo.buildDemoResult code).
Proof.
  intros x. subst x. split_and!.
  - intros Hx. unfold PeggingIaLiteDemo.buildDemoResult.
    by rewrite or_str_empty, Hx.
  - intros Hx. unfold PeggingIaLiteDemo.buildDemoResult.
    by rewrite or_str_empty, Hx.
  - apply buildDemoResult_cloned.
  - intros Hne Hok Hdef.
    pose proof (buildDemoResult_cloned code) as H.
    rewrite (trim_allowed code Hok) in H. by apply H.
  - intros code' Hc. unfold PeggingIaLiteDemo.buildDemoResult.
    by rewrite !or_str_empty, Hc.
Qed.

Example buildDemoResult_blank : PeggingIaLiteDemo.buildDemoResult (u "   ") = JNull.
Proof. reflexivity. Qed.

Example buildDemoResult_other_code :
  prop (u "material") (PeggingIaLiteDemo.buildDemoResult (u "ABC-1")) = Some (JStr (u "ABC-1"))
  /\ prop (u "descricao") (PeggingIaLiteDemo.buildDemoResult (u "ABC-1"))
     = prop (u "descricao") PeggingIaLiteDemo.DEMO_PEGGING_4011835
  /\ (map (prop (u "material"))
          (items_of (prop (u "ordens") (PeggingIaLiteDemo.buildDemoResult (u "ABC-1")))))
     = replicate 5 (Some (JStr (u "ABC-1")))
  /\ (map (prop (u "backlog_qtd"))
          (items_of (prop (u "ordens") (PeggingIaLiteDemo.buildDemoResult (u "ABC-1")))))
     = map (prop (u "backlog_qtd")) PeggingIaLiteDemo.DEMO_ordens.
Proof. vm_compute. repeat split. Qed.

(** ** C10: a blank code on the planning board *)

(** C10. On the planning board, submitting an empty or white-space-only
    material code changes nothing: the loading flag, the error message and
    the board loaded before stay as they were, and no request is issued. *)
Theorem planning_blank_submit_is_noop (w : world PlanningBoardIa.state jsstring) :
  trim (PlanningBoardIa.materialCode (ui w)) = [] ->
  step PlanningBoardIa.panel w (Trigger PlanningBoardIa.Submit) = Some w.
Proof.
  intros Hblank. destruct w as [s ts n]. simpl in *.
  unfold PlanningBoardIa.handleSubmit, bind, read, ret.
  destruct (truthy_str (PlanningBoardIa.materialCode s)); simpl; [|done].
  by rewrite Hblank.
Qed.

(** White space only, with a board on the page and a request in flight. *)
Lemma planning_blank_submit_is_noop_witness :
  let s := {| PlanningBoardIa.materialCode := u "   ";
              PlanningBoardIa.board := JObj [(u "material", JStr (u "4011835-AA"))];
              PlanningBoardIa.loadingBoard := true;
              PlanningBoardIa.error := u "x" |} in
  let w := {| ui := s;
              tasks := {[ 0%nat := {| closure := u "4011835-AA"; waits := AwaitFetch |} ]};
              issued := 1 |} in
  trim (PlanningBoardIa.materialCode s) = [] /\
  step PlanningBoardIa.panel w (Trigger PlanningBoardIa.Submit) = Some w.
Proof.
  split; [reflexivity|].
  apply (planning_blank_submit_is_noop
           {| ui := {| PlanningBoardIa.materialCode := u "   ";
                       PlanningBoardIa.board := JObj [(u "material", JStr (u "4011835-AA"))];
                       PlanningBoardIa.loadingBoard := true;
                       PlanningBoardIa.error := u "x" |};
              tasks := {[ 0%nat := {| closure := u "4011835-AA"; waits := AwaitFetch |} ]};
              issued := 1 |}).
  reflexivity.
Defined.

Example planning_empty_submit :
  PlanningBoardIa.handleSubmit
    {| PlanningBoardIa.materialCode := [];
       PlanningBoardIa.board := JNull;
       PlanningBoardIa.loadingBoard := false;
       PlanningBoardIa.error := [] |}
  = (None, {| PlanningBoardIa.materialCode := [];
              PlanningBoardIa.board := JNull;
              PlanningBoardIa.loadingBoard := false;
              PlanningBoardIa.error := [] |}).
Proof. reflexivity. Qed.

(** ** The error banner *)

Section BannerFacts.

Lemma shows_error_app (p q : list block) :
  shows_error (p ++ q) = shows_error p || shows_error q.
Proof. apply existsb_app. Qed.


Lemma guarded_no_error (v : option json) (b : block) :
  is_error_box b = false -> shows_error (guarded v b) = false.
Proof.
  intros Hb. unfold guarded.
  destruct (truthy_opt v); simpl; [by rewrite Hb|].
  by destruct v as [[]|].
Qed.


(** What a guard can put on the page: its block, or a falsy number as text. *)
Lemma guarded_in (v : option json) (b x : block) :
  In x (guarded v b) -> x = b \/ exists q, x = TextNode (JNum q).
Proof.
  unfold guarded. destruct (truthy_opt v); simpl.
  - intros [<-|[]]. by left.
  - destruct v as [[]|]; simpl; try done. intros [<-|[]]. right. by eexists.
Qed.

Lemma guarded_error_message (e : jsstring) :
  shows_error (guarded (Some (JStr e)) (ErrorBox e)) = truthy_str e.
Proof. unfold guarded. simpl. by destruct (truthy_str e). Qed.

(** The pegging page shows the error banner exactly when the error message
    is not empty. *)
Lemma pegging_banner (s : PeggingPanel.state) :
  shows_error (PeggingPanel.render s) = truthy_str (PeggingPanel.error s).
Proof.
  unfold PeggingPanel.render.
  rewrite !shows_error_app, guarded_error_message, !guarded_no_error by done.
  simpl. by rewrite !orb_false_r.
Qed.

(** So does the planning board. *)
Lemma planning_banner (s : PlanningBoardIa.state) :
  shows_error (PlanningBoardIa.render s) = truthy_str (PlanningBoardIa.error s).
Proof.
  unfold PlanningBoardIa.render.
  rewrite !shows_error_app, guarded_error_message, !guarded_no_error by done.
  simpl. by rewrite !orb_false_r.
Qed.

End BannerFacts.

(** ** The handlers up to their first [await] *)

Section TriggerFacts.
Import PeggingPanel.

Lemma pegging_click_invalid (s : state) :
  Validator.isValidMaterial (materialInput s) = false ->
  PeggingIaLite.handleLoadPegging s
  = (None, {| materialInput := materialInput s; loading := loading s;
              error := msg_invalid; result := JNull |}).
Proof.
  intros H. unfold PeggingIaLite.handleLoadPegging, bind, read.
  by rewrite isValidMaterial_trim, H.
Qed.

Lemma pegging_click_valid (s : state) :
  Validator.isValidMaterial (materialInput s) = true ->
  PeggingIaLite.handleLoadPegging s
  = (Some (trim (materialInput s)),
     {| materialInput := materialInput s; loading := true; error := []; result := JNull |}).
Proof.
  intros H. unfold PeggingIaLite.handleLoadPegging, bind, read.
  by rewrite isValidMaterial_trim, H.
Qed.

Lemma pegging_demo_click_invalid (s : state) :
  Validator.isValidMaterial (materialInput s) = false ->
  PeggingIaLiteDemo.handleLoadPegging s
  = (None, {| materialInput := materialInput s; loading := loading s;
              error := msg_invalid; result := JNull |}).
Proof.
  intros H. unfold PeggingIaLiteDemo.handleLoadPegging, bind, read.
  by rewrite isValidMaterial_trim, H.
Qed.

Lemma pegging_demo_click_valid (s : state) :
  Validator.isValidMaterial (materialInput s) = true ->
  PeggingIaLiteDemo.handleLoadPegging s
  = (Some (trim (materialInput s)),
     {| materialInput := materialInput s; loading := true; error := []; result := JNull |}).
Proof.
  intros H. unfold PeggingIaLiteDemo.handleLoadPegging, bind, read.
  by rewrite isValidMaterial_trim, H.
Qed.

Lemma planning_submit_nonblank (s : PlanningBoardIa.state) :
  trim (PlanningBoardIa.materialCode s) <> [] ->
  PlanningBoardIa.handleSubmit s
  = (Some (trim (PlanningBoardIa.materialCode s)),
     {| PlanningBoardIa.materialCode := PlanningBoardIa.materialCode s;
        PlanningBoardIa.board := PlanningBoardIa.board s;
        PlanningBoardIa.loadingBoard := true;
        PlanningBoardIa.error := [] |}).
Proof.
  intros H. unfold PlanningBoardIa.handleSubmit, PlanningBoardIa.loadBoard, bind, read.
  destruct (truthy_str (PlanningBoardIa.materialCode s)) eqn:Ht; simpl.
  - apply truthy_str_nonempty in H. by rewrite H.
  - destruct (PlanningBoardIa.materialCode s); [done|discriminate].
Qed.

Lemma planning_submit_blank (s : PlanningBoardIa.state) :
  trim (PlanningBoardIa.materialCode s) = [] ->
  PlanningBoardIa.handleSubmit s = (None, s).
Proof.
  intros H. unfold PlanningBoardIa.handleSubmit, PlanningBoardIa.loadBoard, bind, read, ret.
  destruct (truthy_str (PlanningBoardIa.materialCode s)); simpl; [|done].
  by rewrite H.
Qed.

End TriggerFacts.

(** ** C5: validation before the fetch *)

(** C5, as the code has it. In both versions of the pegging panel the
    validator runs on every click before any fetch: when it fails the panel
    sets the invalid-identifier message, which the page shows as an error
    banner, clears the result and issues no request; when it passes the
    request is issued for the trimmed code. The planning board runs no
    validator: a submit with a code that is not blank issues the request
    for the trimmed code whether or not the validator would accept it. *)
Theorem validation_gates_pegging_fetch_only :
  (forall s : PeggingPanel.state,
      Validator.isValidMaterial (PeggingPanel.materialInput s) = false ->
      forall c, In c [PeggingIaLite.panel; PeggingIaLiteDemo.panel] ->
      exists s', on_trigger c PeggingPanel.Click s = (None, s')
                 /\ PeggingPanel.error s' = PeggingPanel.msg_invalid
                 /\ PeggingPanel.result s' = JNull
                 /\ shows_error (PeggingPanel.render s') = true) /\
  (forall s : PeggingPanel.state,
      Validator.isValidMaterial (PeggingPanel.materialInput s) = true ->
      forall c, In c [PeggingIaLite.panel; PeggingIaLiteDemo.panel] ->
      exists s', on_trigger c PeggingPanel.Click s
                 = (Some (trim (PeggingPanel.materialInput s)), s')
                 /\ PeggingPanel.loading s' = true) /\
  (forall s : PlanningBoardIa.state,
      trim (PlanningBoardIa.materialCode s) <> [] ->
      exists s', on_trigger PlanningBoardIa.panel PlanningBoardIa.Submit s
                 = (Some (trim (PlanningBoardIa.materialCode s)), s')
                 /\ PlanningBoardIa.error s' = []
                 /\ shows_error (PlanningBoardIa.render s') = false).
Proof.
  split; [|split].
  - intros s Hs c [<-|[<-|[]]]; cbn [on_trigger PeggingIaLite.panel PeggingIaLiteDemo.panel].
    + rewrite pegging_click_invalid by done.
      eexists; fields. by rewrite pegging_banner.
    + rewrite pegging_demo_click_invalid by done.
      eexists; fields. by rewrite pegging_banner.
  - intros s Hs c [<-|[<-|[]]]; cbn [on_trigger PeggingIaLite.panel PeggingIaLiteDemo.panel].
    + rewrite pegging_click_valid by done. by eexists.
    + rewrite pegging_demo_click_valid by done. by eexists.
  - intros s Hs. cbn [on_trigger PlanningBoardIa.panel].
    rewrite planning_submit_nonblank by done.
    eexists; fields. by rewrite planning_banner.
Qed.

(** The code [abc_123], which the validator rejects, on each panel. *)
Lemma validation_gates_pegging_fetch_only_witness :
  (exists s', PeggingIaLite.handleLoadPegging
                {| PeggingPanel.materialInput := u "abc_123"; PeggingPanel.loading := false;
                   PeggingPanel.error := []; PeggingPanel.result := JNull |} = (None, s')
              /\ PeggingPanel.error s' = PeggingPanel.msg_invalid
              /\ PeggingPanel.result s' = JNull
              /\ shows_error (PeggingPanel.render s') = true) /\
  (exists s', PlanningBoardIa.handleSubmit
                {| PlanningBoardIa.materialCode := u "abc_123"; PlanningBoardIa.board := JNull;
                   PlanningBoardIa.loadingBoard := false; PlanningBoardIa.error := [] |}
              = (Some (u "abc_123"), s')
              /\ PlanningBoardIa.error s' = []
              /\ shows_error (PlanningBoardIa.render s') = false).
Proof.
  split.
  - apply (proj1 validation_gates_pegging_fetch_only
             {| PeggingPanel.materialInput := u "abc_123"; PeggingPanel.loading := false;
                PeggingPanel.error := []; PeggingPanel.result := JNull |}
             eq_refl PeggingIaLite.panel).
    simpl. auto.
  - apply (proj2 (proj2 validation_gates_pegging_fetch_only)
             {| PlanningBoardIa.materialCode := u "abc_123"; PlanningBoardIa.board := JNull;
                PlanningBoardIa.loadingBoard := false; PlanningBoardIa.error := [] |}).
    vm_compute. discriminate.
Defined.

(** C5 as the specification words it fails on the planning board: the
    validator rejects [abc_123], yet a submit issues the request for it and
    raises no error; and a blank code raises no error either. *)
Lemma planning_board_fetches_unvalidated_code :
  Validator.isValidMaterial (u "abc_123") = false /\
  PlanningBoardIa.handleSubmit
    {| PlanningBoardIa.materialCode := u "abc_123"; PlanningBoardIa.board := JNull;
       PlanningBoardIa.loadingBoard := false; PlanningBoardIa.error := [] |}
  = (Some (u "abc_123"),
     {| PlanningBoardIa.materialCode := u "abc_123"; PlanningBoardIa.board := JNull;
        PlanningBoardIa.loadingBoard := true; PlanningBoardIa.error := [] |}) /\
  Validator.isValidMaterial (u "  ") = false /\
  PlanningBoardIa.handleSubmit
    {| PlanningBoardIa.materialCode := u "  "; PlanningBoardIa.board := JNull;
       PlanningBoardIa.loadingBoard := false; PlanningBoardIa.error := [] |}
  = (None,
     {| PlanningBoardIa.materialCode := u "  "; PlanningBoardIa.board := JNull;
        PlanningBoardIa.loadingBoard := false; PlanningBoardIa.error := [] |}).
Proof. repeat split. Qed.

(** ** C6: what a trigger resets *)

Section ResetFacts.

Lemma pegging_loading_page (s : PeggingPanel.state) :
  PeggingPanel.loading s = true -> PeggingPanel.error s = [] ->
  PeggingPanel.result s = JNull ->
  PeggingPanel.render s = [SubmitButton true; LoadingBox].
Proof.
  destruct s as [m l e r]; simpl; intros -> -> ->. reflexivity.
Qed.

Lemma planning_loading_hides_board (s : PlanningBoardIa.state) (b : json) :
  PlanningBoardIa.loadingBoard s = true ->
  ~ In (BoardView b) (PlanningBoardIa.render s).
Proof.
  destruct s as [m bd l e]; simpl; intros ->.
  unfold PlanningBoardIa.render, guarded, js_and; simpl.
  destruct (truthy bd) eqn:Hb; simpl.
  - destruct (truthy_str e); simpl; intuition congruence.
  - rewrite Hb. destruct bd, (truthy_str e); simpl; intuition congruence.
Qed.

End ResetFacts.

(** C6, as the code has it. A click on either version of the pegging panel
    with a valid code sets the loading flag and clears both the error
    message and the result before the request is issued, so the page shows
    the loading box alone; with an invalid code it sets the error message and
    clears the result. A submit on the planning board with a code that is
    not blank sets the loading flag and clears the error message, and keeps
    the board loaded before in the state, where the render does not draw it
    while loading; with a blank code it changes nothing. The capacity and
    insights effects set the loading flag and clear the error message and
    keep their data; the overview effect sets nothing. *)
Theorem trigger_resets :
  (forall s : PeggingPanel.state,
      Validator.isValidMaterial (PeggingPanel.materialInput s) = true ->
      forall c, In c [PeggingIaLite.panel; PeggingIaLiteDemo.panel] ->
      exists s', on_trigger c PeggingPanel.Click s
                 = (Some (trim (PeggingPanel.materialInput s)), s')
                 /\ PeggingPanel.loading s' = true
                 /\ PeggingPanel.error s' = []
                 /\ PeggingPanel.result s' = JNull
                 /\ PeggingPanel.render s' = [SubmitButton true; LoadingBox]) /\
  (forall s : PeggingPanel.state,
      Validator.isValidMaterial (PeggingPanel.materialInput s) = false ->
      forall c, In c [PeggingIaLite.panel; PeggingIaLiteDemo.panel] ->
      exists s', on_trigger c PeggingPanel.Click s = (None, s')
                 /\ PeggingPanel.loading s' = PeggingPanel.loading s
                 /\ PeggingPanel.error s' = PeggingPanel.msg_invalid
                 /\ PeggingPanel.result s' = JNull) /\
  (forall s : PlanningBoardIa.state,
      trim (PlanningBoardIa.materialCode s) <> [] ->
      exists s', on_trigger PlanningBoardIa.panel PlanningBoardIa.Submit s
                 = (Some (trim (PlanningBoardIa.materialCode s)), s')
                 /\ PlanningBoardIa.loadingBoard s' = true
                 /\ PlanningBoardIa.error s' = []
                 /\ PlanningBoardIa.board s' = PlanningBoardIa.board s
                 /\ forall b, ~ In (BoardView b) (PlanningBoardIa.render s')) /\
  (forall s : PlanningBoardIa.state,
      trim (PlanningBoardIa.materialCode s) = [] ->
      on_trigger PlanningBoardIa.panel PlanningBoardIa.Submit s = (None, s)) /\
  (forall s : CapacityIa.state,
      CapacityIa.fetchCapacity s
      = (Some tt, {| CapacityIa.data := CapacityIa.data s;
                     CapacityIa.loading := true;
                     CapacityIa.error := [] |})) /\
  (forall (s : IaInsightsPanel.state) (filterTipo : option jsstring),
      IaInsightsPanel.fetchInsights filterTipo s
      = (Some filterTipo, {| IaInsightsPanel.insights := IaInsightsPanel.insights s;
                             IaInsightsPanel.loading := true;
                             IaInsightsPanel.error := None |})) /\
  (forall s : App.state, App.fetchData s = (Some tt, s)).
Proof.
  split_and!.
  - intros s Hs c [<-|[<-|[]]]; cbn [on_trigger PeggingIaLite.panel PeggingIaLiteDemo.panel].
    + rewrite pegging_click_valid by done. eexists; fields. by apply pegging_loading_page.
    + rewrite pegging_demo_click_valid by done. eexists; fields. by apply pegging_loading_page.
  - intros s Hs c [<-|[<-|[]]]; cbn [on_trigger PeggingIaLite.panel PeggingIaLiteDemo.panel].
    + rewrite pegging_click_invalid by done. by eexists.
    + rewrite pegging_demo_click_invalid by done. by eexists.
  - intros s Hs. cbn [on_trigger PlanningBoardIa.panel].
    rewrite planning_submit_nonblank by done. eexists; fields.
    intros b. by apply planning_loading_hides_board.
  - intros s Hs. cbn [on_trigger PlanningBoardIa.panel]. by apply planning_submit_blank.
  - reflexivity.
  - reflexivity.
  - reflexivity.
Qed.

(** A board is on the page and a code is submitted again. *)
Lemma trigger_resets_witness :
  exists s', PlanningBoardIa.handleSubmit
               {| PlanningBoardIa.materialCode := u "4011835-AA";
                  PlanningBoardIa.board := JObj [(u "material", JStr (u "OLD-1"))];
                  PlanningBoardIa.loadingBoard := false;
                  PlanningBoardIa.error := [] |}
             = (Some (u "4011835-AA"), s')
             /\ PlanningBoardIa.loadingBoard s' = true
             /\ PlanningBoardIa.error s' = []
             /\ PlanningBoardIa.board s' = JObj [(u "material", JStr (u "OLD-1"))]
             /\ forall b, ~ In (BoardView b) (PlanningBoardIa.render s').
Proof.
  apply (proj1 (proj2 (proj2 trigger_resets))
           {| PlanningBoardIa.materialCode := u "4011835-AA";
              PlanningBoardIa.board := JObj [(u "material", JStr (u "OLD-1"))];
              PlanningBoardIa.loadingBoard := false;
              PlanningBoardIa.error := [] |}).
  vm_compute. discriminate.
Defined.

(** C6 as the specification words it fails on the planning board: a submit
    leaves the board loaded before in the state, and a submit of a blank code
    moves the panel neither to loading nor to an error and keeps the error
    message it had. *)
Lemma planning_board_keeps_prior_state :
  PlanningBoardIa.handleSubmit
    {| PlanningBoardIa.materialCode := u "4011835-AA";
       PlanningBoardIa.board := JObj [(u "material", JStr (u "OLD-1"))];
       PlanningBoardIa.loadingBoard := false;
       PlanningBoardIa.error := [] |}
  = (Some (u "4011835-AA"),
     {| PlanningBoardIa.materialCode := u "4011835-AA";
        PlanningBoardIa.board := JObj [(u "material", JStr (u "OLD-1"))];
        PlanningBoardIa.loadingBoard := true;
        PlanningBoardIa.error := [] |}) /\
  PlanningBoardIa.handleSubmit
    {| PlanningBoardIa.materialCode := u "  ";
       PlanningBoardIa.board := JNull;
       PlanningBoardIa.loadingBoard := false;
       PlanningBoardIa.error := PlanningBoardIa.msg_failed |}
  = (None,
     {| PlanningBoardIa.materialCode := u "  ";
        PlanningBoardIa.board := JNull;
        PlanningBoardIa.loadingBoard := false;
        PlanningBoardIa.error := PlanningBoardIa.msg_failed |}).
Proof. split; reflexivity. Qed.

(** ** The event loop *)

Section AsyncFacts.
Context {S E T : Type} (c : controller S E T).

Lemma run_app (w : world S E) (evs1 evs2 : list (event T)) :
  run c w (evs1 ++ evs2)
  = match run c w evs1 with
    | Some w' => run c w' evs2
    | None => None
    end.
Proof.
  revert w; induction evs1 as [|ev evs1 IH]; intros w; simpl; [done|].
  destruct (step c w ev); auto.
Qed.

Lemma step_issue (w : world S E) (t : T) (e : E) (s' : S) :
  enabled c t (ui w) = true -> on_trigger c t (ui w) = (Some e, s') ->
  step c w (Trigger t)
  = Some {| ui := s';
            tasks := <[issued w := {| closure := e; waits := AwaitFetch |}]> (tasks w);
            issued := Datatypes.S (issued w) |}.
Proof. intros He Ht. simpl. by rewrite He, Ht. Qed.

Lemma step_quiet (w : world S E) (t : T) (s' : S) :
  enabled c t (ui w) = true -> on_trigger c t (ui w) = (None, s') ->
  step c w (Trigger t) = Some {| ui := s'; tasks := tasks w; issued := issued w |}.
Proof. intros He Ht. simpl. by rewrite He, Ht. Qed.

Lemma step_fetch_more (w : world S E) (id : nat) (e : E) (r : fetch_settled) (s' : S) :
  tasks w !! id = Some {| closure := e; waits := AwaitFetch |} ->
  on_fetch c e r (ui w) = (true, s') ->
  step c w (FetchSettles id r)
  = Some {| ui := s';
            tasks := <[id := {| closure := e; waits := AwaitJson |}]> (tasks w);
            issued := issued w |}.
Proof. intros Hid Hf. simpl. by rewrite Hid, Hf. Qed.

Lemma step_fetch_done (w : world S E) (id : nat) (e : E) (r : fetch_settled) (s' : S) :
  tasks w !! id = Some {| closure := e; waits := AwaitFetch |} ->
  on_fetch c e r (ui w) = (false, s') ->
  step c w (FetchSettles id r)
  = Some {| ui := s'; tasks := delete id (tasks w); issued := issued w |}.
Proof. intros Hid Hf. simpl. by rewrite Hid, Hf. Qed.

Lemma step_json (w : world S E) (id : nat) (e : E) (r : json_settled) :
  tasks w !! id = Some {| closure := e; waits := AwaitJson |} ->
  step c w (JsonSettles id r)
  = Some {| ui := exec (on_json c e r) (ui w);
            tasks := delete id (tasks w);
            issued := issued w |}.
Proof. intros Hid. simpl. by rewrite Hid. Qed.

Lemma run_fails (w : world S E) (id : nat) (e : E) (f : Spec.failure) (s' : S) :
  tasks w !! id = Some {| closure := e; waits := AwaitFetch |} ->
  Spec.after_failure c e f (ui w) = Some s' ->
  run c w (Spec.fails id f)
  = Some {| ui := s'; tasks := delete id (tasks w); issued := issued w |}.
Proof.
  intros Hid Hf. destruct f as [m|st|st m]; simpl in *; rewrite Hid.
  - destruct (on_fetch c e (FetchRejected m) (ui w)) as [[] s1]; by simplify_eq.
  - destruct (on_fetch c e (Responded false st) (ui w)) as [[] s1]; by simplify_eq.
  - destruct (on_fetch c e (Responded true st) (ui w)) as [[] s1]; simplify_eq.
    simpl. rewrite lookup_insert_eq. simpl. by rewrite delete_insert_eq.
Qed.


(** One trigger on a quiet panel, and the request it issues fails. *)
Lemma run_one_failure (s : S) (t : T) (e : E) (s1 s2 : S) (f : Spec.failure) :
  enabled c t s = true -> on_trigger c t s = (Some e, s1) ->
  Spec.after_failure c e f s1 = Some s2 ->
  run c (start s) (Trigger t :: Spec.fails 0 f)
  = Some {| ui := s2; tasks := ∅; issued := 1 |}.
Proof.
  intros He Ht Hf.
  change (run c (start s) (Trigger t :: Spec.fails 0 f))
    with (match step c (start s) (Trigger t) with
          | Some w' => run c w' (Spec.fails 0 f)
          | None => None
          end).
  erewrite step_issue by done.
  erewrite run_fails; [|apply lookup_insert_eq|exact Hf].
  simpl. by rewrite delete_insert_eq, delete_empty.
Qed.


End AsyncFacts.

(** ** C8: one pegging request at a time *)

Section ButtonFacts.
Import PeggingPanel Spec.

Lemma pegging_follows_loading : follows_loading PeggingIaLite.panel.
Proof.
  unfold follows_loading. split_and!.
  - intros [|v] s e s'; simpl; [|discriminate].
    unfold PeggingIaLite.handleLoadPegging, bind, read.
    destruct (Validator.isValidMaterial _); simpl; intros [= <- <-]; done.
  - intros [|v] s s'; simpl; [|by intros [= <-]].
    unfold PeggingIaLite.handleLoadPegging, bind, read.
    destruct (Validator.isValidMaterial _); simpl; intros [= <-]; done.
  - intros e [m|[] st] s s'; simpl; intros [= <-]; done.
  - intros e [m|[] st] s s'; simpl; intros [= <-]; done.
  - intros e [m|j] s; reflexivity.
  - reflexivity.
  - reflexivity.
Qed.

Lemma pegging_demo_follows_loading : follows_loading PeggingIaLiteDemo.panel.
Proof.
  unfold follows_loading. split_and!.
  - intros [|v] s e s'; simpl; [|discriminate].
    unfold PeggingIaLiteDemo.handleLoadPegging, bind, read.
    destruct (Validator.isValidMaterial _); simpl; intros [= <- <-]; done.
  - intros [|v] s s'; simpl; [|by intros [= <-]].
    unfold PeggingIaLiteDemo.handleLoadPegging, bind, read.
    destruct (Validator.isValidMaterial _); simpl; intros [= <-]; done.
  - intros e [m|[] st] s s'; simpl; unfold PeggingIaLiteDemo.catch_block;
      repeat (destruct (truthy _); simpl); intros [= <-]; done.
  - intros e [m|[] st] s s'; simpl; unfold PeggingIaLiteDemo.catch_block;
      repeat (destruct (truthy _); simpl); intros [= <-]; done.
  - intros e [m|j] s; simpl; unfold PeggingIaLiteDemo.catch_block;
      repeat (destruct (truthy _); simpl); reflexivity.
  - reflexivity.
  - reflexivity.
Qed.

Lemma one_at_a_time_step (c : controller state jsstring trigger)
    (w w' : world state jsstring) (ev : event trigger) :
  follows_loading c -> one_at_a_time w -> step c w ev = Some w' -> one_at_a_time w'.
Proof.
  intros (Hissue & Hquiet & Hmore & Hdone & Hjson & Htype & Hen) Hinv Hstep.
  destruct w as [s ts n]. unfold one_at_a_time in *. simpl in *.
  destruct ev as [t|id r|id r]; simpl in Hstep.
  - destruct (Async.enabled c t s) eqn:He; [|discriminate].
    rewrite Hen in He.
    destruct (on_trigger c t s) as [[e|] s'] eqn:Ht; injection Hstep as <-; simpl.
    + left. split; [by eapply Hissue|].
      destruct Hinv as [[Hl Hs]|[Hl ->]].
      * destruct t as [|v]; simpl in He; [by rewrite Hl in He|].
        specialize (Htype v s). by rewrite Ht in Htype.
      * by rewrite insert_empty, map_size_singleton.
    + apply Hquiet in Ht. rewrite Ht. done.
  - destruct (ts !! id) as [[e []]|] eqn:Hid; try discriminate.
    assert (ts <> ∅) as Hne by (intros ->; by rewrite lookup_empty in Hid).
    destruct Hinv as [[Hl Hs]|[_ ?]]; [|done].
    destruct (on_fetch c e r s) as [[] s'] eqn:Hf; injection Hstep as <-; simpl.
    + left. rewrite (Hmore _ _ _ _ Hf). split; [done|].
      by rewrite map_size_insert_Some.
    + right. split; [by eapply Hdone|].
      apply map_size_empty_inv. rewrite map_size_delete_Some by done. lia.
  - destruct (ts !! id) as [[e []]|] eqn:Hid; try discriminate.
    assert (ts <> ∅) as Hne by (intros ->; by rewrite lookup_empty in Hid).
    destruct Hinv as [[Hl Hs]|[_ ?]]; [|done].
    injection Hstep as <-; simpl.
    right. split; [apply Hjson|].
    apply map_size_empty_inv. rewrite map_size_delete_Some by done. lia.
Qed.

End ButtonFacts.

Section OneRequest.
Import PeggingPanel Spec.

Lemma reachable_one_at_a_time (c : controller state jsstring trigger)
    (s0 : state) (w : world state jsstring) :
  follows_loading c -> loading s0 = false -> reachable c s0 w -> one_at_a_time w.
Proof.
  intros Hc Hs0. induction 1 as [|w ev w' _ IH Hstep].
  - right. by split.
  - by eapply one_at_a_time_step.
Qed.

Lemma pegging_button_disabled (s : state) :
  In (SubmitButton (loading s)) (render s).
Proof. unfold render. simpl. by left. Qed.

End OneRequest.

(** C8. In both versions of the pegging panel, started with the loading
    flag down: at most one request is in flight in every state the panel can
    reach; while one is in flight the loading flag is up; and while the
    loading flag is up the button is rendered disabled and a click is not
    delivered, so no second request can be issued from the panel until the
    first has settled. *)
Theorem pegging_one_request_at_a_time
    (c : controller PeggingPanel.state jsstring PeggingPanel.trigger)
    (s0 : PeggingPanel.state) (w : world PeggingPanel.state jsstring) :
  In c [PeggingIaLite.panel; PeggingIaLiteDemo.panel] ->
  PeggingPanel.loading s0 = false ->
  reachable c s0 w ->
  (in_flight w <= 1)%nat /\
  (in_flight w = 1%nat -> PeggingPanel.loading (ui w) = true) /\
  (PeggingPanel.loading (ui w) = true ->
     In (SubmitButton true) (PeggingPanel.render (ui w)) /\
     step c w (Trigger PeggingPanel.Click) = None).
Proof.
  intros Hc Hs0 Hw.
  assert (Spec.follows_loading c) as Hf.
  { destruct Hc as [<-|[<-|[]]];
      [apply pegging_follows_loading|apply pegging_demo_follows_loading]. }
  pose proof (reachable_one_at_a_time c s0 w Hf Hs0 Hw) as Hinv.
  unfold in_flight. split_and!.
  - destruct Hinv as [[_ ->]|[_ ->]]; [lia|]. rewrite map_size_empty. lia.
  - intros Hone. destruct Hinv as [[Hl _]|[_ He]]; [done|].
    rewrite He, map_size_empty in Hone. discriminate.
  - intros Hl. split.
    + rewrite <- Hl. apply pegging_button_disabled.
    + destruct Hf as (_ & _ & _ & _ & _ & _ & Hen).
      simpl. by rewrite Hen; simpl; rewrite Hl.
Qed.

(** The panel after one click on the default code. *)
Lemma pegging_one_request_at_a_time_witness :
  let w := {| ui := {| PeggingPanel.materialInput := u "4011835-AA";
                       PeggingPanel.loading := true;
                       PeggingPanel.error := [];
                       PeggingPanel.result := JNull |};
              tasks := <[0%nat := {| closure := u "4011835-AA"; waits := AwaitFetch |}]> ∅;
              issued := 1 |} in
  reachable PeggingIaLite.panel PeggingPanel.initial w /\
  in_flight w = 1%nat /\
  ((in_flight w <= 1)%nat /\
   (in_flight w = 1%nat -> PeggingPanel.loading (ui w) = true) /\
   (PeggingPanel.loading (ui w) = true ->
      In (SubmitButton true) (PeggingPanel.render (ui w)) /\
      step PeggingIaLite.panel w (Trigger PeggingPanel.Click) = None)).
Proof.
  assert (reachable PeggingIaLite.panel PeggingPanel.initial
            {| ui := {| PeggingPanel.materialInput := u "4011835-AA";
                        PeggingPanel.loading := true;
                        PeggingPanel.error := [];
                        PeggingPanel.result := JNull |};
               tasks := <[0%nat := {| closure := u "4011835-AA"; waits := AwaitFetch |}]> ∅;
               issued := 1 |}) as Hr.
  { apply (reach_step _ _ (start PeggingPanel.initial) (Trigger PeggingPanel.Click)).
    - apply reach_start.
    - reflexivity. }
  split; [exact Hr|]. split; [reflexivity|].
  apply (pegging_one_request_at_a_time PeggingIaLite.panel PeggingPanel.initial).
  - simpl. auto.
  - reflexivity.
  - exact Hr.
Defined.

(** ** C1: requests that overlap *)

Section OverlapFacts.
Import PlanningBoardIa Spec.

(** A request of the planning board that ends is applied to the state,
    whichever request it is and whatever else is in flight. *)
Lemma planning_settles (w : world state jsstring) (id : nat) (e : jsstring) (o : outcome) :
  tasks w !! id = Some {| closure := e; waits := AwaitFetch |} ->
  run panel w (settles id o)
  = Some {| ui := planning_applies o (ui w);
            tasks := delete id (tasks w);
            issued := issued w |}.
Proof.
  intros Hid. destruct w as [s ts n]. simpl in Hid.
  destruct o as [st j|[m|st|st m]]; simpl; rewrite Hid; simpl; try done.
  - rewrite lookup_insert_eq. simpl. by rewrite delete_insert_eq.
  - rewrite lookup_insert_eq. simpl. by rewrite delete_insert_eq.
Qed.

Lemma planning_type_and_submit (w : world state jsstring) (code : jsstring)
    (evs : list (event trigger)) :
  trim code <> [] ->
  run panel w (Trigger (Input code) :: Trigger Submit :: evs)
  = run panel
      {| ui := {| materialCode := code; board := board (ui w);
                  loadingBoard := true; error := [] |};
         tasks := <[issued w := {| closure := trim code; waits := AwaitFetch |}]> (tasks w);
         issued := Datatypes.S (issued w) |}
      evs.
Proof.
  intros Hc. destruct w as [s ts n].
  change (run panel {| ui := s; tasks := ts; issued := n |}
            (Trigger (Input code) :: Trigger Submit :: evs))
    with (match step panel
                  {| ui := exec (setMaterialCode code) s; tasks := ts; issued := n |}
                  (Trigger Submit) with
          | Some w' => run panel w' evs
          | None => None
          end).
  erewrite step_issue; [reflexivity|reflexivity|].
  simpl. by rewrite planning_submit_nonblank.
Qed.

End OverlapFacts.

(** C1, as the code has it. The planning board keeps no identity of its
    requests: what a request brings is written to the state when it arrives.
    With two requests issued one after the other and both in flight, the state
    after both have ended is what the one that arrived last wrote over what
    the other wrote, in either order of arrival; the order of issue plays no
    part. *)
Theorem planning_last_arrival_wins (s : PlanningBoardIa.state) (a b : jsstring)
    (oa ob : Spec.outcome) :
  trim a <> [] -> trim b <> [] ->
  let triggers := [Trigger (PlanningBoardIa.Input a); Trigger PlanningBoardIa.Submit;
                   Trigger (PlanningBoardIa.Input b); Trigger PlanningBoardIa.Submit] in
  let loading := {| PlanningBoardIa.materialCode := b;
                    PlanningBoardIa.board := PlanningBoardIa.board s;
                    PlanningBoardIa.loadingBoard := true;
                    PlanningBoardIa.error := [] |} in
  (exists w, run PlanningBoardIa.panel (start s)
               (triggers ++ Spec.settles 1 ob ++ Spec.settles 0 oa) = Some w
             /\ ui w = Spec.planning_applies oa (Spec.planning_applies ob loading)
             /\ in_flight w = 0%nat) /\
  (exists w, run PlanningBoardIa.panel (start s)
               (triggers ++ Spec.settles 0 oa ++ Spec.settles 1 ob) = Some w
             /\ ui w = Spec.planning_applies ob (Spec.planning_applies oa loading)
             /\ in_flight w = 0%nat).
Proof.
  intros Ha Hb triggers loading. subst triggers loading.
  split.
  - cbn [app]. rewrite !planning_type_and_submit by done. cbn [ui tasks issued start].
    rewrite run_app.
    erewrite planning_settles by apply lookup_insert_eq.
    erewrite planning_settles
      by (cbn [tasks]; rewrite lookup_delete_ne, lookup_insert_ne by done;
          apply lookup_insert_eq).
    eexists; fields. reflexivity.
  - cbn [app]. rewrite !planning_type_and_submit by done. cbn [ui tasks issued start].
    rewrite run_app.
    erewrite planning_settles
      by (cbn [tasks]; rewrite lookup_insert_ne by done; apply lookup_insert_eq).
    erewrite planning_settles
      by (cbn [tasks]; rewrite lookup_delete_ne by done; apply lookup_insert_eq).
    eexists; fields. reflexivity.
Qed.

(** Two codes typed and submitted in a row; both requests succeed, the
    second first. *)
Lemma planning_last_arrival_wins_witness :
  let triggers := [Trigger (PlanningBoardIa.Input (u "A-1")); Trigger PlanningBoardIa.Submit;
                   Trigger (PlanningBoardIa.Input (u "B-2")); Trigger PlanningBoardIa.Submit] in
  let oa := Spec.Succeeds 200 (JObj [(u "material", JStr (u "A-1"))]) in
  let ob := Spec.Succeeds 200 (JObj [(u "material", JStr (u "B-2"))]) in
  let loading := {| PlanningBoardIa.materialCode := u "B-2";
                    PlanningBoardIa.board := JNull;
                    PlanningBoardIa.loadingBoard := true;
                    PlanningBoardIa.error := [] |} in
  (exists w, run PlanningBoardIa.panel (start PlanningBoardIa.initial)
               (triggers ++ Spec.settles 1 ob ++ Spec.settles 0 oa) = Some w
             /\ ui w = Spec.planning_applies oa (Spec.planning_applies ob loading)
             /\ in_flight w = 0%nat) /\
  (exists w, run PlanningBoardIa.panel (start PlanningBoardIa.initial)
               (triggers ++ Spec.settles 0 oa ++ Spec.settles 1 ob) = Some w
             /\ ui w = Spec.planning_applies ob (Spec.planning_applies oa loading)
             /\ in_flight w = 0%nat).
Proof.
  apply (planning_last_arrival_wins PlanningBoardIa.initial (u "A-1") (u "B-2")
           (Spec.Succeeds 200 (JObj [(u "material", JStr (u "A-1"))]))
           (Spec.Succeeds 200 (JObj [(u "material", JStr (u "B-2"))]))).
  - vm_compute. discriminate.
  - vm_compute. discriminate.
Defined.

(** C1 as the specification words it fails on the planning board. Request 0
    is issued for [A-1], then request 1 for [B-2] while request 0 is in
    flight. When request 1 ends first and request 0 after it, the board is
    the body of request 0, the superseded one. When request 0 fails first
    and request 1 succeeds after it, the page shows the board of request 1
    under the error banner of request 0. When request 0 ends first, the
    loading flag drops and its board is drawn while request 1 is in flight. *)
Lemma stale_planning_result_is_applied :
  let triggers := [Trigger (PlanningBoardIa.Input (u "A-1")); Trigger PlanningBoardIa.Submit;
                   Trigger (PlanningBoardIa.Input (u "B-2")); Trigger PlanningBoardIa.Submit] in
  let pA := JObj [(u "material", JStr (u "A-1"))] in
  let pB := JObj [(u "material", JStr (u "B-2"))] in
  (exists w, run PlanningBoardIa.panel (start PlanningBoardIa.initial)
               (triggers ++ Spec.succeeds 1 200 pB ++ Spec.succeeds 0 200 pA) = Some w
             /\ in_flight w = 0%nat
             /\ ui w = {| PlanningBoardIa.materialCode := u "B-2";
                          PlanningBoardIa.board := pA;
                          PlanningBoardIa.loadingBoard := false;
                          PlanningBoardIa.error := [] |}
             /\ In (BoardView pA) (PlanningBoardIa.render (ui w))) /\
  (exists w, run PlanningBoardIa.panel (start PlanningBoardIa.initial)
               (triggers ++ Spec.fails 0 (Spec.BadStatus 500) ++ Spec.succeeds 1 200 pB) = Some w
             /\ in_flight w = 0%nat
             /\ ui w = {| PlanningBoardIa.materialCode := u "B-2";
                          PlanningBoardIa.board := pB;
                          PlanningBoardIa.loadingBoard := false;
                          PlanningBoardIa.error := PlanningBoardIa.msg_failed |}
             /\ shows_error (PlanningBoardIa.render (ui w)) = true) /\
  (exists w, run PlanningBoardIa.panel (start PlanningBoardIa.initial)
               (triggers ++ Spec.succeeds 0 200 pA) = Some w
             /\ in_flight w = 1%nat
             /\ ui w = {| PlanningBoardIa.materialCode := u "B-2";
                          PlanningBoardIa.board := pA;
                          PlanningBoardIa.loadingBoard := false;
                          PlanningBoardIa.error := [] |}
             /\ In (BoardView pA) (PlanningBoardIa.render (ui w))).
Proof.
  split_and!; (eexists; split; [vm_compute; reflexivity|]); vm_compute; intuition.
Qed.

(** ** C2: a request that fails *)

Section FailureFacts.
Import Spec.

Lemma buildDemoResult_trim (code : jsstring) :
  PeggingIaLiteDemo.buildDemoResult (trim code) = PeggingIaLiteDemo.buildDemoResult code.
Proof.
  unfold PeggingIaLiteDemo.buildDemoResult. by rewrite !or_str_empty, trim_idempotent.
Qed.

Lemma buildDemoResult_object (code : jsstring) :
  trim code <> [] -> is_object (PeggingIaLiteDemo.buildDemoResult code).
Proof.
  intros Hc. destruct (decide (trim code = PeggingPanel.DEFAULT_MATERIAL)) as [He|Hne].
  - unfold PeggingIaLiteDemo.buildDemoResult. rewrite or_str_empty.
    apply truthy_str_nonempty in Hc. rewrite Hc. cbn [negb].
    by rewrite decide_True.
  - rewrite buildDemoResult_other by done. apply with_prop_is_object.
Qed.

Lemma object_truthy (v : json) : is_object v -> truthy v = true.
Proof. by destruct v. Qed.

Lemma pegging_summary_shown (s : PeggingPanel.state) :
  PeggingPanel.loading s = false -> PeggingPanel.error s = [] ->
  is_object (PeggingPanel.result s) ->
  In (SummaryCards (PeggingPanel.result s)) (PeggingPanel.render s).
Proof.
  destruct s as [m l e r]; simpl; intros -> -> Hr.
  destruct r; try done. unfold PeggingPanel.render; simpl. auto.
Qed.

Lemma insights_banner (s : IaInsightsPanel.state) :
  shows_error (IaInsightsPanel.render s)
  = truthy_str (default [] (IaInsightsPanel.error s)).
Proof.
  unfold IaInsightsPanel.render.
  rewrite !shows_error_app, !guarded_no_error by done.
  destruct (IaInsightsPanel.error s) as [e|]; simpl; [|done].
  rewrite guarded_error_message. by rewrite orb_false_r.
Qed.

Lemma app_banner (s : App.state) :
  shows_error (App.render s) = truthy_str (App.error s).
Proof.
  unfold App.render, App.data_tab, App.panel_tab.
  rewrite !shows_error_app, guarded_error_message, !guarded_no_error by done.
  simpl. by rewrite !orb_false_r.
Qed.

Lemma or_str_nonempty (a b : jsstring) : b <> [] -> or_str a b <> [].
Proof. destruct a; simpl; [done|discriminate]. Qed.

(** The demo version of the pegging panel: every failure ends with the
    demo record as the result. *)
Lemma pegging_demo_after_failure (code : jsstring) (f : failure) (s : PeggingPanel.state) :
  trim code <> [] -> PeggingPanel.error s = [] ->
  after_failure PeggingIaLiteDemo.panel code f s
  = Some {| PeggingPanel.materialInput := PeggingPanel.materialInput s;
            PeggingPanel.loading := false;
            PeggingPanel.error := [];
            PeggingPanel.result := PeggingIaLiteDemo.buildDemoResult code |}.
Proof.
  intros Hc He.
  pose proof (object_truthy _ (buildDemoResult_object code Hc)) as Ht.
  destruct s as [m l e r]; simpl in He; subst e.
  destruct f as [msg|st|st msg]; simpl;
    unfold PeggingIaLiteDemo.catch_block; rewrite Ht; reflexivity.
Qed.

Lemma pegging_after_failure (code : jsstring) (f : failure) (s : PeggingPanel.state) :
  after_failure PeggingIaLite.panel code f s
  = Some {| PeggingPanel.materialInput := PeggingPanel.materialInput s;
            PeggingPanel.loading := false;
            PeggingPanel.error := PeggingPanel.msg_failed;
            PeggingPanel.result := PeggingPanel.result s |}.
Proof. by destruct f. Qed.

Lemma planning_after_failure (code : jsstring) (f : failure) (s : PlanningBoardIa.state) :
  after_failure PlanningBoardIa.panel code f s = Some (planning_applies (Fails f) s).
Proof. by destruct f. Qed.

Lemma capacity_after_failure (f : failure) (s : CapacityIa.state) :
  after_failure CapacityIa.panel tt f s
  = Some {| CapacityIa.data := JNull; CapacityIa.loading := false;
            CapacityIa.error := CapacityIa.msg_failed |}.
Proof. by destruct f. Qed.

Lemma insights_after_failure (tem : jsstring) (ft : option jsstring) (f : failure)
    (s : IaInsightsPanel.state) :
  exists m, m <> [] /\
    after_failure (IaInsightsPanel.panel tem) ft f s
    = Some {| IaInsightsPanel.insights := IaInsightsPanel.insights s;
              IaInsightsPanel.loading := false;
              IaInsightsPanel.error := Some m |}.
Proof.
  destruct f as [msg|st|st msg]; simpl.
  - exists (or_str msg IaInsightsPanel.msg_default). split; [by apply or_str_nonempty|done].
  - exists (or_str (IaInsightsPanel.msg_status st) IaInsightsPanel.msg_default).
    split; [by apply or_str_nonempty|done].
  - exists (or_str msg IaInsightsPanel.msg_default). split; [by apply or_str_nonempty|done].
Qed.

Lemma app_after_failure (f : failure) (s : App.state) :
  after_failure App.panel tt f s
  = Some {| App.data := App.data s; App.loading := false;
            App.error := App.msg_failed; App.activeTab := App.activeTab s |}.
Proof. by destruct f. Qed.

End FailureFacts.

(** C2, as the code has it. Let the one request of a panel fail: the fetch
    rejects, the status is not ok, or the body does not parse. The pegging
    panel that has the demo provider, started with a valid code, ends with
    the demo record for that code as its result, no error message and no
    error banner, and shows the summary of the demo record. The pegging
    panel of [frontend/src/PeggingIaLite.js], which has no demo provider,
    ends with its error message and no result. The planning board and the
    capacity panel end with their error message and no payload; the insights
    panel and the overview end with an error message and the data they had;
    each of them shows the error banner. *)
Theorem failure_outcome_per_panel (f : Spec.failure) :
  (forall s : PeggingPanel.state,
      Validator.isValidMaterial (PeggingPanel.materialInput s) = true ->
      PeggingPanel.loading s = false ->
      exists w, run PeggingIaLiteDemo.panel (start s)
                  (Trigger PeggingPanel.Click :: Spec.fails 0 f) = Some w
                /\ in_flight w = 0%nat
                /\ PeggingPanel.result (ui w)
                   = PeggingIaLiteDemo.buildDemoResult (PeggingPanel.materialInput s)
                /\ Spec.is_object (PeggingPanel.result (ui w))
                /\ PeggingPanel.error (ui w) = []
                /\ PeggingPanel.loading (ui w) = false
                /\ shows_error (PeggingPanel.render (ui w)) = false
                /\ In (SummaryCards (PeggingPanel.result (ui w)))
                      (PeggingPanel.render (ui w))) /\
  (forall s : PeggingPanel.state,
      Validator.isValidMaterial (PeggingPanel.materialInput s) = true ->
      PeggingPanel.loading s = false ->
      exists w, run PeggingIaLite.panel (start s)
                  (Trigger PeggingPanel.Click :: Spec.fails 0 f) = Some w
                /\ in_flight w = 0%nat
                /\ PeggingPanel.result (ui w) = JNull
                /\ PeggingPanel.error (ui w) = PeggingPanel.msg_failed
                /\ PeggingPanel.loading (ui w) = false
                /\ shows_error (PeggingPanel.render (ui w)) = true) /\
  (forall s : PlanningBoardIa.state,
      trim (PlanningBoardIa.materialCode s) <> [] ->
      exists w, run PlanningBoardIa.panel (start s)
                  (Trigger PlanningBoardIa.Submit :: Spec.fails 0 f) = Some w
                /\ in_flight w = 0%nat
                /\ PlanningBoardIa.board (ui w) = JNull
                /\ PlanningBoardIa.error (ui w) = PlanningBoardIa.msg_failed
                /\ PlanningBoardIa.loadingBoard (ui w) = false
                /\ shows_error (PlanningBoardIa.render (ui w)) = true) /\
  (forall (coerce : json -> option Q) (s : CapacityIa.state),
      exists w, run CapacityIa.panel (start s)
                  (Trigger CapacityIa.Mount :: Spec.fails 0 f) = Some w
                /\ in_flight w = 0%nat
                /\ CapacityIa.data (ui w) = JNull
                /\ CapacityIa.error (ui w) = CapacityIa.msg_failed
                /\ CapacityIa.render coerce (ui w) = Some [ErrorBox CapacityIa.msg_failed]) /\
  (forall (type_error_message : jsstring) (filterTipo : option jsstring)
          (s : IaInsightsPanel.state),
      exists w m, run (IaInsightsPanel.panel type_error_message) (start s)
                    (Trigger (IaInsightsPanel.Effect filterTipo) :: Spec.fails 0 f) = Some w
                  /\ in_flight w = 0%nat
                  /\ IaInsightsPanel.error (ui w) = Some m /\ m <> []
                  /\ IaInsightsPanel.insights (ui w) = IaInsightsPanel.insights s
                  /\ shows_error (IaInsightsPanel.render (ui w)) = true) /\
  (forall s : App.state,
      exists w, run App.panel (start s) (Trigger App.Mount :: Spec.fails 0 f) = Some w
                /\ in_flight w = 0%nat
                /\ App.data (ui w) = App.data s
                /\ App.error (ui w) = App.msg_failed
                /\ shows_error (App.render (ui w)) = true).
Proof.
  split_and!.
  - intros s Hv Hl.
    pose proof (valid_code_not_blank _ Hv) as Hc. apply truthy_str_nonempty in Hc.
    erewrite run_one_failure;
      [|simpl; by rewrite Hl
       |simpl; by apply pegging_demo_click_valid
       |apply pegging_demo_after_failure; [by rewrite trim_idempotent|done]].
    eexists; split; [reflexivity|]. cbn [ui PeggingPanel.result PeggingPanel.error
                                          PeggingPanel.loading].
    rewrite buildDemoResult_trim.
    pose proof (buildDemoResult_object _ Hc) as Ho.
    split_and!; try done.
    + by rewrite pegging_banner.
    + by apply pegging_summary_shown.
  - intros s Hv Hl.
    erewrite run_one_failure;
      [|simpl; by rewrite Hl
       |simpl; by apply pegging_click_valid
       |apply pegging_after_failure].
    eexists; fields. by rewrite pegging_banner.
  - intros s Hc.
    erewrite run_one_failure;
      [|reflexivity
       |simpl; by apply planning_submit_nonblank
       |apply planning_after_failure].
    eexists; fields. by rewrite planning_banner.
  - intros coerce s.
    erewrite run_one_failure; [|reflexivity|reflexivity|apply capacity_after_failure].
    eexists; fields. reflexivity.
  - intros tem ft s.
    destruct (insights_after_failure tem ft f
                {| IaInsightsPanel.insights := IaInsightsPanel.insights s;
                   IaInsightsPanel.loading := true;
                   IaInsightsPanel.error := None |}) as (m & Hm & Hf).
    erewrite run_one_failure; [|reflexivity|reflexivity|exact Hf].
    exists {| ui := {| IaInsightsPanel.insights := IaInsightsPanel.insights s;
                       IaInsightsPanel.loading := false;
                       IaInsightsPanel.error := Some m |};
              tasks := ∅; issued := 1 |}, m.
    fields. split; [done|]. split; [done|].
    rewrite insights_banner. simpl. by apply truthy_str_nonempty.
  - intros s.
    erewrite run_one_failure; [|reflexivity|reflexivity|apply app_after_failure].
    eexists; fields. by rewrite app_banner.
Qed.

(** The default code on the panel with the demo provider; the backend
    answers 500. *)
Lemma failure_outcome_per_panel_witness :
  exists w, run PeggingIaLiteDemo.panel (start PeggingPanel.initial)
              (Trigger PeggingPanel.Click :: Spec.fails 0 (Spec.BadStatus 500)) = Some w
            /\ in_flight w = 0%nat
            /\ PeggingPanel.result (ui w)
               = PeggingIaLiteDemo.buildDemoResult (PeggingPanel.materialInput PeggingPanel.initial)
            /\ Spec.is_object (PeggingPanel.result (ui w))
            /\ PeggingPanel.error (ui w) = []
            /\ PeggingPanel.loading (ui w) = false
            /\ shows_error (PeggingPanel.render (ui w)) = false
            /\ In (SummaryCards (PeggingPanel.result (ui w))) (PeggingPanel.render (ui w)).
Proof.
  apply (proj1 (failure_outcome_per_panel (Spec.BadStatus 500)) PeggingPanel.initial).
  - reflexivity.
  - reflexivity.
Defined.

(** C2 as the specification words it fails on the pegging panel of
    [frontend/src/PeggingIaLite.js]: with the valid default code and a 500
    response the panel ends with its error message, no result, and the
    error banner on the page. *)
Lemma pegging_without_demo_ends_in_error :
  Validator.isValidMaterial (PeggingPanel.materialInput PeggingPanel.initial) = true /\
  exists w, run PeggingIaLite.panel (start PeggingPanel.initial)
              (Trigger PeggingPanel.Click :: Spec.fails 0 (Spec.BadStatus 500)) = Some w
            /\ ui w = {| PeggingPanel.materialInput := u "4011835-AA";
                         PeggingPanel.loading := false;
                         PeggingPanel.error := PeggingPanel.msg_failed;
                         PeggingPanel.result := JNull |}
            /\ PeggingPanel.render (ui w)
               = [SubmitButton false; ErrorBox PeggingPanel.msg_failed].
Proof.
  split; [reflexivity|].
  eexists. split; [vm_compute; reflexivity|]. split; reflexivity.
Qed.

(** ** C9: the order of the capacity resources *)

Section SortFacts.
Import CapacityIa Spec.
Variable coerce : json -> option Q.

Lemma sort_insert_perm {A} (cmp : A -> A -> option Q) (x : A) (l : list A) :
  Permutation (sort_insert cmp x l) (x :: l).
Proof.
  induction l as [|y l IH]; simpl; [done|].
  destruct (goes_after cmp x y); [|done].
  rewrite IH. apply perm_swap.
Qed.

Lemma js_sort_perm {A} (cmp : A -> A -> option Q) (l : list A) :
  Permutation (js_sort cmp l) l.
Proof.
  induction l as [|x l IH]; simpl; [done|].
  rewrite sort_insert_perm. by constructor.
Qed.

Lemma resource_utilizacao (r : json) :
  resource r -> utilizacao r = JNum (utilizacao_of r).
Proof.
  intros [_ [H|[H|[q H]]]]; unfold utilizacao, utilizacao_of, opt_prop; by rewrite H.
Qed.

(** On resources the comparator is the difference of the utilisations. *)
Lemma by_utilizacao_resources (a b : json) :
  resource a -> resource b ->
  by_utilizacao coerce a b = Some (utilizacao_of b - utilizacao_of a)%Q.
Proof.
  intros Ha Hb. unfold by_utilizacao, js_minus.
  by rewrite (resource_utilizacao a Ha), (resource_utilizacao b Hb).
Qed.

Lemma goes_after_resources (a b : json) :
  resource a -> resource b ->
  goes_after (by_utilizacao coerce) a b = true <-> (utilizacao_of a < utilizacao_of b)%Q.
Proof.
  intros Ha Hb. unfold goes_after. rewrite by_utilizacao_resources by done.
  rewrite negb_true_iff, <- not_true_iff_false, Qle_bool_iff.
  split.
  - intros H. apply Qnot_le_lt in H. apply Qlt_minus_iff. exact H.
  - intros H. apply Qlt_not_le. apply Qlt_minus_iff in H. exact H.
Qed.

Lemma sort_insert_sorted (x : json) (l : list json) :
  resource x -> Forall resource l ->
  StronglySorted not_below l ->
  StronglySorted not_below (sort_insert (by_utilizacao coerce) x l).
Proof.
  intros Hx Hl Hs. induction Hs as [|y l Hs IH Hy]; simpl.
  - repeat constructor.
  - apply Forall_cons in Hl as [Hry Hrl].
    destruct (goes_after (by_utilizacao coerce) x y) eqn:Hg.
    + apply goes_after_resources in Hg; [|done..].
      constructor; [by apply IH|].
      eapply Permutation_Forall; [symmetry; apply sort_insert_perm|].
      constructor; [|done].
      unfold not_below. by apply Qlt_le_weak.
    + assert (not_below x y) as Hxy.
      { unfold not_below. apply Qnot_lt_le. intros Hlt.
        apply (goes_after_resources x y Hx Hry) in Hlt. congruence. }
      constructor; [by constructor|].
      constructor; [done|].
      eapply Forall_impl; [exact Hy|].
      intros z Hz. unfold not_below in *. by eapply Qle_trans.
Qed.

Lemma js_sort_sorted (l : list json) :
  Forall resource l -> StronglySorted not_below (js_sort (by_utilizacao coerce) l).
Proof.
  induction 1 as [|x l Hx Hl IH]; simpl; [constructor|].
  apply sort_insert_sorted; [done| |done].
  eapply Permutation_Forall; [symmetry; apply js_sort_perm|done].
Qed.


Lemma chart_rows (l : list json) :
  Forall (fun r => r <> JNull) l ->
  mapM chart_row l = Some (map (fun r => (prop (u "recurso") r, utilizacao r)) l).
Proof.
  intros Hl. apply mapM_Some_2.
  induction Hl as [|r l Hr Hl IH]; simpl; constructor; [|done].
  by destruct r.
Qed.

Lemma resource_not_null (l : list json) :
  Forall resource l -> Forall (fun r => r <> JNull) l.
Proof. intros H. eapply Forall_impl; [exact H|]. by intros r [Hr _]. Qed.

Lemma card_rows (l : list json) :
  Forall resource l ->
  mapM card_row l = Some (map (fun r => (r, utilizacao_of r)) l).
Proof.
  intros Hl. apply mapM_Some_2.
  induction Hl as [|r l Hr Hl IH]; simpl; constructor; [|done].
  unfold card_row. rewrite (resource_utilizacao r Hr).
  destruct Hr as [Hr _]. by destruct r.
Qed.

(** A row that a card can be drawn for is a resource. *)
Lemma card_row_resource (r : json) (c : json * Q) : card_row r = Some c -> resource r.
Proof.
  unfold card_row, resource, utilizacao, opt_prop, nullish.
  intros H. split; [by intros ->|].
  destruct (prop (u "utilizacao_pct") r) as [[]|]; destruct r; simplify_eq; eauto.
Qed.

Lemma cards_resources (l : list json) (cs : list (json * Q)) :
  mapM card_row l = Some cs -> Forall resource l.
Proof.
  intros H. apply mapM_Some_1 in H.
  induction H as [|r c l cs Hr _ IH]; constructor; [|done].
  by eapply card_row_resource.
Qed.

Lemma array_at_new (h : heap) (a : list json) : array_at (h ++ [a]) (length h) = a.
Proof. unfold array_at. by rewrite list_lookup_middle. Qed.

Lemma array_at_old (h : heap) (a : list json) (r : nat) :
  (r < length h)%nat -> array_at (h ++ [a]) r = array_at h r.
Proof. intros Hr. unfold array_at. by rewrite lookup_app_l. Qed.

(** The spread puts a copy after the arrays of the heap and [sort] orders
    the copy. *)
Lemma sortedResources_on_heap_copy (h : heap) (r : nat) :
  sortedResources_on_heap coerce h (Some r)
  = (h ++ [js_sort (by_utilizacao coerce) (array_at h r)], length h).
Proof.
  unfold sortedResources_on_heap, alloc, sort_in_place. f_equal.
  rewrite array_at_new.
  replace (length h) with (length h + 0)%nat at 1 by lia.
  by rewrite insert_app_r.
Qed.

End SortFacts.

(** C9. Let the capacity page render for a payload, with nothing loading
    and no error. The resources it draws are a permutation of the payload's
    [insights] in non-increasing order of [utilizacao_pct], a missing or
    [null] one counted as 0; the bars of the chart and the cards are those
    resources in that order, each with that utilisation. On the heap the
    sorted array is a new one: the array of the payload and every other
    array stay as they were. *)
Theorem capacity_resources_sorted (coerce : json -> option Q) (s : CapacityIa.state)
    (page : list block) :
  CapacityIa.loading s = false -> CapacityIa.error s = [] ->
  truthy (CapacityIa.data s) = true ->
  CapacityIa.render coerce s = Some page ->
  let d := CapacityIa.data s in
  let sorted := CapacityIa.sortedResources coerce d in
  Permutation sorted (CapacityIa.safeInsights d) /\
  StronglySorted Spec.not_below sorted /\
  page = [KpiCards d]
         ++ (if Nat.eqb (length sorted) 0 then [EmptyMsg]
             else [BarChart (map (fun r => (prop (u "recurso") r, JNum (Spec.utilizacao_of r)))
                                 sorted)])
         ++ (if Nat.eqb (length sorted) 0 then [EmptyBox]
             else [InsightCards (map (fun r => (r, Spec.utilizacao_of r)) sorted)]) /\
  (forall (h : CapacityIa.heap) (r : nat),
      (r < length h)%nat -> CapacityIa.array_at h r = CapacityIa.safeInsights d ->
      let (h', copy) := CapacityIa.sortedResources_on_heap coerce h (Some r) in
      CapacityIa.array_at h' copy = sorted /\
      copy <> r /\
      forall r', (r' < length h)%nat -> CapacityIa.array_at h' r' = CapacityIa.array_at h r').
Proof.
  destruct s as [d l e]; cbn [CapacityIa.loading CapacityIa.error CapacityIa.data].
  intros -> -> Ht Hpage. cbv zeta.
  unfold CapacityIa.render in Hpage; simpl in Hpage. rewrite Ht in Hpage. simpl in Hpage.
  destruct (CapacityIa.chartData coerce d) as [bars|] eqn:Hbars; [|discriminate].
  destruct (CapacityIa.cards coerce d) as [cs|] eqn:Hcards; [|discriminate].
  injection Hpage as <-.
  pose proof (cards_resources _ _ Hcards) as Hres.
  unfold CapacityIa.chartData in Hbars. unfold CapacityIa.cards in Hcards.
  rewrite chart_rows in Hbars by (by apply resource_not_null).
  rewrite card_rows in Hcards by done.
  injection Hbars as <-. injection Hcards as <-.
  split_and!.
  - apply js_sort_perm.
  - apply js_sort_sorted. eapply Permutation_Forall; [apply js_sort_perm|done].
  - rewrite length_map. do 2 f_equal.
    destruct (Nat.eqb _ 0); [done|]. do 2 f_equal.
    apply map_ext_Forall. eapply Forall_impl; [exact Hres|].
    intros r Hr. simpl. by rewrite resource_utilizacao.
  - intros h r Hr Hh. rewrite sortedResources_on_heap_copy.
    split_and!.
    + rewrite array_at_new. unfold CapacityIa.sortedResources. by rewrite Hh.
    + lia.
    + intros r' Hr'. by apply array_at_old.
Qed.

Example capacity_resources_sorted_example :
  let d := JObj [(u "total_recursos", JNum 4);
                 (u "insights",
                  JArr [JObj [(u "recurso", JStr (u "R1")); (u "utilizacao_pct", JNum 50)];
                        JObj [(u "recurso", JStr (u "R2"))];
                        JObj [(u "recurso", JStr (u "R3")); (u "utilizacao_pct", JNum 120)];
                        JObj [(u "recurso", JStr (u "R4")); (u "utilizacao_pct", JNull)]])] in
  map (prop (u "recurso")) (CapacityIa.sortedResources (fun _ => None) d)
  = [Some (JStr (u "R3")); Some (JStr (u "R1")); Some (JStr (u "R2")); Some (JStr (u "R4"))].
Proof. vm_compute. reflexivity. Qed.

(** Four resources: two with a number, one without the field, one with
    [null]. *)
Lemma capacity_resources_sorted_witness :
  let r1 := JObj [(u "recurso", JStr (u "R1")); (u "utilizacao_pct", JNum 50)] in
  let r2 := JObj [(u "recurso", JStr (u "R2"))] in
  let r3 := JObj [(u "recurso", JStr (u "R3")); (u "utilizacao_pct", JNum 120)] in
  let r4 := JObj [(u "recurso", JStr (u "R4")); (u "utilizacao_pct", JNull)] in
  let d := JObj [(u "total_recursos", JNum 4); (u "insights", JArr [r1; r2; r3; r4])] in
  CapacityIa.render (fun _ => None)
    {| CapacityIa.data := d; CapacityIa.loading := false; CapacityIa.error := [] |}
  = Some [KpiCards d;
          BarChart [(Some (JStr (u "R3")), JNum 120); (Some (JStr (u "R1")), JNum 50);
                    (Some (JStr (u "R2")), JNum 0); (Some (JStr (u "R4")), JNum 0)];
          InsightCards [(r3, 120%Q); (r1, 50%Q); (r2, 0%Q); (r4, 0%Q)]] /\
  StronglySorted Spec.not_below (CapacityIa.sortedResources (fun _ => None) d).
Proof.
  split; [reflexivity|].
  eapply (capacity_resources_sorted (fun _ => None)
            {| CapacityIa.data :=
                 JObj [(u "total_recursos", JNum 4);
                       (u "insights",
                        JArr [JObj [(u "recurso", JStr (u "R1")); (u "utilizacao_pct", JNum 50)];
                              JObj [(u "recurso", JStr (u "R2"))];
                              JObj [(u "recurso", JStr (u "R3")); (u "utilizacao_pct", JNum 120)];
                              JObj [(u "recurso", JStr (u "R4")); (u "utilizacao_pct", JNull)]])];
               CapacityIa.loading := false; CapacityIa.error := [] |}).
  - reflexivity.
  - reflexivity.
  - reflexivity.
  - reflexivity.
Defined.

(** ** C7: a payload with nothing in it *)

Section EmptyFacts.
Import Spec.










End EmptyFacts.


Example pegging_no_orders_page :
  PeggingPanel.render
    {| PeggingPanel.materialInput := u "4011835-AA"; PeggingPanel.loading := false;
       PeggingPanel.error := [];
       PeggingPanel.result := JObj [(u "material", JStr (u "4011835-AA")); (u "ordens", JArr [])] |}
  = [SubmitButton false;
     SummaryCards (JObj [(u "material", JStr (u "4011835-AA")); (u "ordens", JArr [])]);
     EmptyBox].
Proof. reflexivity. Qed.

Example capacity_no_resources_page :
  CapacityIa.render (fun _ => None)
    {| CapacityIa.data := JObj [(u "total_recursos", JNum 0); (u "insights", JArr [])];
       CapacityIa.loading := false; CapacityIa.error := [] |}
  = Some [KpiCards (JObj [(u "total_recursos", JNum 0); (u "insights", JArr [])]);
          EmptyMsg; EmptyBox].
Proof. reflexivity. Qed.

(** The empty-state message of the capacity page goes by [insights], not by
    [total_recursos]. *)
Example capacity_counts_insights :
  let r := JObj [(u "recurso", JStr (u "R1")); (u "utilizacao_pct", JNum 50)] in
  CapacityIa.render (fun _ => None)
    {| CapacityIa.data := JObj [(u "total_recursos", JNum 0); (u "insights", JArr [r])];
       CapacityIa.loading := false; CapacityIa.error := [] |}
  = Some [KpiCards (JObj [(u "total_recursos", JNum 0); (u "insights", JArr [r])]);
          BarChart [(Some (JStr (u "R1")), JNum 50)];
          InsightCards [(r, 50%Q)]].
Proof. reflexivity. Qed.

(** * Further properties of the code *)

(** ** The request of the pegging panel *)

Section UriFacts.
Import Uri.

Lemma allowed_unescaped (c : N) : Validator.allowed_char c -> unescaped c = true.
Proof.
  unfold Validator.allowed_char, Validator.is_digit, Validator.is_ascii_letter,
    Validator.is_hyphen, unescaped.
  rewrite !orb_true_iff, !andb_true_iff, !N.leb_le, !N.eqb_eq. intuition lia.
Qed.

(** Nothing is escaped in a string of allowed characters. *)
Lemma encodeURIComponent_allowed (s : jsstring) :
  Forall Validator.allowed_char s -> encodeURIComponent s = Some s.
Proof.
  induction 1 as [|c s Hc Hs IH]; simpl; [done|].
  by rewrite (allowed_unescaped c Hc), IH.
Qed.

Lemma valid_code_allowed (s : jsstring) :
  Validator.isValidMaterial s = true -> Forall Validator.allowed_char (trim s).
Proof.
  unfold Validator.isValidMaterial. rewrite or_str_empty.
  destruct (truthy_str (trim s)) eqn:Ht; simpl; [|discriminate].
  rewrite test_anchored by reflexivity.
  change (Regex.body Validator.material_regex)
    with (Regex.RPlus (Regex.RClass Validator.material_class)).
  rewrite matches_plus_class, Ht. simpl. apply forallb_material_class.
Qed.

End UriFacts.

(** X1. When the code typed into the pegging panel passes the validator, a
    click issues the request for the trimmed code, and [encodeURIComponent]
    neither throws on that code nor changes it: the URL fetched is the base
    address, the path [/pegging/ia-lite?material=] and the code as typed,
    trimmed. *)
Theorem pegging_request_url (base : jsstring) (s : PeggingPanel.state)
    (c : controller PeggingPanel.state jsstring PeggingPanel.trigger) :
  In c [PeggingIaLite.panel; PeggingIaLiteDemo.panel] ->
  Validator.isValidMaterial (PeggingPanel.materialInput s) = true ->
  exists code s',
    on_trigger c PeggingPanel.Click s = (Some code, s')
    /\ code = trim (PeggingPanel.materialInput s)
    /\ Uri.encodeURIComponent code = Some code
    /\ Uri.pegging_url base code
       = Some (base ++ u "/pegging/ia-lite?material=" ++ code).
Proof.
  intros Hc Hv.
  pose proof (encodeURIComponent_allowed _ (valid_code_allowed _ Hv)) as Henc.
  exists (trim (PeggingPanel.materialInput s)).
  destruct Hc as [<-|[<-|[]]]; cbn [on_trigger PeggingIaLite.panel PeggingIaLiteDemo.panel].
  - rewrite pegging_click_valid by done. eexists. split; [reflexivity|].
    split; [done|]. split; [done|]. unfold Uri.pegging_url. by rewrite Henc.
  - rewrite pegging_demo_click_valid by done. eexists. split; [reflexivity|].
    split; [done|]. split; [done|]. unfold Uri.pegging_url. by rewrite Henc.
Qed.

(** The default code with blanks around it, on the loopback address. *)
Lemma pegging_request_url_witness :
  exists code s',
    PeggingIaLite.handleLoadPegging
      {| PeggingPanel.materialInput := u "  4011835-AA ";
         PeggingPanel.loading := false;
         PeggingPanel.error := [];
         PeggingPanel.result := JNull |} = (Some code, s')
    /\ code = u "4011835-AA"
    /\ Uri.encodeURIComponent code = Some code
    /\ Uri.pegging_url Uri.API_BASE_LOCAL code
       = Some (u "http://127.0.0.1:8000/pegging/ia-lite?material=4011835-AA").
Proof.
  destruct (pegging_request_url Uri.API_BASE_LOCAL
              {| PeggingPanel.materialInput := u "  4011835-AA ";
                 PeggingPanel.loading := false;
                 PeggingPanel.error := [];
                 PeggingPanel.result := JNull |}
              PeggingIaLite.panel) as (code & s' & H1 & H2 & H3 & H4).
  - simpl. auto.
  - reflexivity.
  - exists code, s'. split; [exact H1|]. split; [rewrite H2; reflexivity|].
    split; [exact H3|]. rewrite H4, H2. reflexivity.
Defined.

Example encodeURIComponent_escapes :
  Uri.encodeURIComponent (u "a b/" ++ [233; 8364; 55357; 56832])
  = Some (u "a%20b%2F%C3%A9%E2%82%AC%F0%9F%98%80")
  /\ Uri.encodeURIComponent [55357] = None.
Proof. split; reflexivity. Qed.

(** ** Invariants of the event loop *)

Section InvariantFacts.
Context {S E T : Type} (c : controller S E T).
Import Cover.

Lemma closures_start (P : E -> Prop) (s : S) : closures P (start s).
Proof. intros id t. simpl. by rewrite lookup_empty. Qed.

(** Closures are made by the triggers alone. *)
Lemma closures_step (P : E -> Prop) (w w' : world S E) (ev : event T) :
  (forall t s e s', on_trigger c t s = (Some e, s') -> P e) ->
  closures P w -> step c w ev = Some w' -> closures P w'.
Proof.
  intros Hissue Hw Hstep. destruct w as [s ts n]. unfold closures in *. simpl in *.
  destruct ev as [t|id r|id r]; simpl in Hstep.
  - destruct (enabled c t s); [|discriminate].
    destruct (on_trigger c t s) as [[e|] s'] eqn:Ht; injection Hstep as <-; simpl; [|done].
    intros id t' [[_ <-]|[_ Hold]]%lookup_insert_Some; [by eapply Hissue|by eapply Hw].
  - destruct (ts !! id) as [[e []]|] eqn:Hid; try discriminate.
    destruct (on_fetch c e r s) as [[] s']; injection Hstep as <-; simpl.
    + intros id' t' [[_ <-]|[_ Hold]]%lookup_insert_Some; [|by eapply Hw].
      apply (Hw _ _ Hid).
    + intros id' t' [_ Hold]%lookup_delete_Some. by eapply Hw.
  - destruct (ts !! id) as [[e []]|] eqn:Hid; try discriminate.
    injection Hstep as <-; simpl.
    intros id' t' [_ Hold]%lookup_delete_Some. by eapply Hw.
Qed.

Lemma reachable_closures (P : E -> Prop) (s0 : S) (w : world S E) :
  (forall t s e s', on_trigger c t s = (Some e, s') -> P e) ->
  reachable c s0 w -> closures P w.
Proof.
  intros Hissue. induction 1 as [|w ev w' _ IH Hstep].
  - apply closures_start.
  - by eapply closures_step.
Qed.

Lemma settled_step (ld : S -> bool) (s0 : S) (w w' : world S E) (ev : event T) :
  clears_loading c ld ->
  settled_means_idle ld s0 w -> step c w ev = Some w' -> settled_means_idle ld s0 w'.
Proof.
  intros (Hquiet & Hdone & Hjson) Hw Hstep. destruct w as [s ts n].
  unfold settled_means_idle in *. simpl in *.
  destruct ev as [t|id r|id r]; simpl in Hstep.
  - destruct (enabled c t s); [|discriminate].
    destruct (on_trigger c t s) as [[e|] s'] eqn:Ht; injection Hstep as <-; simpl.
    + intros Hempty. by apply insert_non_empty in Hempty.
    + intros Hempty. destruct (Hquiet _ _ _ Ht) as [-> | ->]; [by apply Hw|by right].
  - destruct (ts !! id) as [[e []]|] eqn:Hid; try discriminate.
    destruct (on_fetch c e r s) as [[] s'] eqn:Hf; injection Hstep as <-; simpl.
    + intros Hempty. by apply insert_non_empty in Hempty.
    + intros _. right. by eapply Hdone.
  - destruct (ts !! id) as [[e []]|] eqn:Hid; try discriminate.
    injection Hstep as <-; simpl. intros _. right. apply Hjson.
Qed.

Lemma reachable_settled (ld : S -> bool) (s0 : S) (w : world S E) :
  clears_loading c ld -> reachable c s0 w ->
  in_flight w = 0%nat -> (0 < issued w)%nat -> ld (ui w) = false.
Proof.
  intros Hc Hw.
  assert (settled_means_idle ld s0 w) as Hs.
  { induction Hw as [|w ev w' _ IH Hstep].
    - intros _. left. by split.
    - by eapply settled_step. }
  intros Hfl Hissued. apply map_size_empty_iff in Hfl.
  destruct (Hs Hfl) as [[H0 _]|H]; [lia|done].
Qed.

End InvariantFacts.

(** ** What the panels have in flight *)

Section InFlightFacts.
Import Cover.

Lemma pegging_issues_valid_code (c : controller PeggingPanel.state jsstring PeggingPanel.trigger) :
  In c [PeggingIaLite.panel; PeggingIaLiteDemo.panel] ->
  forall t s e s', on_trigger c t s = (Some e, s') ->
                   Validator.isValidMaterial e = true /\ trim e = e.
Proof.
  intros [<-|[<-|[]]] [|v] s e s'; simpl; try discriminate.
  - unfold PeggingIaLite.handleLoadPegging, bind, read.
    destruct (Validator.isValidMaterial (trim _)) eqn:Hv; simpl; intros [= <- <-].
    split; [done|apply trim_idempotent].
  - unfold PeggingIaLiteDemo.handleLoadPegging, bind, read.
    destruct (Validator.isValidMaterial (trim _)) eqn:Hv; simpl; intros [= <- <-].
    split; [done|apply trim_idempotent].
Qed.

Lemma planning_issues_code (t : PlanningBoardIa.trigger) (s : PlanningBoardIa.state)
    (e : jsstring) (s' : PlanningBoardIa.state) :
  on_trigger PlanningBoardIa.panel t s = (Some e, s') -> e <> [].
Proof.
  destruct t as [| |v]; simpl; try discriminate.
  - unfold PlanningBoardIa.mount_effect, PlanningBoardIa.loadBoard, bind, read.
    destruct (PlanningBoardIa.materialCode s); simpl; [discriminate|].
    by intros [= <- <-].
  - unfold PlanningBoardIa.handleSubmit, PlanningBoardIa.loadBoard, bind, read, ret.
    destruct (truthy_str (PlanningBoardIa.materialCode s)); simpl; [|discriminate].
    destruct (trim (PlanningBoardIa.materialCode s)); simpl; [discriminate|].
    by intros [= <- <-].
Qed.

End InFlightFacts.

(** X2. In every state either version of the pegging panel can reach,
    whatever state it started in, each request in flight was issued for a
    code that passes the validator, is already trimmed, is made of allowed
    characters only and goes into the URL unescaped. *)
Theorem pegging_requests_are_validated
    (c : controller PeggingPanel.state jsstring PeggingPanel.trigger)
    (s0 : PeggingPanel.state) (w : world PeggingPanel.state jsstring)
    (id : nat) (t : task jsstring) :
  In c [PeggingIaLite.panel; PeggingIaLiteDemo.panel] ->
  reachable c s0 w ->
  tasks w !! id = Some t ->
  Validator.isValidMaterial (closure t) = true
  /\ Forall Validator.allowed_char (closure t)
  /\ Uri.encodeURIComponent (closure t) = Some (closure t).
Proof.
  intros Hc Hw Hid.
  pose proof (reachable_closures c
                (fun e => Validator.isValidMaterial e = true /\ trim e = e)
                s0 w (pegging_issues_valid_code c Hc) Hw id t Hid) as [Hv Ht].
  pose proof (valid_code_allowed _ Hv) as Hall. rewrite Ht in Hall.
  split; [done|]. split; [done|]. by apply encodeURIComponent_allowed.
Qed.

(** A click on the default code, then the response arrives and the body is
    awaited. *)
Lemma pegging_requests_are_validated_witness :
  let w := {| ui := {| PeggingPanel.materialInput := u "4011835-AA";
                       PeggingPanel.loading := true;
                       PeggingPanel.error := [];
                       PeggingPanel.result := JNull |};
              tasks := <[0%nat := {| closure := u "4011835-AA"; waits := AwaitJson |}]>
                         (<[0%nat := {| closure := u "4011835-AA"; waits := AwaitFetch |}]> ∅);
              issued := 1 |} in
  reachable PeggingIaLiteDemo.panel PeggingPanel.initial w /\
  Validator.isValidMaterial (u "4011835-AA") = true
  /\ Forall Validator.allowed_char (u "4011835-AA")
  /\ Uri.encodeURIComponent (u "4011835-AA") = Some (u "4011835-AA").
Proof.
  assert (reachable PeggingIaLiteDemo.panel PeggingPanel.initial
            {| ui := {| PeggingPanel.materialInput := u "4011835-AA";
                        PeggingPanel.loading := true;
                        PeggingPanel.error := [];
                        PeggingPanel.result := JNull |};
               tasks := <[0%nat := {| closure := u "4011835-AA"; waits := AwaitJson |}]>
                          (<[0%nat := {| closure := u "4011835-AA"; waits := AwaitFetch |}]> ∅);
               issued := 1 |}) as Hr.
  { eapply reach_step with (ev := FetchSettles 0 (Responded true 200)).
    - eapply reach_step with (ev := Trigger PeggingPanel.Click).
      + apply reach_start.
      + reflexivity.
    - reflexivity. }
  split; [exact Hr|].
  apply (pegging_requests_are_validated PeggingIaLiteDemo.panel PeggingPanel.initial _
           0%nat {| closure := u "4011835-AA"; waits := AwaitJson |}
           (or_intror (or_introl eq_refl)) Hr).
  apply lookup_insert_eq.
Defined.

(** X3. In every state the planning board can reach, whatever state it
    started in, no request in flight was issued for an empty code: neither
    the effect run on mount nor a submit fetches [/planning/board/] with
    nothing after it. *)
Theorem planning_requests_never_blank
    (s0 : PlanningBoardIa.state) (w : world PlanningBoardIa.state jsstring)
    (id : nat) (t : task jsstring) :
  reachable PlanningBoardIa.panel s0 w ->
  tasks w !! id = Some t ->
  closure t <> []
  /\ Uri.planning_url Uri.API_BASE_LOCAL (closure t)
     <> Uri.planning_url Uri.API_BASE_LOCAL [].
Proof.
  intros Hw Hid.
  pose proof (reachable_closures PlanningBoardIa.panel (fun e => e <> []) s0 w
                planning_issues_code Hw id t Hid) as Hne.
  split; [done|].
  unfold Uri.planning_url. intros Heq.
  apply app_inv_head in Heq. apply app_inv_head in Heq. done.
Qed.

(** Mounted with the default code. *)
Lemma planning_requests_never_blank_witness :
  let w := {| ui := {| PlanningBoardIa.materialCode := u "4011835-AA";
                       PlanningBoardIa.board := JNull;
                       PlanningBoardIa.loadingBoard := true;
                       PlanningBoardIa.error := [] |};
              tasks := <[0%nat := {| closure := u "4011835-AA"; waits := AwaitFetch |}]> ∅;
              issued := 1 |} in
  reachable PlanningBoardIa.panel PlanningBoardIa.initial w /\
  u "4011835-AA" <> []
  /\ Uri.planning_url Uri.API_BASE_LOCAL (u "4011835-AA")
     <> Uri.planning_url Uri.API_BASE_LOCAL [].
Proof.
  assert (reachable PlanningBoardIa.panel PlanningBoardIa.initial
            {| ui := {| PlanningBoardIa.materialCode := u "4011835-AA";
                        PlanningBoardIa.board := JNull;
                        PlanningBoardIa.loadingBoard := true;
                        PlanningBoardIa.error := [] |};
               tasks := <[0%nat := {| closure := u "4011835-AA"; waits := AwaitFetch |}]> ∅;
               issued := 1 |}) as Hr.
  { eapply reach_step with (ev := Trigger PlanningBoardIa.Mount).
    - apply reach_start.
    - reflexivity. }
  split; [exact Hr|].
  apply (planning_requests_never_blank PlanningBoardIa.initial _
           0%nat {| closure := u "4011835-AA"; waits := AwaitFetch |} Hr).
  apply lookup_insert_eq.
Defined.

(** ** The loading flag once every request has settled *)

Section QuiescenceFacts.
Import Cover Spec.






Lemma old_clears_loading : clears_loading PeggingIaLiteOld.panel PeggingIaLiteOld.loading.
Proof.
  split_and!.
  - intros [mc| |v] s s'; simpl.
    + unfold PeggingIaLiteOld.prop_effect, PeggingIaLiteOld.fetchPegging, bind, ret.
      destruct (truthy_str (default [] mc)); simpl; [|by intros [= <-]; left].
      destruct (PeggingIaLiteOld.url _); simpl; [discriminate|by intros [= <-]; right].
    + unfold PeggingIaLiteOld.handleLoadClick, PeggingIaLiteOld.fetchPegging, bind, read, ret.
      simpl. destruct (truthy_str (PeggingIaLiteOld.material s)); simpl;
        [|by intros [= <-]; left].
      destruct (PeggingIaLiteOld.url _); simpl; [discriminate|by intros [= <-]; right].
    + by intros [= <-]; left.
  - intros e [m|[] st] s s'; simpl; intros [= <-]; done.
  - intros e [m|j] s; reflexivity.
Qed.

End QuiescenceFacts.


Lemma run_reachable {S E T : Type} (c : controller S E T) (s0 : S)
    (evs : list (event T)) (w w' : world S E) :
  reachable c s0 w -> run c w evs = Some w' -> reachable c s0 w'.
Proof.
  revert w. induction evs as [|ev evs IH]; intros w Hw; simpl.
  - by intros [= <-].
  - destruct (step c w ev) as [w1|] eqn:Hstep; [|discriminate].
    apply IH. by eapply reach_step.
Qed.


(** ** The demo version never reports a failure *)

Section DemoNeverFails.
Import Cover Spec PeggingPanel.

Lemma valid_code_has_demo (e : jsstring) :
  Validator.isValidMaterial e = true ->
  truthy (PeggingIaLiteDemo.buildDemoResult e) = true.
Proof.
  intros Hv. apply object_truthy, buildDemoResult_object.
  apply truthy_str_nonempty. by apply valid_code_not_blank.
Qed.

Lemma msg_invalid_not_failed : msg_invalid <> msg_failed.
Proof. discriminate. Qed.

Lemma demo_error_step (w w' : world state jsstring) (ev : event trigger) :
  closures (fun e => Validator.isValidMaterial e = true /\ trim e = e) w ->
  error (ui w) = [] \/ error (ui w) = msg_invalid ->
  step PeggingIaLiteDemo.panel w ev = Some w' ->
  error (ui w') = [] \/ error (ui w') = msg_invalid.
Proof.
  intros Hcl Herr Hstep. destruct w as [s ts n]. unfold closures in Hcl. simpl in *.
  destruct ev as [t|id r|id r]; simpl in Hstep.
  - destruct (enabled t s); [|discriminate].
    destruct t as [|v]; simpl in Hstep.
    + unfold PeggingIaLiteDemo.handleLoadPegging, bind, read in Hstep.
      destruct (Validator.isValidMaterial _); simpl in Hstep;
        injection Hstep as <-; simpl; auto.
    + injection Hstep as <-; simpl; auto.
  - destruct (ts !! id) as [[e []]|] eqn:Hid; try discriminate.
    destruct (Hcl _ _ Hid) as [Hv _]. simpl in Hv.
    pose proof (valid_code_has_demo e Hv) as Hd.
    destruct r as [m|[] st]; simpl in Hstep;
      unfold PeggingIaLiteDemo.catch_block in Hstep; rewrite ?Hd in Hstep;
      simpl in Hstep; injection Hstep as <-; simpl; auto.
  - destruct (ts !! id) as [[e []]|] eqn:Hid; try discriminate.
    destruct (Hcl _ _ Hid) as [Hv _]. simpl in Hv.
    pose proof (valid_code_has_demo e Hv) as Hd.
    injection Hstep as <-.
    destruct r as [m|j]; simpl;
      unfold PeggingIaLiteDemo.catch_block; rewrite ?Hd; simpl; auto.
Qed.

End DemoNeverFails.

(** X5. The version of the pegging panel with demo data never shows the
    message that the pegging could not be loaded: started without a message
    (or with the message of the validator), in every state it can reach the
    message is empty or is the one of the validator, however the requests
    end. The [setError] of the failure message in its [catch] is never
    reached, because every request in flight holds a validated code, for
    which there is a demo record. *)
Theorem pegging_demo_never_reports_failure
    (s0 : PeggingPanel.state) (w : world PeggingPanel.state jsstring) :
  PeggingPanel.error s0 = [] \/ PeggingPanel.error s0 = PeggingPanel.msg_invalid ->
  reachable PeggingIaLiteDemo.panel s0 w ->
  (PeggingPanel.error (ui w) = [] \/ PeggingPanel.error (ui w) = PeggingPanel.msg_invalid)
  /\ PeggingPanel.error (ui w) <> PeggingPanel.msg_failed
  /\ ~ In (ErrorBox PeggingPanel.msg_failed) (PeggingPanel.render (ui w)).
Proof.
  intros H0 Hw.
  assert (PeggingPanel.error (ui w) = [] \/ PeggingPanel.error (ui w) = PeggingPanel.msg_invalid)
    as Herr.
  { induction Hw as [|w ev w' Hw IH Hstep]; [exact H0|].
    eapply demo_error_step; [|exact IH|exact Hstep].
    eapply reachable_closures; [|exact Hw].
    apply pegging_issues_valid_code. simpl. auto. }
  assert (PeggingPanel.error (ui w) <> PeggingPanel.msg_failed) as Hne.
  { destruct Herr as [->| ->]; [discriminate|apply msg_invalid_not_failed]. }
  split; [exact Herr|]. split; [exact Hne|].
  intros Hin. unfold PeggingPanel.render in Hin.
  rewrite !in_app_iff in Hin.
  destruct Hin as [Hin|[Hin|[Hin|[Hin|[Hin|Hin]]]]].
  - simpl in Hin. destruct Hin as [?|[]]. discriminate.
  - unfold guarded in Hin. simpl in Hin.
    destruct (truthy_str _); simpl in Hin; [|done].
    destruct Hin as [[= Heq]|[]]. by apply Hne.
  - apply guarded_in in Hin as [?|[q ?]]; discriminate.
  - apply guarded_in in Hin as [?|[q ?]]; discriminate.
  - apply guarded_in in Hin as [?|[q ?]]; discriminate.
  - apply guarded_in in Hin as [?|[q ?]]; discriminate.
Qed.

(** A click on the default code, and the network fails. *)
Lemma pegging_demo_never_reports_failure_witness :
  exists w,
    run PeggingIaLiteDemo.panel (start PeggingPanel.initial)
      [Trigger PeggingPanel.Click; FetchSettles 0 (FetchRejected (u "Failed to fetch"))]
    = Some w
    /\ (PeggingPanel.error (ui w) = [] \/ PeggingPanel.error (ui w) = PeggingPanel.msg_invalid)
    /\ PeggingPanel.error (ui w) <> PeggingPanel.msg_failed
    /\ ~ In (ErrorBox PeggingPanel.msg_failed) (PeggingPanel.render (ui w)).
Proof.
  eexists. split; [reflexivity|].
  apply (pegging_demo_never_reports_failure PeggingPanel.initial).
  - left. reflexivity.
  - eapply run_reachable with
      (evs := [Trigger PeggingPanel.Click;
               FetchSettles 0 (FetchRejected (u "Failed to fetch"))]);
      [apply reach_start|reflexivity].
Defined.

(** ** One view at a time on the pegging page *)

Section OneViewFacts.
Import Cover Spec PeggingPanel.

Lemma pegging_keeps_one_view : keeps_one_view PeggingIaLite.panel.
Proof.
  unfold keeps_one_view, one_view. split_and!.
  - intros [|v] [m l e r] o s' Hen [Hl He]; simpl in *.
    + destruct l; [discriminate|].
      unfold PeggingIaLite.handleLoadPegging, bind, read.
      destruct (Validator.isValidMaterial _); simpl; intros [= <- <-]; simpl;
        (split; intros; done).
    + intros [= <- <-]; simpl. auto.
  - intros code [msg|[] st] [m l e r] b s' Hld [Hl He]; simpl in *; subst l;
      destruct (Hl eq_refl) as [-> ->]; intros [= <- <-]; simpl; (split; intros; done).
  - intros code [msg|j] [m l e r] Hld [Hl He]; simpl in *; subst l;
      destruct (Hl eq_refl) as [-> ->]; simpl; (split; intros; done).
Qed.

Lemma pegging_demo_keeps_one_view : keeps_one_view PeggingIaLiteDemo.panel.
Proof.
  unfold keeps_one_view, one_view. split_and!.
  - intros [|v] [m l e r] o s' Hen [Hl He]; simpl in *.
    + destruct l; [discriminate|].
      unfold PeggingIaLiteDemo.handleLoadPegging, bind, read.
      destruct (Validator.isValidMaterial _); simpl; intros [= <- <-]; simpl;
        (split; intros; done).
    + intros [= <- <-]; simpl. auto.
  - intros code [msg|[] st] [m l e r] b s' Hld [Hl He]; simpl in *; subst l;
      destruct (Hl eq_refl) as [-> ->]; unfold PeggingIaLiteDemo.catch_block;
      repeat (destruct (truthy _); simpl); intros [= <- <-]; simpl; (split; intros; done).
  - intros code [msg|j] [m l e r] Hld [Hl He]; simpl in *; subst l;
      destruct (Hl eq_refl) as [-> ->]; unfold PeggingIaLiteDemo.catch_block;
      repeat (destruct (truthy _); simpl); (split; intros; done).
Qed.

Lemma task_means_loading (w : world state jsstring) (id : nat) (t : task jsstring) :
  one_at_a_time w -> tasks w !! id = Some t -> loading (ui w) = true.
Proof.
  intros [[Hl _]|[_ He]] Hid; [done|]. by rewrite He, lookup_empty in Hid.
Qed.

Lemma one_view_step (c : controller state jsstring trigger)
    (w w' : world state jsstring) (ev : event trigger) :
  follows_loading c -> keeps_one_view c ->
  one_at_a_time w -> one_view (ui w) -> step c w ev = Some w' -> one_view (ui w').
Proof.
  intros Hfl (Ht & Hf & Hj) Hone Hv Hstep. destruct w as [s ts n]. simpl in *.
  destruct ev as [t|id r|id r]; simpl in Hstep.
  - destruct (Async.enabled c t s) eqn:Hen; [|discriminate].
    destruct Hfl as (_ & _ & _ & _ & _ & _ & Henabled). rewrite Henabled in Hen.
    destruct (on_trigger c t s) as [o s'] eqn:Htr.
    assert (one_view s') as Hs' by (by eapply Ht).
    destruct o; injection Hstep as <-; done.
  - destruct (ts !! id) as [[e []]|] eqn:Hid; try discriminate.
    pose proof (task_means_loading _ _ _ Hone Hid) as Hld. simpl in Hld.
    destruct (on_fetch c e r s) as [b s'] eqn:Hfe.
    assert (one_view s') as Hs' by (by eapply Hf).
    destruct b; injection Hstep as <-; done.
  - destruct (ts !! id) as [[e []]|] eqn:Hid; try discriminate.
    pose proof (task_means_loading _ _ _ Hone Hid) as Hld. simpl in Hld.
    injection Hstep as <-. simpl. by apply Hj.
Qed.

Lemma reachable_one_view (c : controller state jsstring trigger)
    (s0 : state) (w : world state jsstring) :
  follows_loading c -> keeps_one_view c ->
  loading s0 = false -> one_view s0 -> reachable c s0 w -> one_view (ui w).
Proof.
  intros Hfl Hk Hl0 Hv0 Hw. induction Hw as [|w ev w' Hw IH Hstep]; [done|].
  eapply one_view_step; [exact Hfl|exact Hk| |exact IH|exact Hstep].
  by eapply reachable_one_at_a_time.
Qed.

Lemma pegging_error_page (s : state) :
  loading s = false -> error s <> [] -> result s = JNull ->
  render s = [SubmitButton false; ErrorBox (error s)].
Proof.
  destruct s as [m l e r]; simpl; intros -> He ->.
  apply truthy_str_nonempty in He.
  unfold render, guarded, nenhumaOrdem, js_and, js_or, ordens; simpl. rewrite He. reflexivity.
Qed.

Lemma pegging_grid_needs_result (s : state) (os : list json) :
  In (OrdersGrid os) (render s) -> result s <> JNull.
Proof.
  intros Hin Hr. destruct s as [m l e r]; simpl in Hr; subst r.
  unfold render, guarded, nenhumaOrdem, js_and, js_or, ordens in Hin; simpl in Hin.
  destruct l, (truthy_str e); simpl in Hin; intuition congruence.
Qed.

Lemma pegging_idle_no_loading_box (s : state) :
  loading s = false -> ~ In LoadingBox (render s).
Proof.
  intros Hl Hin. unfold render in Hin. rewrite Hl in Hin.
  rewrite !in_app_iff in Hin.
  destruct Hin as [Hin|[Hin|[Hin|[Hin|[Hin|Hin]]]]].
  - simpl in Hin. destruct Hin as [?|[]]. discriminate.
  - apply guarded_in in Hin as [?|[q ?]]; discriminate.
  - unfold guarded, js_and in Hin. simpl in Hin. done.
  - apply guarded_in in Hin as [?|[q ?]]; discriminate.
  - apply guarded_in in Hin as [?|[q ?]]; discriminate.
  - apply guarded_in in Hin as [?|[q ?]]; discriminate.
Qed.

End OneViewFacts.

(** X6. The pegging page shows one view at a time. In every state either
    version of the panel can reach from a state that is not loading and has
    no result next to a message: while a request is in flight the page is
    the disabled button and the loading box, nothing else; when there is a
    message the page is the button and the error box, nothing else; and an
    orders grid is on the page only when no loading box and no error box is.
    The render does not guard the grid by [loading] or [error]: the orders
    of an earlier query are gone because the click clears the result and no
    second request can write one. *)
Theorem pegging_page_one_view
    (c : controller PeggingPanel.state jsstring PeggingPanel.trigger)
    (s0 : PeggingPanel.state) (w : world PeggingPanel.state jsstring) :
  In c [PeggingIaLite.panel; PeggingIaLiteDemo.panel] ->
  PeggingPanel.loading s0 = false ->
  Cover.one_view s0 ->
  reachable c s0 w ->
  ((0 < in_flight w)%nat ->
     PeggingPanel.render (ui w) = [SubmitButton true; LoadingBox])
  /\ (PeggingPanel.error (ui w) <> [] ->
      PeggingPanel.render (ui w) = [SubmitButton false; ErrorBox (PeggingPanel.error (ui w))])
  /\ (forall os, In (OrdersGrid os) (PeggingPanel.render (ui w)) ->
                 ~ In LoadingBox (PeggingPanel.render (ui w))
                 /\ shows_error (PeggingPanel.render (ui w)) = false).
Proof.
  intros Hc Hl0 Hv0 Hw.
  assert (Spec.follows_loading c /\ Cover.keeps_one_view c) as [Hfl Hk].
  { destruct Hc as [<-|[<-|[]]]; split;
      auto using pegging_follows_loading, pegging_demo_follows_loading,
                 pegging_keeps_one_view, pegging_demo_keeps_one_view. }
  pose proof (reachable_one_at_a_time c s0 w Hfl Hl0 Hw) as Hone.
  pose proof (reachable_one_view c s0 w Hfl Hk Hl0 Hv0 Hw) as [Hld Herr].
  split_and!.
  - intros Hn. destruct Hone as [[Hl _]|[_ He]].
    + destruct (Hld Hl) as [He Hr]. by apply pegging_loading_page.
    + unfold in_flight in Hn. rewrite He, map_size_empty in Hn. lia.
  - intros He. apply pegging_error_page; [|done|by apply Herr].
    destruct (PeggingPanel.loading (ui w)) eqn:Hl; [|done].
    destruct (Hld eq_refl) as [He' _]. done.
  - intros os Hin. apply pegging_grid_needs_result in Hin.
    assert (PeggingPanel.loading (ui w) = false) as Hl.
    { destruct (PeggingPanel.loading (ui w)); [|done]. destruct (Hld eq_refl) as [_ Hr]. done. }
    assert (PeggingPanel.error (ui w) = []) as He.
    { destruct (PeggingPanel.error (ui w)) eqn:He; [done|].
      exfalso. apply Hin, Herr. discriminate. }
    split; [by apply pegging_idle_no_loading_box|].
    by rewrite pegging_banner, He.
Qed.

(** A query that found orders, another code typed, and a second click
    whose request is still in flight. *)
Lemma pegging_page_one_view_witness :
  exists w,
    run PeggingIaLite.panel (start PeggingPanel.initial)
      [Trigger PeggingPanel.Click;
       FetchSettles 0 (Responded true 200);
       JsonSettles 0 (Parsed (JObj [(u "ordens", JArr [JObj [(u "ordem", JStr (u "45"))]])]));
       Trigger (PeggingPanel.Input (u "77"));
       Trigger PeggingPanel.Click]
    = Some w
    /\ ((0 < in_flight w)%nat ->
          PeggingPanel.render (ui w) = [SubmitButton true; LoadingBox])
    /\ (PeggingPanel.error (ui w) <> [] ->
        PeggingPanel.render (ui w) = [SubmitButton false; ErrorBox (PeggingPanel.error (ui w))])
    /\ (forall os, In (OrdersGrid os) (PeggingPanel.render (ui w)) ->
                   ~ In LoadingBox (PeggingPanel.render (ui w))
                   /\ shows_error (PeggingPanel.render (ui w)) = false).
Proof.
  eexists. split; [reflexivity|].
  apply (pegging_page_one_view PeggingIaLite.panel PeggingPanel.initial).
  - simpl. auto.
  - reflexivity.
  - split; [discriminate|done].
  - eapply run_reachable with
      (evs := [Trigger PeggingPanel.Click;
               FetchSettles 0 (Responded true 200);
               JsonSettles 0 (Parsed (JObj [(u "ordens", JArr [JObj [(u "ordem", JStr (u "45"))]])]));
               Trigger (PeggingPanel.Input (u "77"));
               Trigger PeggingPanel.Click]);
      [apply reach_start|reflexivity].
Defined.

(** ** The chart of the planning board *)

Section ChartFacts.
Import PlanningChart Cover.

Lemma or_empty_array (xs : list json) : or_empty (Some (JArr xs)) = JArr xs.
Proof. reflexivity. Qed.

Lemma or_empty_falsy (x : option json) : truthy_opt x = false -> or_empty x = JArr [].
Proof. unfold or_empty. by intros ->. Qed.

Lemma series_padded (x : option json) (i : nat) :
  padded x i (nullish (js_index (or_empty x) i) (JNum 0)).
Proof.
  destruct x as [[]|]; simpl; try done.
  all: intros Hf; by rewrite or_empty_falsy.
Qed.

End ChartFacts.

(** X7. The chart of the planning board has one point per label of
    [board.series.labels], in the order of the labels, and pads the series:
    the point of a label takes from each of the four series the entry at
    the label's index, and 0 where the series is missing, is shorter than
    the labels or holds [null] there; entries of a series beyond the last
    label are not drawn. *)
Theorem planning_chart_pads_series (board series : json) (ls : list json) :
  prop (u "series") board = Some series ->
  prop (u "labels") series = Some (JArr ls) ->
  exists rows,
    PlanningChart.chartData board = Some rows
    /\ length rows = length ls
    /\ forall i label, ls !! i = Some label ->
         exists r, rows !! i = Some r
           /\ PlanningChart.semana r = label
           /\ Cover.padded (prop (u "demanda") series) i (PlanningChart.demanda r)
           /\ Cover.padded (prop (u "estoque_natural") series) i (PlanningChart.estoque_natural r)
           /\ Cover.padded (prop (u "estoque_pos_ia") series) i (PlanningChart.estoque_pos_ia r)
           /\ Cover.padded (prop (u "producao_ia") series) i (PlanningChart.producao_ia r).
Proof.
  intros Hs Hl.
  assert (truthy board = true) as Hb by (by destruct board).
  assert (truthy series = true) as Hts by (by destruct series).
  unfold PlanningChart.chartData. rewrite Hb, Hs. cbn [truthy_opt default from_option id]. rewrite Hts, Hl.
  cbn [truthy_opt truthy]. rewrite or_empty_array.
  eexists. split; [reflexivity|]. split; [by rewrite length_imap|].
  intros i label Hi. eexists. rewrite list_lookup_imap, Hi. split; [reflexivity|].
  cbn [PlanningChart.chart_row PlanningChart.semana PlanningChart.demanda
       PlanningChart.estoque_natural PlanningChart.estoque_pos_ia PlanningChart.producao_ia].
  split; [done|]. split_and!; apply series_padded.
Qed.

(** Three weeks, a demand series of two entries and one of them [null],
    no production series. *)
Lemma planning_chart_pads_series_witness :
  let series := JObj [(u "labels", JArr [JStr (u "S1"); JStr (u "S2"); JStr (u "S3")]);
                      (u "demanda", JArr [JNum 10; JNull])] in
  exists rows,
    PlanningChart.chartData (JObj [(u "series", series)]) = Some rows
    /\ map PlanningChart.demanda rows = [JNum 10; JNum 0; JNum 0]
    /\ map PlanningChart.producao_ia rows = [JNum 0; JNum 0; JNum 0]
    /\ length rows = 3%nat.
Proof.
  intros series.
  destruct (planning_chart_pads_series (JObj [(u "series", series)]) series
              [JStr (u "S1"); JStr (u "S2"); JStr (u "S3")] eq_refl eq_refl)
    as (rows & Hrows & Hlen & _).
  exists rows. split; [exact Hrows|].
  injection Hrows as <-. split; [reflexivity|]. split; [reflexivity|exact Hlen].
Defined.

(** X8. Every render of the planning board computes the chart before it
    draws anything, also while loading or showing an error. It throws
    exactly when the payload is truthy and holds a truthy
    [series.labels] that is not an array, so such a payload breaks the
    board; with labels that are an array, or missing, [null] or otherwise
    falsy, and with no board at all, the chart is computed, and without
    labels it is empty. *)
Theorem planning_chart_throws_iff (board : json) :
  (PlanningChart.chartData board = None <->
   exists series labels,
     prop (u "series") board = Some series
     /\ prop (u "labels") series = Some labels
     /\ truthy labels = true /\ ~ Cover.is_array labels)
  /\ (forall rows, PlanningChart.chartData board = Some rows -> rows <> [] ->
        exists series ls,
          prop (u "series") board = Some series
          /\ prop (u "labels") series = Some (JArr ls) /\ length rows = length ls).
Proof.
  unfold PlanningChart.chartData. split.
  - split.
    + destruct (truthy board); [|discriminate].
      destruct (prop (u "series") board) as [series|] eqn:Hs; [|discriminate].
      cbn [truthy_opt default from_option id].
      destruct (truthy series); [|discriminate].
      destruct (prop (u "labels") series) as [labels|] eqn:Hlab; [|discriminate].
      cbn [truthy_opt]. destruct (truthy labels) eqn:Hl; [|discriminate].
      unfold PlanningChart.or_empty. cbn [truthy_opt default from_option id]. rewrite Hl.
      intros H. exists series, labels. split_and!; try done.
      destruct labels; simpl; try tauto; try discriminate.
    + intros (series & labels & Hs & Hl & Ht & Hna).
      assert (truthy board = true) as Hb by (by destruct board).
      assert (truthy series = true) as Hts by (by destruct series).
      rewrite Hb, Hs. cbn [truthy_opt default from_option id]. rewrite Hts, Hl. cbn [truthy_opt].
      rewrite Ht. unfold PlanningChart.or_empty. cbn [truthy_opt default from_option id]. rewrite Ht.
      by destruct labels.
  - intros rows.
    destruct (truthy board); [|by intros [= <-]].
    destruct (prop (u "series") board) as [series|] eqn:Hs; [|by intros [= <-]].
    cbn [truthy_opt default from_option id].
    destruct (truthy series); [|by intros [= <-]].
    destruct (prop (u "labels") series) as [labels|] eqn:Hlab; [|by intros [= <-]].
    cbn [truthy_opt]. destruct (truthy labels) eqn:Hl; [|by intros [= <-]].
    unfold PlanningChart.or_empty. cbn [truthy_opt default from_option id]. rewrite Hl.
    destruct labels as [| | | |ls|]; try discriminate.
    intros [= <-] _. exists series, ls. by rewrite length_imap.
Qed.

Example planning_chart_breaks_on_text_labels :
  PlanningChart.chartData (JObj [(u "series", JObj [(u "labels", JStr (u "S1,S2"))])]) = None
  /\ PlanningChart.chartData JNull = Some []
  /\ PlanningChart.chartData (JObj [(u "series", JObj [(u "labels", JNull)])]) = Some [].
Proof. split_and!; reflexivity. Qed.

(** ** The filter of the insights panel *)

Section InsightFacts.
Import Cover IaInsightsPanel.

Lemma tipo_is_has_tipo (ft : jsstring) (l : list json) :
  Forall (fun i => i <> JNull) l ->
  mapM (tipo_is ft) l = Some (map (has_tipo ft) l).
Proof.
  intros Hl. apply mapM_Some_2.
  induction Hl as [|i l Hi Hl IH]; simpl; constructor; [|done].
  by destruct i.
Qed.

Lemma tipo_is_null (ft : jsstring) (l : list json) :
  In JNull l -> mapM (tipo_is ft) l = None.
Proof.
  intros Hin. apply mapM_None_2, Exists_exists. exists JNull. split; [|done].
  by apply list_elem_of_In.
Qed.

Lemma zip_filter {A} (f : A -> bool) (l : list A) :
  map snd (List.filter (fun p : bool * A => fst p) (zip (map f l) l)) = List.filter f l.
Proof.
  induction l as [|x l IH]; simpl; [done|].
  destruct (f x); simpl; by rewrite IH.
Qed.

End InsightFacts.

(** X9. The filter of the insights panel. When a request of a panel
    mounted with a type [filterTipo] succeeds with a payload whose
    [insights] is an array without [null] entries, the panel keeps exactly
    the insights whose [tipo] is that string, in the order of the payload,
    and leaves the error as it is; mounted without a type, or with the empty
    string, it keeps them all. One [null] entry under a filter makes the
    request end as a failure: a message is set and the insights shown before
    stay. *)
Theorem insights_filter_by_tipo (tem ft : jsstring) (st : N) (d : json) (l : list json)
    (s : IaInsightsPanel.state) :
  ft <> [] ->
  prop (u "insights") d = Some (JArr l) ->
  (Forall (fun i => i <> JNull) l ->
     Spec.after_success (IaInsightsPanel.panel tem) (Some ft) st d s
     = Some {| IaInsightsPanel.insights := JArr (List.filter (Cover.has_tipo ft) l);
               IaInsightsPanel.loading := false;
               IaInsightsPanel.error := IaInsightsPanel.error s |})
  /\ (forall none, none = None \/ none = Some [] ->
        Spec.after_success (IaInsightsPanel.panel tem) none st d s
        = Some {| IaInsightsPanel.insights := JArr l;
                  IaInsightsPanel.loading := false;
                  IaInsightsPanel.error := IaInsightsPanel.error s |})
  /\ (In JNull l ->
        exists m, m <> [] /\
          Spec.after_success (IaInsightsPanel.panel tem) (Some ft) st d s
          = Some {| IaInsightsPanel.insights := IaInsightsPanel.insights s;
                    IaInsightsPanel.loading := false;
                    IaInsightsPanel.error := Some m |}).
Proof.
  intros Hft Hd.
  assert (exists fs, d = JObj fs) as [fs ->] by (destruct d; try discriminate; eauto).
  apply truthy_str_nonempty in Hft.
  unfold Spec.after_success. cbn [on_fetch IaInsightsPanel.panel IaInsightsPanel.after_fetch negb].
  change (on_json (IaInsightsPanel.panel tem)) with (IaInsightsPanel.after_json tem).
  unfold IaInsightsPanel.after_json. cbv beta iota zeta.
  rewrite Hd. cbn [js_or truthy_opt truthy default from_option id].
  split_and!.
  - intros Hl. rewrite Hft. rewrite tipo_is_has_tipo by done. by rewrite zip_filter.
  - intros none [-> | ->]; reflexivity.
  - intros Hin. rewrite Hft. rewrite tipo_is_null by done.
    exists (or_str tem IaInsightsPanel.msg_default).
    split; [by apply or_str_nonempty|reflexivity].
Qed.

(** Three insights, two of them about materials; the panel of the
    materials tab. *)
Lemma insights_filter_by_tipo_witness :
  let a := JObj [(u "tipo", JStr (u "material")); (u "titulo", JStr (u "A"))] in
  let b := JObj [(u "tipo", JStr (u "ordem")); (u "titulo", JStr (u "B"))] in
  let c := JObj [(u "tipo", JStr (u "material")); (u "titulo", JStr (u "C"))] in
  Spec.after_success (IaInsightsPanel.panel (u "TypeError")) (Some (u "material")) 200
    (JObj [(u "insights", JArr [a; b; c])])
    {| IaInsightsPanel.insights := JArr []; IaInsightsPanel.loading := true;
       IaInsightsPanel.error := None |}
  = Some {| IaInsightsPanel.insights := JArr [a; c];
            IaInsightsPanel.loading := false;
            IaInsightsPanel.error := None |}.
Proof.
  intros a b c.
  refine (proj1 (insights_filter_by_tipo (u "TypeError") (u "material") 200
                   (JObj [(u "insights", JArr [a; b; c])]) [a; b; c]
                   {| IaInsightsPanel.insights := JArr []; IaInsightsPanel.loading := true;
                      IaInsightsPanel.error := None |} _ eq_refl) _).
  - discriminate.
  - repeat constructor; discriminate.
Defined.

(** ** The cards of the capacity page *)

Section CardFacts.
Import Cover CapacityCards Spec.
Variable coerce : json -> option Q.
Variable toLowerCase : jsstring -> jsstring.

Lemma card_resource (r : json) (c : card_class * bool) :
  card coerce toLowerCase r = Some c -> resource r.
Proof.
  unfold card. intros H. split; [by intros ->|].
  assert (exists q, CapacityIa.utilizacao r = JNum q) as [q Hq].
  { destruct r; try discriminate;
      destruct (isGargalo _ _ _ _); try discriminate;
      destruct (CapacityIa.utilizacao _); try discriminate; eauto. }
  revert Hq. unfold CapacityIa.utilizacao, opt_prop, nullish.
  destruct (prop (u "utilizacao_pct") r) as [[]|]; intros; simplify_eq; eauto.
Qed.

Lemma card_uncategorised (r : json) (c : card_class * bool) :
  uncategorised r -> card coerce toLowerCase r = Some c ->
  fst c = class_of_utilizacao (utilizacao_of r).
Proof.
  intros Hu Hc. pose proof (card_resource r c Hc) as Hr.
  pose proof (resource_utilizacao r Hr) as Hq.
  unfold card in Hc. rewrite Hq in Hc.
  assert (isGargalo coerce toLowerCase r (JNum (utilizacao_of r))
          = Some (js_gt coerce (JNum (utilizacao_of r)) 100)) as Hg.
  { unfold isGargalo. unfold uncategorised in Hu.
    destruct (prop (u "categoria") r) as [v|]; [|done]. cbn [truthy_opt] in Hu.
    destruct v; cbn [truthy] in Hu |- *; rewrite ?Hu; try done. }
  rewrite Hg in Hc.
  assert (c = (cardClass coerce (js_gt coerce (JNum (utilizacao_of r)) 100)
                 (JNum (utilizacao_of r)),
               js_gt coerce (JNum (utilizacao_of r)) 100)) as -> by (destruct r; congruence).
  unfold cardClass, class_of_utilizacao, js_gt, js_lt. simpl.
  destruct (Qle_bool (utilizacao_of r) 100); simpl; [|done].
  by destruct (Qle_bool 90 (utilizacao_of r)).
Qed.

Lemma class_of_utilizacao_mono (a b : Q) :
  (b <= a)%Q -> (severity (class_of_utilizacao b) <= severity (class_of_utilizacao a))%nat.
Proof.
  intros Hab. unfold class_of_utilizacao.
  destruct (Qle_bool a 100) eqn:Ha, (Qle_bool b 100) eqn:Hb;
    destruct (Qle_bool 90 a) eqn:Ha', (Qle_bool 90 b) eqn:Hb'; simpl; try lia; exfalso.
  - apply Qle_bool_iff in Hb'. apply not_true_iff_false in Ha'. apply Ha', Qle_bool_iff.
    by eapply Qle_trans.
  - apply Qle_bool_iff in Ha. apply not_true_iff_false in Hb. apply Hb, Qle_bool_iff.
    by eapply Qle_trans.
  - apply Qle_bool_iff in Ha. apply not_true_iff_false in Hb. apply Hb, Qle_bool_iff.
    by eapply Qle_trans.
  - apply Qle_bool_iff in Ha. apply not_true_iff_false in Hb. apply Hb, Qle_bool_iff.
    by eapply Qle_trans.
  - apply Qle_bool_iff in Ha. apply not_true_iff_false in Hb. apply Hb, Qle_bool_iff.
    by eapply Qle_trans.
Qed.

Lemma cards_classes (l : list json) (cs : list (card_class * bool)) :
  Forall uncategorised l -> mapM (card coerce toLowerCase) l = Some cs ->
  map fst cs = map (fun r => class_of_utilizacao (utilizacao_of r)) l.
Proof.
  intros Hu Hcs. apply mapM_Some_1 in Hcs.
  induction Hcs as [|r c l cs Hc _ IH]; simpl; [done|].
  apply Forall_cons in Hu as [Hur Hul].
  f_equal; [by apply card_uncategorised|by apply IH].
Qed.

Lemma sorted_classes (l : list json) :
  StronglySorted not_below l ->
  StronglySorted (fun a b => (severity b <= severity a)%nat)
    (map (fun r => class_of_utilizacao (utilizacao_of r)) l).
Proof.
  induction 1 as [|r l Hs IH Hr]; simpl; constructor; [done|].
  apply Forall_fmap. eapply Forall_impl; [exact Hr|].
  intros r' Hr'. simpl. by apply class_of_utilizacao_mono.
Qed.

Lemma cards_all_resources (l : list json) (cs : list (card_class * bool)) :
  mapM (card coerce toLowerCase) l = Some cs -> Forall resource l.
Proof.
  intros H. apply mapM_Some_1 in H.
  induction H as [|r c l cs Hc _ IH]; constructor; [by eapply card_resource|done].
Qed.

Lemma card_badge (r : json) (c : card_class * bool) :
  card coerce toLowerCase r = Some c -> snd c = true <-> fst c = CapacityCritical.
Proof.
  unfold card. intros Hc.
  destruct r; try discriminate;
    destruct (isGargalo _ _ _ _) as [[]|]; try discriminate;
    destruct (CapacityIa.utilizacao _); try discriminate;
    injection Hc as <-; unfold cardClass; simpl;
    try (split; done);
    destruct (js_lt _ _ _); split; done.
Qed.

Lemma cards_badges (l : list json) (cs : list (card_class * bool)) :
  mapM (card coerce toLowerCase) l = Some cs ->
  Forall (fun c => snd c = true <-> fst c = CapacityCritical) cs.
Proof.
  intros H. apply mapM_Some_1 in H.
  induction H as [|r c l cs Hc _ IH]; constructor; [by eapply card_badge|done].
Qed.

End CardFacts.

(** X10. The cards of the capacity page come grouped by urgency. When no
    resource of the payload carries a category and the cards can be drawn,
    the class of each card follows from its utilisation alone, critical
    above 100, low below 90 and normal between, and along the page the
    classes never get more urgent: the critical cards first, then the
    normal ones, then the low ones. There is one card per resource of the
    payload. *)
Theorem capacity_cards_grouped (coerce : json -> option Q)
    (toLowerCase : jsstring -> jsstring)
    (d : json) (cs : list (CapacityCards.card_class * bool)) :
  Forall Cover.uncategorised (CapacityIa.safeInsights d) ->
  CapacityCards.cards coerce toLowerCase d = Some cs ->
  length cs = length (CapacityIa.safeInsights d)
  /\ map fst cs
     = map (fun r => Cover.class_of_utilizacao (Spec.utilizacao_of r))
           (CapacityIa.sortedResources coerce d)
  /\ StronglySorted (fun a b => (Cover.severity b <= Cover.severity a)%nat) (map fst cs)
  /\ Forall (fun c => snd c = true <-> fst c = CapacityCards.CapacityCritical) cs.
Proof.
  intros Hu Hcs. unfold CapacityCards.cards in Hcs.
  pose proof (js_sort_perm (CapacityIa.by_utilizacao coerce) (CapacityIa.safeInsights d))
    as Hperm.
  fold (CapacityIa.sortedResources coerce d) in Hperm.
  assert (Forall Cover.uncategorised (CapacityIa.sortedResources coerce d)) as Hus.
  { eapply Permutation_Forall; [symmetry; exact Hperm|exact Hu]. }
  pose proof (cards_all_resources coerce toLowerCase _ _ Hcs) as Hrs.
  assert (Forall Spec.resource (CapacityIa.safeInsights d)) as Hr.
  { eapply Permutation_Forall; [exact Hperm|exact Hrs]. }
  pose proof (cards_classes coerce toLowerCase _ _ Hus Hcs) as Hcls.
  split_and!.
  - apply length_mapM in Hcs. rewrite <- Hcs. by apply Permutation_length.
  - exact Hcls.
  - rewrite Hcls. apply sorted_classes. by apply js_sort_sorted.
  - by eapply cards_badges.
Qed.

(** Three work centres at 80, 120 and 95 per cent. *)
Lemma capacity_cards_grouped_witness :
  let r80 := JObj [(u "recurso", JStr (u "WC-01")); (u "utilizacao_pct", JNum 80)] in
  let r120 := JObj [(u "recurso", JStr (u "WC-02")); (u "utilizacao_pct", JNum 120)] in
  let r95 := JObj [(u "recurso", JStr (u "WC-03")); (u "utilizacao_pct", JNum 95)] in
  let d := JObj [(u "insights", JArr [r80; r120; r95])] in
  let cs := [(CapacityCards.CapacityCritical, true);
             (CapacityCards.CapacityNormal, false);
             (CapacityCards.CapacityLow, false)] in
  length cs = length (CapacityIa.safeInsights d)
  /\ map fst cs
     = map (fun r => Cover.class_of_utilizacao (Spec.utilizacao_of r))
           (CapacityIa.sortedResources (fun _ => None) d)
  /\ StronglySorted (fun a b => (Cover.severity b <= Cover.severity a)%nat) (map fst cs)
  /\ Forall (fun c => snd c = true <-> fst c = CapacityCards.CapacityCritical) cs.
Proof.
  intros r80 r120 r95 d cs.
  apply (capacity_cards_grouped (fun _ => None) (fun s => s) d cs).
  - change (CapacityIa.safeInsights d) with [r80; r120; r95].
    repeat constructor.
  - reflexivity.
Defined.

(** ** The longest delay of the first pegging panel *)

Section DelayFacts.
Import Cover PeggingIaLiteOld.
Variable coerce : json -> option Q.

Lemma is_late_iff (o : json) : is_late o = true <-> (0 < delay_of o)%Q.
Proof.
  unfold is_late. rewrite negb_true_iff, <- not_true_iff_false, Qle_bool_iff.
  split; [apply Qnot_le_lt|apply Qlt_not_le].
Qed.

Lemma is_critica_late (o : json) :
  order_with_delay o -> is_critica coerce o = Some (is_late o).
Proof.
  intros [Ho Hd]. unfold is_critica, is_late, delay_of, dias_atraso, js_or, CapacityCards.js_gt.
  destruct o; try done; f_equal.
  all: destruct Hd as [-> | [-> | [q ->]]]; try reflexivity.
  all: cbn [truthy_opt truthy]; destruct (Qeq_bool q 0) eqn:Hq; simpl; try reflexivity.
  all: apply Qeq_bool_iff in Hq; symmetry; apply negb_false_iff, Qle_bool_iff;
    rewrite Hq; apply Qle_refl.
Qed.

Lemma criticas_filter (l : list json) :
  Forall order_with_delay l -> mapM (is_critica coerce) l = Some (map is_late l).
Proof.
  intros Hl. apply mapM_Some_2.
  induction Hl as [|o l Ho Hl IH]; simpl; constructor; [|done].
  by apply is_critica_late.
Qed.

(** A late order carries its delay as it is. *)
Lemma late_dias_atraso (o : json) :
  is_late o = true -> dias_atraso o = JNum (delay_of o).
Proof.
  intros Hl. pose proof (proj1 (is_late_iff o) Hl) as Hpos. revert Hl Hpos.
  unfold is_late, delay_of, dias_atraso, js_or.
  destruct (prop (u "dias_atraso") o) as [[]|]; simpl; try discriminate.
  intros _ Hpos. destruct (Qeq_bool q 0) eqn:Hq; simpl; [|done].
  apply Qeq_bool_iff in Hq. rewrite Hq in Hpos. by apply Qlt_irrefl in Hpos.
Qed.

Lemma math_max_late (m0 : Q) (os : list json) :
  Forall (fun o => is_late o = true) os ->
  exists m, math_max coerce m0 (map dias_atraso os) = Some m
    /\ (m0 <= m)%Q
    /\ (forall o, In o os -> (delay_of o <= m)%Q)
    /\ (m = m0 \/ exists o, In o os /\ delay_of o = m).
Proof.
  intros Hos. revert m0. induction Hos as [|o os Ho Hos IH]; intros m0; simpl.
  - exists m0. split; [done|]. split; [apply Qle_refl|]. split; [by intros o []|by left].
  - rewrite (late_dias_atraso o Ho). simpl.
    destruct (Qle_bool m0 (delay_of o)) eqn:Hle.
    + destruct (IH (delay_of o)) as (m & Hm & Hge & Hall & Hat).
      exists m. split; [done|]. apply Qle_bool_iff in Hle.
      split; [by eapply Qle_trans|]. split.
      * intros o' [<-|Hin]; [done|by apply Hall].
      * right. destruct Hat as [->|(o' & Hin & Ho')]; [exists o; auto|exists o'; auto].
    + destruct (IH m0) as (m & Hm & Hge & Hall & Hat).
      exists m. split; [done|]. split; [done|]. split.
      * intros o' [<-|Hin]; [|by apply Hall].
        eapply Qle_trans; [|exact Hge]. apply Qlt_le_weak, Qnot_le_lt.
        intros H. apply Qle_bool_iff in H. congruence.
      * destruct Hat as [->|(o' & Hin & Ho')]; [by left|right; exists o'; auto].
Qed.

End DelayFacts.

(** X11. The first pegging panel counts the late orders and their longest
    delay from the payload. For a payload whose [pegging_ordens] is an array
    of orders with a [dias_atraso] that is a number, [null] or missing: the
    late orders are those with a delay above 0, in the order of the payload;
    [atrasoMax] is a number, never NaN; no order has a longer delay; it is 0
    when no order is late; and otherwise it is the delay of one of the late
    orders, above 0. *)
Theorem old_atraso_max (coerce : json -> option Q) (data : json) (l : list json) :
  prop (u "pegging_ordens") data = Some (JArr l) ->
  Forall Cover.order_with_delay l ->
  exists m,
    PeggingIaLiteOld.ordensCriticas coerce data = Some (List.filter Cover.is_late l)
    /\ PeggingIaLiteOld.atrasoMax coerce data = Some (Some m)
    /\ (forall o, In o l -> (Cover.delay_of o <= m)%Q)
    /\ (List.filter Cover.is_late l = [] -> m = 0%Q)
    /\ (List.filter Cover.is_late l <> [] ->
        (0 < m)%Q /\ exists o, In o l /\ Cover.is_late o = true /\ Cover.delay_of o = m).
Proof.
  intros Hd Hl.
  assert (PeggingIaLiteOld.ordensCriticas coerce data = Some (List.filter Cover.is_late l))
    as Hcrit.
  { unfold PeggingIaLiteOld.ordensCriticas, PeggingIaLiteOld.ordens, opt_prop.
    rewrite Hd, or_empty_array, criticas_filter by done. simpl. by rewrite zip_filter. }
  assert (forall o, In o l -> Cover.is_late o = false -> (Cover.delay_of o <= 0)%Q) as Hnot.
  { intros o _ Ho. apply Qle_bool_iff. unfold Cover.is_late in Ho.
    by apply negb_false_iff in Ho. }
  unfold PeggingIaLiteOld.atrasoMax. rewrite Hcrit.
  destruct (List.filter Cover.is_late l) as [|o os] eqn:Hf.
  - exists 0%Q. split; [done|]. split; [done|]. split; [|split; done].
    intros o Hin. apply Hnot; [done|].
    destruct (Cover.is_late o) eqn:Ho; [|done].
    assert (In o (List.filter Cover.is_late l)) as Hin' by (apply filter_In; auto).
    by rewrite Hf in Hin'.
  - assert (Forall (fun o => Cover.is_late o = true) (o :: os)) as Hall.
    { rewrite <- Hf. apply List.Forall_forall. intros x Hx. by apply filter_In in Hx as [_ ?]. }
    apply Forall_cons in Hall as [Ho Hos].
    rewrite (late_dias_atraso o Ho). simpl.
    destruct (math_max_late coerce (Cover.delay_of o) os Hos) as (m & Hm & Hge & Hle & Hat).
    pose proof (proj1 (is_late_iff o) Ho) as Hpos.
    assert (0 < m)%Q as Hm0 by (by eapply Qlt_le_trans).
    exists m. split; [done|]. split; [by rewrite Hm|]. split; [|split].
    + intros x Hin. destruct (Cover.is_late x) eqn:Hx.
      * assert (In x (o :: os)) as Hin'.
        { rewrite <- Hf. apply filter_In. auto. }
        destruct Hin' as [<-|Hin']; [done|by apply Hle].
      * eapply Qle_trans; [by apply Hnot|by apply Qlt_le_weak].
    + discriminate.
    + intros _. split; [done|].
      assert (forall x, In x (o :: os) -> In x l /\ Cover.is_late x = true) as Hsub.
      { intros x Hx. rewrite <- Hf in Hx. by apply filter_In in Hx. }
      destruct Hat as [->|(x & Hin & Hx)].
      * exists o. destruct (Hsub o) as [? ?]; [by left|]. auto.
      * exists x. destruct (Hsub x) as [? ?]; [by right|]. auto.
Qed.

(** Four orders, two of them late by 3 and by 7 days, one with no delay
    given. *)
Lemma old_atraso_max_witness :
  let o (d : json) := JObj [(u "ordem", JStr (u "45")); (u "dias_atraso", d)] in
  let data := JObj [(u "pegging_ordens",
                     JArr [o (JNum 3); o (JNum 0); o (JNum 7); JObj [(u "ordem", JStr (u "9"))]])] in
  PeggingIaLiteOld.ordensCriticas (fun _ => None) data = Some [o (JNum 3); o (JNum 7)]
  /\ PeggingIaLiteOld.atrasoMax (fun _ => None) data = Some (Some 7%Q).
Proof.
  intros o data.
  destruct (old_atraso_max (fun _ => None) data
              [o (JNum 3); o (JNum 0); o (JNum 7); JObj [(u "ordem", JStr (u "9"))]])
    as (m & Hc & Hm & _).
  - reflexivity.
  - repeat (apply List.Forall_cons; [split; [discriminate|]|]); try apply List.Forall_nil.
    + right. right. by eexists.
    + right. right. by eexists.
    + right. right. by eexists.
    + by left.
  - split; [exact Hc|reflexivity].
Defined.

(** ** The demo record on the page *)

Section DemoPageFacts.
Import PeggingIaLiteDemo PeggingPanel.

Lemma buildDemoResult_cases (code : jsstring) :
  trim code <> [] ->
  buildDemoResult code = DEMO_PEGGING_4011835
  \/ buildDemoResult code =
       with_prop (u "ordens")
         (JArr (map (fun op => with_prop (u "material") (JStr (trim code)) op) DEMO_ordens))
         (with_prop (u "material") (JStr (trim code)) DEMO_PEGGING_4011835).
Proof.
  intros Hne. destruct (decide (trim code = DEFAULT_MATERIAL)) as [Hd|Hd].
  - left. unfold buildDemoResult. rewrite or_str_empty.
    apply truthy_str_nonempty in Hne. rewrite Hne. cbn [negb]. by rewrite decide_True.
  - right. by apply buildDemoResult_other.
Qed.

Lemma demo_material (code : jsstring) :
  trim code <> [] -> prop (u "material") (buildDemoResult code) = Some (JStr (trim code)).
Proof.
  intros Hne. destruct (decide (trim code = DEFAULT_MATERIAL)) as [Hd|Hd].
  - unfold buildDemoResult. rewrite or_str_empty.
    apply truthy_str_nonempty in Hne. rewrite Hne. cbn [negb]. rewrite decide_True by done.
    by rewrite Hd.
  - rewrite buildDemoResult_other by done. reflexivity.
Qed.

End DemoPageFacts.

(** X12. The demo record agrees with itself on the page, for every code
    that is not blank: the page has five order cards and no empty-state
    box; the counter of linked orders is the number of cards; the counter of
    late orders is the number of cards that show a delay; the longest delay
    of the summary is the delay of one of the cards and no card has a longer
    one; and the summary and every card carry the trimmed code as their
    material. *)
Theorem demo_summary_matches_cards (coerce : json -> option Q) (code : jsstring)
    (s : PeggingPanel.state) :
  trim code <> [] ->
  PeggingPanel.result s = PeggingIaLiteDemo.buildDemoResult code ->
  let os := PeggingPanel.ordens s in
  length os = 5%nat
  /\ Spec.pegging_empty (PeggingPanel.result s) = false
  /\ PeggingCards.kpi_total s = JNum (inject_Z (Z.of_nat (length os)))
  /\ (exists lates,
        mapM (PeggingCards.late coerce) os = Some lates
        /\ PeggingCards.kpi_atrasadas s
           = JNum (inject_Z (Z.of_nat (length (List.filter id lates)))))
  /\ (exists m,
        PeggingCards.kpi_maior_atraso s = JNum m
        /\ Forall (fun op => exists q, PeggingCards.atraso op = JNum q /\ (q <= m)%Q) os
        /\ Exists (fun op => PeggingCards.atraso op = JNum m) os)
  /\ prop (u "material") (PeggingPanel.result s) = Some (JStr (trim code))
  /\ Forall (fun op => PeggingCards.card_material s op = JStr (trim code)) os.
Proof.
  intros Hne Hr. pose proof (demo_material code Hne) as Hmat.
  destruct s as [mi ld er r]. cbn [PeggingPanel.result] in Hr. subst r.
  unfold PeggingCards.kpi_total, PeggingCards.kpi_atrasadas, PeggingCards.kpi_maior_atraso,
    PeggingCards.card_material, PeggingPanel.ordens.
  cbn [PeggingPanel.result PeggingPanel.materialInput]. rewrite Hmat.
  destruct (decide (trim code = PeggingPanel.DEFAULT_MATERIAL)) as [Hd|Hd].
  - destruct (buildDemoResult_cases code Hne) as [-> | ->]; rewrite Hd.
    all: split; [reflexivity|]; split; [reflexivity|]; split; [reflexivity|].
    all: split; [eexists; split; reflexivity|].
    all: split; [|split; [reflexivity|repeat (apply List.Forall_cons; [reflexivity|]);
                                      apply List.Forall_nil]].
    all: exists 3%Q; split; [reflexivity|]; split;
      [repeat (apply List.Forall_cons; [eexists; split; [reflexivity|by compute]|]);
       apply List.Forall_nil
      |apply List.Exists_cons_hd; reflexivity].
  - rewrite buildDemoResult_other by done. generalize (trim code). intros x.
    split; [reflexivity|]. split; [reflexivity|]. split; [reflexivity|].
    split; [eexists; split; reflexivity|].
    split; [|split; [reflexivity|repeat (apply List.Forall_cons; [reflexivity|]);
                                 apply List.Forall_nil]].
    exists 3%Q. split; [reflexivity|]. split;
      [repeat (apply List.Forall_cons; [eexists; split; [reflexivity|by compute]|]);
       apply List.Forall_nil
      |apply List.Exists_cons_hd; reflexivity].
Qed.

(** The record shown for the code [B-77] typed with blanks around it. *)
Lemma demo_summary_matches_cards_witness :
  let s := {| PeggingPanel.materialInput := u " B-77 ";
              PeggingPanel.loading := false;
              PeggingPanel.error := [];
              PeggingPanel.result := PeggingIaLiteDemo.buildDemoResult (u " B-77 ") |} in
  length (PeggingPanel.ordens s) = 5%nat
  /\ PeggingCards.kpi_total s = JNum 5
  /\ Forall (fun op => PeggingCards.card_material s op = JStr (u "B-77")) (PeggingPanel.ordens s).
Proof.
  intros s.
  destruct (demo_summary_matches_cards (fun _ => None) (u " B-77 ") s)
    as (H1 & _ & H3 & _ & _ & _ & H7).
  - discriminate.
  - reflexivity.
  - split; [exact H1|]. split; [rewrite H3; reflexivity|exact H7].
Defined.

(** ** The requests of the first pegging panel *)

Section OldPanelFacts.
Import PeggingIaLiteOld.

Lemma fetchPegging_issues (mat e : jsstring) (s s' : state) :
  fetchPegging mat s = (Some e, s') ->
  e = mat /\ mat <> [] /\ is_Some (Uri.encodeURIComponent mat).
Proof.
  unfold fetchPegging, url, bind, ret.
  destruct (truthy_str mat) eqn:Hm; simpl; [|discriminate].
  destruct (Uri.encodeURIComponent mat) as [q|]; simpl; [|discriminate].
  intros [= <- <-]. split; [done|]. split; [by apply truthy_str_nonempty|by eexists].
Qed.

Lemma old_issues_encodable (t : trigger) (s : state) (e : jsstring) (s' : state) :
  on_trigger panel t s = (Some e, s') -> e <> [] /\ is_Some (Uri.encodeURIComponent e).
Proof.
  destruct t as [mc| |v]; simpl.
  - unfold prop_effect, bind. simpl.
    destruct (truthy_str (default [] mc)); simpl; [|discriminate].
    intros H. apply fetchPegging_issues in H as (-> & ? & ?). done.
  - unfold handleLoadClick, bind, read. simpl.
    intros H. apply fetchPegging_issues in H as (-> & ? & ?). done.
  - discriminate.
Qed.

End OldPanelFacts.

(** X13. The first pegging panel fetches only what it can put in a URL:
    in every state it can reach, whatever state it started in, each request
    in flight was issued for a material that is not empty and that
    [encodeURIComponent] accepts, so its URL is the loopback address, the
    path [/planning/board/] and the encoded material; once every request
    has settled the loading flag is down; and a click on a material that
    cannot be encoded makes no request, ends with the failure message and
    leaves nothing loading. The panel validates nothing else: a material of
    blanks is fetched. *)
Theorem old_pegging_requests (s0 : PeggingIaLiteOld.state)
    (w : world PeggingIaLiteOld.state jsstring) :
  reachable PeggingIaLiteOld.panel s0 w ->
  (forall (id : nat) (t : task jsstring), tasks w !! id = Some t ->
     closure t <> []
     /\ exists q, Uri.encodeURIComponent (closure t) = Some q
                  /\ PeggingIaLiteOld.url (closure t)
                     = Some (u "http://127.0.0.1:8000/planning/board/" ++ q))
  /\ (in_flight w = 0%nat -> (0 < issued w)%nat -> PeggingIaLiteOld.loading (ui w) = false)
  /\ (Uri.encodeURIComponent (PeggingIaLiteOld.material (ui w)) = None ->
      exists s', on_trigger PeggingIaLiteOld.panel PeggingIaLiteOld.Click (ui w) = (None, s')
                 /\ PeggingIaLiteOld.error s' = PeggingIaLiteOld.msg_failed
                 /\ PeggingIaLiteOld.loading s' = false)
  /\ (PeggingIaLiteOld.material (ui w) = u " " ->
      exists s', on_trigger PeggingIaLiteOld.panel PeggingIaLiteOld.Click (ui w)
                 = (Some (u " "), s')
                 /\ PeggingIaLiteOld.url (u " ")
                    = Some (u "http://127.0.0.1:8000/planning/board/%20")).
Proof.
  intros Hw. split_and!.
  - intros id t Hid.
    pose proof (reachable_closures PeggingIaLiteOld.panel
                  (fun e => e <> [] /\ is_Some (Uri.encodeURIComponent e))
                  s0 w old_issues_encodable Hw id t Hid) as [Hne [q Hq]].
    split; [done|]. exists q. split; [done|].
    unfold PeggingIaLiteOld.url. rewrite Hq. reflexivity.
  - intros Hfl Hn.
    eapply reachable_settled; [apply old_clears_loading|exact Hw|exact Hfl|exact Hn].
  - intros Henc. cbn [on_trigger PeggingIaLiteOld.panel].
    unfold PeggingIaLiteOld.handleLoadClick, PeggingIaLiteOld.fetchPegging,
      PeggingIaLiteOld.url, bind, read. cbn [PeggingIaLiteOld.material].
    assert (truthy_str (PeggingIaLiteOld.material (ui w)) = true) as Hm.
    { destruct (PeggingIaLiteOld.material (ui w)); [discriminate|done]. }
    rewrite Hm, Henc. simpl. eexists. split; [reflexivity|]. split; reflexivity.
  - intros Hm. cbn [on_trigger PeggingIaLiteOld.panel].
    unfold PeggingIaLiteOld.handleLoadClick, PeggingIaLiteOld.fetchPegging, bind, read.
    rewrite Hm. simpl. eexists. split; reflexivity.
Qed.

(** Mounted with the material [40/11] given by the parent. *)
Lemma old_pegging_requests_witness :
  let s := {| PeggingIaLiteOld.materialCode := Some (u "40/11");
              PeggingIaLiteOld.material := u "40/11";
              PeggingIaLiteOld.effectiveMaterial := u "40/11";
              PeggingIaLiteOld.data := JNull;
              PeggingIaLiteOld.loading := true;
              PeggingIaLiteOld.error := [] |} in
  let w := {| ui := s;
              tasks := <[0%nat := {| closure := u "40/11"; waits := AwaitFetch |}]> ∅;
              issued := 1 |} in
  reachable PeggingIaLiteOld.panel (PeggingIaLiteOld.initial (Some (u "40/11"))) w
  /\ forall (id : nat) (t : task jsstring), tasks w !! id = Some t ->
       closure t <> []
       /\ exists q, Uri.encodeURIComponent (closure t) = Some q
                    /\ PeggingIaLiteOld.url (closure t)
                       = Some (u "http://127.0.0.1:8000/planning/board/" ++ q).
Proof.
  intros s w.
  assert (reachable PeggingIaLiteOld.panel (PeggingIaLiteOld.initial (Some (u "40/11"))) w)
    as Hr.
  { eapply reach_step with (ev := Trigger (PeggingIaLiteOld.Props (Some (u "40/11")))).
    - apply reach_start.
    - vm_compute. reflexivity. }
  split; [exact Hr|].
  exact (proj1 (old_pegging_requests (PeggingIaLiteOld.initial (Some (u "40/11"))) w Hr)).
Defined.

Example old_click_on_unpaired_surrogate :
  PeggingIaLiteOld.handleLoadClick
    {| PeggingIaLiteOld.materialCode := None;
       PeggingIaLiteOld.material := [55357];
       PeggingIaLiteOld.effectiveMaterial := [];
       PeggingIaLiteOld.data := JNull;
       PeggingIaLiteOld.loading := false;
       PeggingIaLiteOld.error := [] |}
  = (None,
     {| PeggingIaLiteOld.materialCode := None;
        PeggingIaLiteOld.material := [55357];
        PeggingIaLiteOld.effectiveMaterial := [55357];
        PeggingIaLiteOld.data := JNull;
        PeggingIaLiteOld.loading := false;
        PeggingIaLiteOld.error := PeggingIaLiteOld.msg_failed |}).
Proof. vm_compute. reflexivity. Qed.

(** ** Resources of equal utilisation *)

Section StableFacts.
Import Cover Spec CapacityIa.
Variable coerce : json -> option Q.

Lemma sort_insert_stable (q : Q) (x : json) (l : list json) :
  resource x -> Forall resource l ->
  List.filter (utilizacao_is q) (sort_insert (by_utilizacao coerce) x l)
  = List.filter (utilizacao_is q) (x :: l).
Proof.
  intros Hx Hl. induction Hl as [|y l Hy Hl IH]; [done|].
  cbn [sort_insert].
  destruct (goes_after (by_utilizacao coerce) x y) eqn:Hg; [|done].
  apply goes_after_resources in Hg; [|done..].
  cbn [List.filter] in IH |- *. rewrite IH.
  destruct (utilizacao_is q x) eqn:Hqx, (utilizacao_is q y) eqn:Hqy; try done.
  unfold utilizacao_is in *. apply Qeq_bool_iff in Hqx, Hqy.
  rewrite Hqx, Hqy in Hg. by apply Qlt_irrefl in Hg.
Qed.

Lemma js_sort_stable (q : Q) (l : list json) :
  Forall resource l ->
  List.filter (utilizacao_is q) (js_sort (by_utilizacao coerce) l)
  = List.filter (utilizacao_is q) l.
Proof.
  induction 1 as [|x l Hx Hl IH]; [done|].
  cbn [js_sort]. rewrite sort_insert_stable; [|done|].
  - cbn [List.filter]. by rewrite IH.
  - eapply Permutation_Forall; [symmetry; apply js_sort_perm|done].
Qed.

End StableFacts.

(** X14. The capacity page keeps the order of the payload among resources
    of equal utilisation: for every utilisation, the resources that have it
    stand on the page, in the chart and in the cards, in the order the
    backend gave them. *)
Theorem capacity_sort_stable (coerce : json -> option Q) (d : json) (q : Q) :
  Forall Spec.resource (CapacityIa.safeInsights d) ->
  List.filter (Cover.utilizacao_is q) (CapacityIa.sortedResources coerce d)
  = List.filter (Cover.utilizacao_is q) (CapacityIa.safeInsights d)
  /\ (forall bars, CapacityIa.chartData coerce d = Some bars ->
        map fst bars = map (prop (u "recurso")) (CapacityIa.sortedResources coerce d))
  /\ (forall cs, CapacityIa.cards coerce d = Some cs ->
        map fst cs = CapacityIa.sortedResources coerce d).
Proof.
  intros Hr.
  assert (Forall Spec.resource (CapacityIa.sortedResources coerce d)) as Hrs.
  { eapply Permutation_Forall; [symmetry; apply js_sort_perm|exact Hr]. }
  split_and!.
  - by apply js_sort_stable.
  - intros bars. unfold CapacityIa.chartData.
    rewrite chart_rows by (by apply resource_not_null).
    intros [= <-]. rewrite map_map. reflexivity.
  - intros cs. unfold CapacityIa.cards. rewrite card_rows by done.
    intros [= <-]. rewrite map_map. simpl. by rewrite map_id.
Qed.

(** Two work centres at 95 per cent around one at 120. *)
Lemma capacity_sort_stable_witness :
  let r (name : string) (q : Q) :=
    JObj [(u "recurso", JStr (u name)); (u "utilizacao_pct", JNum q)] in
  let d := JObj [(u "insights", JArr [r "A"%string 95%Q; r "B"%string 120%Q; r "C"%string 95%Q])] in
  CapacityIa.sortedResources (fun _ => None) d = [r "B"%string 120%Q; r "A"%string 95%Q; r "C"%string 95%Q]
  /\ List.filter (Cover.utilizacao_is 95%Q) (CapacityIa.sortedResources (fun _ => None) d)
     = [r "A"%string 95%Q; r "C"%string 95%Q].
Proof.
  intros r d. split; [reflexivity|].
  refine (eq_trans (proj1 (capacity_sort_stable (fun _ => None) d 95%Q _)) eq_refl).
  change (CapacityIa.safeInsights d) with [r "A"%string 95%Q; r "B"%string 120%Q; r "C"%string 95%Q].
  repeat (apply List.Forall_cons; [split; [discriminate|right; right; by eexists]|]).
  apply List.Forall_nil.
Defined.
